(** * OAuth handshake utilities of the Notion MCP server: a shallow embedding

    The development embeds [workers-oauth-utils.ts] (CSRF double submit,
    one-time OAuth state, session binding, signed approved-clients cookie)
    and the [POST /authorize] handler of [notion-handler.ts], together with
    the platform primitives these functions call (string methods, the
    [/.{1,2}/g] match, [parseInt], [TextEncoder], SHA-256, HMAC, [atob],
    [btoa], [JSON.parse], [JSON.stringify]).

    Conventions.
    - A JavaScript string is the list of its UTF-16 code units ([list N],
      every unit below 65536).  [lit "..."] turns an ASCII literal into
      such a list.
    - A call that may throw returns a [result]: [Return v] or [Throw e].
    - [async] functions are modelled by their resolved value; a rejected
      promise is a [Throw].
    - The Workers KV namespace is a finite map from keys to stored
      records; a record that the store has expired is simply absent. *)

From Stdlib Require Import NArith List String Ascii Bool Lia.
From stdpp Require Import gmap.
Import ListNotations.

Local Open Scope N_scope.

(* ===================================================================== *)
(** * Part I: definitions                                                  *)
(* ===================================================================== *)

(** ** JavaScript strings *)

Definition jsstring := list N.

Definition lit (s : string) : jsstring :=
  List.map N_of_ascii (list_ascii_of_string s).

Definition jsstring_eqb (a b : jsstring) : bool :=
  bool_decide (a = b).

(** ToBoolean on a string: only the empty string is falsy. *)
Definition truthy (s : jsstring) : bool :=
  match s with [] => false | _ :: _ => true end.

(** WhiteSpace and LineTerminator code units: what [String.prototype.trim]
    strips and what [parseInt] skips. *)
Definition isWhiteSpace (c : N) : bool :=
  (c =? 9) || (c =? 10) || (c =? 11) || (c =? 12) || (c =? 13) || (c =? 32)
  || (c =? 160) || (c =? 5760) || ((8192 <=? c) && (c <=? 8202))
  || (c =? 8232) || (c =? 8233) || (c =? 8239) || (c =? 8287)
  || (c =? 12288) || (c =? 65279).

Fixpoint trimStart (s : jsstring) : jsstring :=
  match s with
  | [] => []
  | c :: r => if isWhiteSpace c then trimStart r else s
  end.

Definition trimEnd (s : jsstring) : jsstring := rev (trimStart (rev s)).

Definition trim (s : jsstring) : jsstring := trimEnd (trimStart s).

(** [s.split(sep)] for a one-unit separator. *)
Fixpoint split (sep : N) (s : jsstring) : list jsstring :=
  match s with
  | [] => [[]]
  | c :: r =>
      if c =? sep then [] :: split sep r
      else match split sep r with
           | [] => [[c]]
           | h :: t => (c :: h) :: t
           end
  end.

Fixpoint startsWith (s p : jsstring) {struct p} : bool :=
  match p, s with
  | [], _ => true
  | _ :: _, [] => false
  | a :: p', b :: s' => (a =? b) && startsWith s' p'
  end.

(** [s.substring(n)] *)
Definition substring (s : jsstring) (n : nat) : jsstring := skipn n s.

(** [arr.join("")] *)
Definition join (l : list jsstring) : jsstring := List.concat l.

(** ** Exceptions and results *)

(** The exceptions the embedded code can meet: the [OAuthError] class of
    [workers-oauth-utils.ts] with its three fields, and the platform's
    [TypeError], [RangeError], [SyntaxError] and [DOMException] (by name). *)
Inductive Exn : Type :=
| OAuthError (code description : jsstring) (statusCode : N)
| TypeError
| RangeError
| SyntaxError
| DOMException (name : jsstring).

Inductive result (A : Type) : Type :=
| Return (a : A)
| Throw (e : Exn).
Arguments Return {A} a.
Arguments Throw {A} e.

Definition bind {A B : Type} (m : result A) (k : A -> result B) : result B :=
  match m with
  | Return a => k a
  | Throw e => Throw e
  end.

Notation "'let!' x ':=' m 'in' k" := (bind m (fun x => k))
  (at level 10, x pattern, m at level 100, k at level 200).

(** [try { m } catch { h }] *)
Definition catch {A : Type} (m : result A) (h : Exn -> result A) : result A :=
  match m with
  | Return a => Return a
  | Throw e => h e
  end.

(** A value of type [string | null | undefined] that passes a truthiness
    test: [None] for null, undefined and the empty string. *)
Definition present (o : option jsstring) : option jsstring :=
  match o with
  | Some s => if truthy s then Some s else None
  | None => None
  end.

(** ** Requests, form data, responses *)

(** What the functions read from a [Request]: the origin of
    [request.url], the decoded pairs of [url.searchParams] in order, and
    [request.headers.get("Cookie")]. *)
Record Request : Type := {
  origin : jsstring;
  searchParams : list (jsstring * jsstring);
  cookieHeader : option jsstring
}.

(** A form entry is a string or a [File]. *)
Inductive FormDataEntryValue : Type :=
| FormString (s : jsstring)
| FormFile.

Definition FormData := list (jsstring * FormDataEntryValue).

(** The first value stored under [name], as [FormData.get] and
    [URLSearchParams.get] return it; [None] is [null]. *)
Fixpoint assoc_get {V : Type} (name : jsstring) (l : list (jsstring * V)) : option V :=
  match l with
  | [] => None
  | (k, v) :: r => if jsstring_eqb k name then Some v else assoc_get name r
  end.

Definition FormData_get (name : jsstring) (fd : FormData) : option FormDataEntryValue :=
  assoc_get name fd.

Definition searchParams_get (name : jsstring) (r : Request) : option jsstring :=
  assoc_get name (searchParams r).

(** [cookieHeader.split(";").map((c) => c.trim())] *)
Definition cookiesOf (header : jsstring) : list jsstring :=
  List.map trim (split 59 header).

(** ** JSON text of string values ([QuoteJSONString]) *)

Definition hexDigit (v : N) : N := if v <? 10 then 48 + v else 87 + v.

Definition isHighSurrogate (c : N) : bool := (55296 <=? c) && (c <? 56320).
Definition isLowSurrogate (c : N) : bool := (56320 <=? c) && (c <? 57344).

Definition unicodeEscape (c : N) : jsstring :=
  [92; 117; hexDigit (c / 4096 mod 16); hexDigit (c / 256 mod 16);
   hexDigit (c / 16 mod 16); hexDigit (c mod 16)].

Definition quoteUnit (c : N) : jsstring :=
  if c =? 8 then lit "\b"
  else if c =? 9 then lit "\t"
  else if c =? 10 then lit "\n"
  else if c =? 12 then lit "\f"
  else if c =? 13 then lit "\r"
  else if c =? 34 then [92; 34]
  else if c =? 92 then [92; 92]
  else if c <? 32 then unicodeEscape c
  else [c].

(** Lone surrogates are escaped, well-formed pairs are copied. *)
Fixpoint quoteUnits (s : jsstring) : jsstring :=
  match s with
  | [] => []
  | c :: r =>
      if isHighSurrogate c then
        match r with
        | d :: r' =>
            if isLowSurrogate d then c :: d :: quoteUnits r'
            else unicodeEscape c ++ quoteUnits r
        | [] => unicodeEscape c
        end
      else if isLowSurrogate c then unicodeEscape c ++ quoteUnits r
      else quoteUnit c ++ quoteUnits r
  end.

Definition QuoteJSONString (s : jsstring) : jsstring :=
  [34] ++ quoteUnits s ++ [34].

Record Response : Type := {
  status : N;
  headers : list (jsstring * jsstring);
  body : option jsstring
}.

(** ** [new Response] and [OAuthError.toResponse] *)

(** The statuses for which the constructor refuses a body. *)
Definition isNullBodyStatus (st : N) : bool :=
  (st =? 101) || (st =? 103) || (st =? 204) || (st =? 205) || (st =? 304).

(** [new Response(body, { status, headers })] as the Fetch standard
    defines the constructor: the status is read as an [unsigned short]
    (modulo 65536); outside 200..599 the constructor throws a [RangeError],
    and with a body and a null-body status a [TypeError]. *)
Definition Response_new (bodyInit : option jsstring) (statusInit : N)
    (headersInit : list (jsstring * jsstring)) : result Response :=
  let st := statusInit mod 65536 in
  if negb ((200 <=? st) && (st <=? 599)) then Throw RangeError
  else
    match bodyInit with
    | Some _ =>
        if isNullBodyStatus st then Throw TypeError
        else Return {| status := st; headers := headersInit; body := bodyInit |}
    | None => Return {| status := st; headers := headersInit; body := bodyInit |}
    end.

Definition toResponse (code description : jsstring) (statusCode : N) : result Response :=
  Response_new
    (Some (lit "{" ++ QuoteJSONString (lit "error") ++ lit ":"
           ++ QuoteJSONString code
           ++ lit "," ++ QuoteJSONString (lit "error_description") ++ lit ":"
           ++ QuoteJSONString description
           ++ lit "}"))
    statusCode
    [(lit "Content-Type", lit "application/json")].

(** ** CSRF double submit: [validateCSRFToken] *)

Record ValidateCSRFResult : Type := { csrf_clearCookie : jsstring }.

Definition validateCSRFToken (formData : FormData) (request : Request)
  : result ValidateCSRFResult :=
  let csrfCookieName := lit "__Host-CSRF_TOKEN" in
  let tokenFromForm :=
    match FormData_get (lit "csrf_token") formData with
    | Some (FormString t) => present (Some t)
    | Some FormFile => None
    | None => None
    end in
  match tokenFromForm with
  | None =>
      Throw (OAuthError (lit "invalid_request") (lit "Missing CSRF token in form data") 400)
  | Some tokenFromForm =>
      let cookieHeader := default [] (cookieHeader request) in
      let cookies := cookiesOf cookieHeader in
      let csrfCookie := find (fun c => startsWith c (csrfCookieName ++ lit "=")) cookies in
      let tokenFromCookie :=
        match present csrfCookie with
        | Some c => Some (substring c (length csrfCookieName + 1))
        | None => None
        end in
      match present tokenFromCookie with
      | None =>
          Throw (OAuthError (lit "invalid_request") (lit "Missing CSRF token cookie") 400)
      | Some tokenFromCookie =>
          if negb (jsstring_eqb tokenFromForm tokenFromCookie) then
            Throw (OAuthError (lit "invalid_request") (lit "CSRF token mismatch") 400)
          else
            Return {| csrf_clearCookie :=
              csrfCookieName ++ lit "=; HttpOnly; Secure; Path=/; SameSite=Lax; Max-Age=0" |}
      end
  end.

(** ** [TextEncoder.encode]: UTF-8 bytes of a string of UTF-16 code units *)

Fixpoint TextEncoder_encode (s : jsstring) : list N :=
  match s with
  | [] => []
  | c :: r =>
      if c <? 128 then c :: TextEncoder_encode r
      else if c <? 2048 then
        N.lor 192 (N.shiftr c 6) :: N.lor 128 (N.land c 63) :: TextEncoder_encode r
      else if isHighSurrogate c then
        match r with
        | d :: r' =>
            if isLowSurrogate d then
              let cp := 65536 + N.shiftl (c - 55296) 10 + (d - 56320) in
              N.lor 240 (N.shiftr cp 18)
                :: N.lor 128 (N.land (N.shiftr cp 12) 63)
                :: N.lor 128 (N.land (N.shiftr cp 6) 63)
                :: N.lor 128 (N.land cp 63) :: TextEncoder_encode r'
            else 239 :: 191 :: 189 :: TextEncoder_encode r
        | [] => [239; 191; 189]
        end
      else if isLowSurrogate c then 239 :: 191 :: 189 :: TextEncoder_encode r
      else
        N.lor 224 (N.shiftr c 12)
          :: N.lor 128 (N.land (N.shiftr c 6) 63)
          :: N.lor 128 (N.land c 63) :: TextEncoder_encode r
  end.

(** ** SHA-256 (FIPS 180-4) on byte lists, 32-bit words as [N] *)

Module SHA256.

Definition w32 (x : N) : N := x mod 4294967296.
Definition add32 (a b : N) : N := w32 (a + b).
Definition rotr (n x : N) : N := N.lor (N.shiftr x n) (w32 (N.shiftl x (32 - n))).
Definition shr (n x : N) : N := N.shiftr x n.
Definition not32 (x : N) : N := N.lxor x 4294967295.

Definition Ch (x y z : N) : N := N.lxor (N.land x y) (N.land (not32 x) z).
Definition Maj (x y z : N) : N :=
  N.lxor (N.land x y) (N.lxor (N.land x z) (N.land y z)).
Definition bsig0 (x : N) : N := N.lxor (rotr 2 x) (N.lxor (rotr 13 x) (rotr 22 x)).
Definition bsig1 (x : N) : N := N.lxor (rotr 6 x) (N.lxor (rotr 11 x) (rotr 25 x)).
Definition ssig0 (x : N) : N := N.lxor (rotr 7 x) (N.lxor (rotr 18 x) (shr 3 x)).
Definition ssig1 (x : N) : N := N.lxor (rotr 17 x) (N.lxor (rotr 19 x) (shr 10 x)).

(** The round constants and the initial hash value are, as FIPS 180-4
    defines them, the first 32 bits of the fractional parts of the cube
    roots of the first 64 primes and of the square roots of the first 8. *)
Definition isPrime (n : nat) : bool :=
  forallb (fun d => negb (n mod d =? 0)%nat) (seq 2 (n - 2)).

Definition primes (count : nat) : list N :=
  List.map N.of_nat (firstn count (List.filter isPrime (seq 2 400))).

(** The largest [r] below [2 ^ bits] with [r ^ 3 <= x], found bit by bit. *)
Fixpoint cubeRoot (bits : nat) (x r : N) : N :=
  match bits with
  | O => r
  | S b =>
      let c := r + N.shiftl 1 (N.of_nat b) in
      if c * c * c <=? x then cubeRoot b x c else cubeRoot b x r
  end.

Definition K : list N :=
  Eval vm_compute in
    List.map (fun p => w32 (cubeRoot 40 (N.shiftl p 96) 0)) (primes 64).

Definition registers : Type := (N * N * N * N * N * N * N * N)%type.

Definition H0 : registers :=
  Eval vm_compute in
    match List.map (fun p => w32 (N.sqrt (N.shiftl p 64))) (primes 8) with
    | [a; b; c; d; e; f; g; h] => (a, b, c, d, e, f, g, h)
    | _ => (0, 0, 0, 0, 0, 0, 0, 0)
    end.

Definition be32 (w : N) : list N :=
  [N.shiftr w 24 mod 256; N.shiftr w 16 mod 256; N.shiftr w 8 mod 256; w mod 256].

Definition be64 (n : N) : list N := be32 (N.shiftr n 32) ++ be32 (w32 n).

Definition pad (msg : list N) : list N :=
  let l := N.of_nat (length msg) in
  msg ++ [128] ++ repeat 0 (N.to_nat ((119 - l mod 64) mod 64)) ++ be64 (8 * l).

Fixpoint words (l : list N) : list N :=
  match l with
  | a :: b :: c :: d :: r =>
      (N.shiftl a 24 + N.shiftl b 16 + N.shiftl c 8 + d) :: words r
  | _ => []
  end.

(** The schedule is kept newest word first while it is extended. *)
Fixpoint extend (n : nat) (w : list N) : list N :=
  match n with
  | O => w
  | S n' =>
      extend n'
        (add32 (add32 (ssig1 (nth 1 w 0)) (nth 6 w 0))
               (add32 (ssig0 (nth 14 w 0)) (nth 15 w 0)) :: w)
  end.

Definition schedule (block : list N) : list N := rev (extend 48 (rev (words block))).

Definition round (st : registers) (kw : N * N) : registers :=
  let '(a, b, c, d, e, f, g, h) := st in
  let t1 := add32 (add32 (add32 h (bsig1 e)) (add32 (Ch e f g) (fst kw))) (snd kw) in
  let t2 := add32 (bsig0 a) (Maj a b c) in
  (add32 t1 t2, a, b, c, add32 d t1, e, f, g).

Definition compress (st : registers) (block : list N) : registers :=
  let '(a, b, c, d, e, f, g, h) := st in
  let '(a', b', c', d', e', f', g', h') :=
    fold_left round (combine K (schedule block)) st in
  (add32 a a', add32 b b', add32 c c', add32 d d',
   add32 e e', add32 f f', add32 g g', add32 h h').

Fixpoint blocks (fuel : nat) (l : list N) : list (list N) :=
  match fuel with
  | O => []
  | S f =>
      match l with
      | [] => []
      | _ :: _ => firstn 64 l :: blocks f (skipn 64 l)
      end
  end.

Definition digest (msg : list N) : list N :=
  let p := pad msg in
  let '(a, b, c, d, e, f, g, h) := fold_left compress (blocks (length p) p) H0 in
  be32 a ++ be32 b ++ be32 c ++ be32 d ++ be32 e ++ be32 f ++ be32 g ++ be32 h.

(** HMAC (RFC 2104) with SHA-256, block size 64. *)
Definition hmac (key msg : list N) : list N :=
  let k0 := if (64 <? length key)%nat then digest key else key in
  let k := k0 ++ repeat 0 (64 - length k0)%nat in
  digest (List.map (N.lxor 92) k ++ digest (List.map (N.lxor 54) k ++ msg)).

End SHA256.

(** ** Hex text of bytes:
    [Array.from(bytes).map((b) => b.toString(16).padStart(2, "0")).join("")] *)

(** [b.toString(16)] for an element of a [Uint8Array] (b < 256). *)
Definition toString16 (b : N) : jsstring :=
  if b <? 16 then [hexDigit b] else [hexDigit (b / 16); hexDigit (b mod 16)].

(** [s.padStart(2, "0")] *)
Definition padStart2 (s : jsstring) : jsstring :=
  match s with
  | [] => [48; 48]
  | [c] => [48; c]
  | _ => s
  end.

Definition hexOfBytes (bytes : list N) : jsstring :=
  join (List.map (fun b => padStart2 (toString16 b)) bytes).

(** [crypto.subtle.digest("SHA-256", new TextEncoder().encode(s))] as hex. *)
Definition sha256Hex (s : jsstring) : jsstring :=
  hexOfBytes (SHA256.digest (TextEncoder_encode s)).

(** ** [JSON.parse] (ECMA-404 grammar) *)

#[warnings="-register-all"]
Inductive json : Type :=
| JNull
| JBool (b : bool)
| JNumber (lexeme : jsstring)
| JString (s : jsstring)
| JArray (items : list json)
| JObject (members : list (jsstring * json)).

Inductive presult (A : Type) : Type :=
| POk (a : A) (rest : jsstring)
| PSyntax
| PFuel.
Arguments POk {A} a rest.
Arguments PSyntax {A}.
Arguments PFuel {A}.

Definition isJsonWs (c : N) : bool :=
  (c =? 9) || (c =? 10) || (c =? 13) || (c =? 32).

Fixpoint skipWs (s : jsstring) : jsstring :=
  match s with
  | [] => []
  | c :: r => if isJsonWs c then skipWs r else s
  end.

Definition isDigit (c : N) : bool := (48 <=? c) && (c <=? 57).

Definition hexVal (c : N) : option N :=
  if isDigit c then Some (c - 48)
  else if (97 <=? c) && (c <=? 102) then Some (c - 87)
  else if (65 <=? c) && (c <=? 70) then Some (c - 55)
  else None.

Definition simpleEscape (e : N) : option N :=
  if e =? 34 then Some 34
  else if e =? 92 then Some 92
  else if e =? 47 then Some 47
  else if e =? 98 then Some 8
  else if e =? 102 then Some 12
  else if e =? 110 then Some 10
  else if e =? 114 then Some 13
  else if e =? 116 then Some 9
  else None.

Definition consTo (c : N) (p : option (jsstring * jsstring)) : option (jsstring * jsstring) :=
  match p with
  | Some (str, rest) => Some (c :: str, rest)
  | None => None
  end.

(** The characters of a string token after its opening quote, up to and
    including the closing quote. *)
Fixpoint parseChars (s : jsstring) : option (jsstring * jsstring) :=
  match s with
  | [] => None
  | c :: r =>
      if c =? 34 then Some ([], r)
      else if c =? 92 then
        match r with
        | [] => None
        | e :: r1 =>
            if e =? 117 then
              match r1 with
              | h1 :: h2 :: h3 :: h4 :: r2 =>
                  match hexVal h1, hexVal h2, hexVal h3, hexVal h4 with
                  | Some a, Some b, Some c', Some d =>
                      consTo (4096 * a + 256 * b + 16 * c' + d) (parseChars r2)
                  | _, _, _, _ => None
                  end
              | _ => None
              end
            else
              match simpleEscape e with
              | Some x => consTo x (parseChars r1)
              | None => None
              end
        end
      else if c <? 32 then None
      else consTo c (parseChars r)
  end.

Fixpoint spanDigits (s : jsstring) : jsstring * jsstring :=
  match s with
  | [] => ([], [])
  | c :: r =>
      if isDigit c then let '(ds, rest) := spanDigits r in (c :: ds, rest)
      else ([], s)
  end.

(** A number token: an optional minus sign, then either a single zero or
    a non-zero digit followed by digits, then an optional fraction (a dot
    and at least one digit), then an optional exponent (e or E, an optional
    sign, at least one digit).  The token text is kept; its numeric value
    is never inspected. *)
Definition parseNumber (s : jsstring) : option (jsstring * jsstring) :=
  let '(sign, s1) :=
    match s with
    | c :: r => if c =? 45 then ([45], r) else ([], s)
    | [] => ([], s)
    end in
  let int :=
    match s1 with
    | [] => None
    | c :: r =>
        if c =? 48 then Some ([48], r)
        else if isDigit c then Some (spanDigits s1)
        else None
    end in
  match int with
  | None => None
  | Some (ip, s2) =>
      let frac :=
        match s2 with
        | c :: r =>
            if c =? 46 then
              match spanDigits r with
              | ([], _) => None
              | (ds, r') => Some (46 :: ds, r')
              end
            else Some ([], s2)
        | [] => Some ([], s2)
        end in
      match frac with
      | None => None
      | Some (fp, s3) =>
          let ex :=
            match s3 with
            | c :: r =>
                if (c =? 101) || (c =? 69) then
                  let '(sg, r0) :=
                    match r with
                    | x :: r' => if (x =? 43) || (x =? 45) then ([x], r') else ([], r)
                    | [] => ([], r)
                    end in
                  match spanDigits r0 with
                  | ([], _) => None
                  | (ds, r') => Some (c :: sg ++ ds, r')
                  end
                else Some ([], s3)
            | [] => Some ([], s3)
            end in
          match ex with
          | None => None
          | Some (ep, s4) => Some (sign ++ ip ++ fp ++ ep, s4)
          end
      end
  end.

Definition parseLiteral (s : jsstring) : option (json * jsstring) :=
  if startsWith s (lit "true") then Some (JBool true, skipn 4 s)
  else if startsWith s (lit "false") then Some (JBool false, skipn 5 s)
  else if startsWith s (lit "null") then Some (JNull, skipn 4 s)
  else None.

Fixpoint parseValue (fuel : nat) (s : jsstring) {struct fuel} : presult json :=
  match fuel with
  | O => PFuel
  | S f =>
      match skipWs s with
      | [] => PSyntax
      | c :: r =>
          if c =? 34 then
            match parseChars r with
            | Some (str, r') => POk (JString str) r'
            | None => PSyntax
            end
          else if c =? 91 then
            match skipWs r with
            | [] => PSyntax
            | c1 :: r1 => if c1 =? 93 then POk (JArray []) r1 else parseElements f r []
            end
          else if c =? 123 then
            match skipWs r with
            | [] => PSyntax
            | c1 :: r1 => if c1 =? 125 then POk (JObject []) r1 else parseMembers f r []
            end
          else if (c =? 45) || isDigit c then
            match parseNumber (c :: r) with
            | Some (lx, r') => POk (JNumber lx) r'
            | None => PSyntax
            end
          else
            match parseLiteral (c :: r) with
            | Some (v, r') => POk v r'
            | None => PSyntax
            end
      end
  end
with parseElements (fuel : nat) (s : jsstring) (acc : list json) {struct fuel}
  : presult json :=
  match fuel with
  | O => PFuel
  | S f =>
      match parseValue f s with
      | POk v r1 =>
          match skipWs r1 with
          | [] => PSyntax
          | c :: r2 =>
              if c =? 44 then parseElements f r2 (v :: acc)
              else if c =? 93 then POk (JArray (rev (v :: acc))) r2
              else PSyntax
          end
      | PSyntax => PSyntax
      | PFuel => PFuel
      end
  end
with parseMembers (fuel : nat) (s : jsstring) (acc : list (jsstring * json)) {struct fuel}
  : presult json :=
  match fuel with
  | O => PFuel
  | S f =>
      match skipWs s with
      | [] => PSyntax
      | q :: r0 =>
          if q =? 34 then
            match parseChars r0 with
            | None => PSyntax
            | Some (key, r1) =>
                match skipWs r1 with
                | [] => PSyntax
                | c :: r2 =>
                    if c =? 58 then
                      match parseValue f r2 with
                      | POk v r3 =>
                          match skipWs r3 with
                          | [] => PSyntax
                          | c' :: r4 =>
                              if c' =? 44 then parseMembers f r4 ((key, v) :: acc)
                              else if c' =? 125 then POk (JObject (rev ((key, v) :: acc))) r4
                              else PSyntax
                          end
                      | PSyntax => PSyntax
                      | PFuel => PFuel
                      end
                    else PSyntax
                end
            end
          else PSyntax
      end
  end.

Definition parseFuel (s : jsstring) : nat := (2 * length s + 2)%nat.

Definition JSON_parse (s : jsstring) : result json :=
  match parseValue (parseFuel s) s with
  | POk v rest =>
      match skipWs rest with
      | [] => Return v
      | _ :: _ => Throw SyntaxError
      end
  | PSyntax => Throw SyntaxError
  | PFuel => Throw SyntaxError
  end.

(** [JSON.stringify] at type [string[]]. *)
Fixpoint joinComma (l : list jsstring) : jsstring :=
  match l with
  | [] => []
  | [x] => x
  | x :: r => x ++ [44] ++ joinComma r
  end.

Definition JSON_stringify_strings (l : list jsstring) : jsstring :=
  [91] ++ joinComma (List.map QuoteJSONString l) ++ [93].

(** ** The key-value namespace *)

Record KVEntry : Type := { kv_value : jsstring; kv_expirationTtl : N }.

Abbreviation KV := (gmap jsstring KVEntry).

Definition KV_get (kv : KV) (key : jsstring) : option jsstring :=
  kv_value <$> kv !! key.

Definition KV_put (kv : KV) (key value : jsstring) (ttl : N) : KV :=
  <[key := {| kv_value := value; kv_expirationTtl := ttl |}]> kv.

Definition KV_delete (kv : KV) (key : jsstring) : KV := delete key kv.

(** ** One-time OAuth state and its session binding *)

Definition stateKey (stateToken : jsstring) : jsstring :=
  lit "oauth:state:" ++ stateToken.

(** [uuid] is the value [crypto.randomUUID()] returns on this call and
    [serialized] the text [JSON.stringify(oauthReqInfo)]. *)
Definition createOAuthState (uuid serialized : jsstring) (kv : KV) (stateTTL : N)
  : jsstring * KV :=
  let stateToken := uuid in
  (stateToken, KV_put kv (stateKey stateToken) serialized stateTTL).

(** [bindStateToSession]: the emitted [Set-Cookie] directive. *)
Definition bindStateToSession (stateToken : jsstring) : jsstring :=
  let hashHex := sha256Hex stateToken in
  lit "__Host-CONSENTED_STATE=" ++ hashHex
    ++ lit "; HttpOnly; Secure; Path=/; SameSite=Lax; Max-Age=600".

Record ValidateStateResult : Type := {
  oauthReqInfo : json;
  state_clearCookie : jsstring
}.

(** [validateOAuthState], threading the namespace: the second component
    is the namespace after the call. *)
Definition validateOAuthState (request : Request) (kv : KV)
  : result ValidateStateResult * KV :=
  let consentedStateCookieName := lit "__Host-CONSENTED_STATE" in
  match present (searchParams_get (lit "state") request) with
  | None =>
      (Throw (OAuthError (lit "invalid_request") (lit "Missing state parameter") 400), kv)
  | Some stateFromQuery =>
      match present (KV_get kv (stateKey stateFromQuery)) with
      | None =>
          (Throw (OAuthError (lit "invalid_request") (lit "Invalid or expired state") 400), kv)
      | Some storedDataJson =>
          let cookieHeader := default [] (cookieHeader request) in
          let cookies := cookiesOf cookieHeader in
          let consentedStateCookie :=
            find (fun c => startsWith c (consentedStateCookieName ++ lit "=")) cookies in
          let consentedStateHash :=
            match present consentedStateCookie with
            | Some c => Some (substring c (length consentedStateCookieName + 1))
            | None => None
            end in
          match present consentedStateHash with
          | None =>
              (Throw (OAuthError (lit "invalid_request")
                 (lit "Missing session binding cookie - authorization flow must be restarted")
                 400), kv)
          | Some consentedStateHash =>
              let stateHash := sha256Hex stateFromQuery in
              if negb (jsstring_eqb stateHash consentedStateHash) then
                (Throw (OAuthError (lit "invalid_request")
                   (lit "State token does not match session - possible CSRF attack detected")
                   400), kv)
              else
                match JSON_parse storedDataJson with
                | Throw _ =>
                    (Throw (OAuthError (lit "server_error") (lit "Invalid state data") 500), kv)
                | Return oauthReqInfo =>
                    let kv' := KV_delete kv (stateKey stateFromQuery) in
                    let clearCookie :=
                      consentedStateCookieName
                        ++ lit "=; HttpOnly; Secure; Path=/; SameSite=Lax; Max-Age=0" in
                    (Return {| oauthReqInfo := oauthReqInfo;
                               state_clearCookie := clearCookie |}, kv')
                end
          end
      end
  end.

(** ** Signing and verification *)

Definition isLineTerminator (c : N) : bool :=
  (c =? 10) || (c =? 13) || (c =? 8232) || (c =? 8233).

(** The matches of [s.match(/.{1,2}/g)]; the empty list stands for [null]. *)
Fixpoint matchPairs (s : jsstring) : list jsstring :=
  match s with
  | [] => []
  | a :: r =>
      if isLineTerminator a then matchPairs r
      else
        match r with
        | [] => [[a]]
        | b :: r' =>
            if isLineTerminator b then [a] :: matchPairs r'
            else [a; b] :: matchPairs r'
        end
  end.

Fixpoint hexPrefix (s : jsstring) : list N :=
  match s with
  | [] => []
  | c :: r =>
      match hexVal c with
      | Some v => v :: hexPrefix r
      | None => []
      end
  end.

(** [Number.parseInt(s, 16)]; [None] is NaN. *)
Definition parseInt16 (s : jsstring) : option Z :=
  let s1 := trimStart s in
  let '(negative, s2) :=
    match s1 with
    | c :: r => if c =? 45 then (true, r) else if c =? 43 then (false, r) else (false, s1)
    | [] => (false, s1)
    end in
  let s3 :=
    match s2 with
    | a :: b :: r => if (a =? 48) && ((b =? 120) || (b =? 88)) then r else s2
    | _ => s2
    end in
  match hexPrefix s3 with
  | [] => None
  | ds =>
      let mathInt := Z.of_N (fold_left (fun acc d => 16 * acc + d) ds 0) in
      Some (if negative then (- mathInt)%Z else mathInt)
  end.

(** Storing a Number into a [Uint8Array] element. *)
Definition toUint8 (v : option Z) : N :=
  match v with
  | None => 0
  | Some z => Z.to_N (z mod 256)
  end.

(** [crypto.subtle.importKey("raw", enc.encode(secret), HMAC/SHA-256, ...)]:
    the Web Crypto specification rejects key data of length zero. *)
Definition importKey (secret : jsstring) : result (list N) :=
  match TextEncoder_encode secret with
  | [] => Throw (DOMException (lit "DataError"))
  | raw => Return raw
  end.

(** [signData]: the HMAC tag of the UTF-8 bytes of [data], as lower-case
    hex. *)
Definition signData (data secret : jsstring) : result jsstring :=
  let! key := importKey secret in
  let buf := SHA256.hmac key (TextEncoder_encode data) in
  Return (hexOfBytes buf).

(** [crypto.subtle.verify("HMAC", key, sig, data)] *)
Definition subtle_verify (key sig data : list N) : bool :=
  bool_decide (SHA256.hmac key data = sig).

(** [verifySignature]: the key is imported outside the [try]; inside it,
    a [null] match makes [.map] throw a [TypeError], which the [catch]
    turns into [false]. *)
Definition verifySignature (signatureHex data secret : jsstring) : result bool :=
  let! key := importKey secret in
  catch
    (let! sigBytes :=
       match matchPairs signatureHex with
       | [] => Throw TypeError
       | ms => Return (List.map (fun byte => toUint8 (parseInt16 byte)) ms)
       end in
     Return (subtle_verify key sigBytes (TextEncoder_encode data)))
    (fun _ => Return false).

(** ** [btoa] and [atob] (forgiving base64) *)

Definition InvalidCharacterError : Exn := DOMException (lit "InvalidCharacterError").

Definition b64char (v : N) : N :=
  if v <? 26 then 65 + v
  else if v <? 52 then 71 + v
  else if v <? 62 then v - 4
  else if v =? 62 then 43
  else 47.

Definition b64val (c : N) : option N :=
  if (65 <=? c) && (c <=? 90) then Some (c - 65)
  else if (97 <=? c) && (c <=? 122) then Some (c - 71)
  else if (48 <=? c) && (c <=? 57) then Some (c + 4)
  else if c =? 43 then Some 62
  else if c =? 47 then Some 63
  else None.

Fixpoint encodeOctets (l : list N) : jsstring :=
  match l with
  | a :: b :: c :: r =>
      b64char (a / 4) :: b64char (a mod 4 * 16 + b / 16)
        :: b64char (b mod 16 * 4 + c / 64) :: b64char (c mod 64) :: encodeOctets r
  | [a; b] =>
      [b64char (a / 4); b64char (a mod 4 * 16 + b / 16); b64char (b mod 16 * 4); 61]
  | [a] => [b64char (a / 4); b64char (a mod 4 * 16); 61; 61]
  | [] => []
  end.

Definition btoa (s : jsstring) : result jsstring :=
  if forallb (fun c => c <? 256) s then Return (encodeOctets s)
  else Throw InvalidCharacterError.

Definition isAsciiWhitespace (c : N) : bool :=
  (c =? 9) || (c =? 10) || (c =? 12) || (c =? 13) || (c =? 32).

(** Drops one or two trailing [=] when the length is a multiple of four. *)
Definition stripPadding (s : jsstring) : jsstring :=
  if (length s mod 4 =? 0)%nat then
    match rev s with
    | a :: r =>
        if a =? 61 then
          match r with
          | b :: r' => if b =? 61 then rev r' else rev r
          | [] => rev r
          end
        else s
    | [] => s
    end
  else s.

Fixpoint sextets (s : jsstring) : option (list N) :=
  match s with
  | [] => Some []
  | c :: r =>
      match b64val c, sextets r with
      | Some v, Some vs => Some (v :: vs)
      | _, _ => None
      end
  end.

Fixpoint decodeSextets (l : list N) : list N :=
  match l with
  | a :: b :: c :: d :: r =>
      (a * 4 + b / 16) :: (b mod 16 * 16 + c / 4) :: (c mod 4 * 64 + d) :: decodeSextets r
  | [a; b; c] => [a * 4 + b / 16; b mod 16 * 16 + c / 4]
  | [a; b] => [a * 4 + b / 16]
  | _ => []
  end.

Definition atob (s : jsstring) : result jsstring :=
  let data := stripPadding (List.filter (fun c => negb (isAsciiWhitespace c)) s) in
  if (length data mod 4 =? 1)%nat then Throw InvalidCharacterError
  else
    match sextets data with
    | None => Throw InvalidCharacterError
    | Some vs => Return (decodeSextets vs)
    end.

(** ** The approved-clients cookie *)

Fixpoint stringItems (items : list json) : option (list jsstring) :=
  match items with
  | [] => Some []
  | JString s :: r =>
      match stringItems r with
      | Some l => Some (s :: l)
      | None => None
      end
  | _ :: _ => None
  end.

(** [getApprovedClientsFromCookie]: [None] is [null].  [atob] and
    [verifySignature] are called outside the [try] block, which encloses
    only [JSON.parse] and the check of the parsed value. *)
Definition getApprovedClientsFromCookie (request : Request) (cookieSecret : jsstring)
  : result (option (list jsstring)) :=
  match present (cookieHeader request) with
  | None => Return None
  | Some cookieHeader =>
      let cookies := cookiesOf cookieHeader in
      match present (find (fun c => startsWith c (lit "__Host-APPROVED_CLIENTS=")) cookies) with
      | None => Return None
      | Some targetCookie =>
          let cookieValue :=
            substring targetCookie (length (lit "__Host-APPROVED_CLIENTS=")) in
          match split 46 cookieValue with
          | [signatureHex; base64Payload] =>
              let! payload := atob base64Payload in
              let! isValid := verifySignature signatureHex payload cookieSecret in
              if negb isValid then Return None
              else
                catch
                  (let! approvedClients := JSON_parse payload in
                   match approvedClients with
                   | JArray items => Return (stringItems items)
                   | _ => Return None
                   end)
                  (fun _ => Return None)
          | _ => Return None
          end
      end
  end.

(** [arr.includes(x)] on strings *)
Definition includes (l : list jsstring) (x : jsstring) : bool :=
  existsb (jsstring_eqb x) l.

Definition isClientApproved (request : Request) (clientId cookieSecret : jsstring)
  : result bool :=
  let! approvedClients := getApprovedClientsFromCookie request cookieSecret in
  Return match approvedClients with
         | Some l => includes l clientId
         | None => false
         end.

(** [set.add(x)] on the insertion-ordered elements of a [Set]. *)
Definition addOnce (acc : list jsstring) (x : jsstring) : list jsstring :=
  if includes acc x then acc else acc ++ [x].

(** [Array.from(new Set(l))]: a value is kept at its first occurrence. *)
Definition uniqueInOrder (l : list jsstring) : list jsstring :=
  fold_left addOnce l [].

(** [addApprovedClient]: the emitted [Set-Cookie] directive. *)
Definition addApprovedClient (request : Request) (clientId cookieSecret : jsstring)
  : result jsstring :=
  let! approved := getApprovedClientsFromCookie request cookieSecret in
  let existing := default [] approved in
  let updated := uniqueInOrder (existing ++ [clientId]) in
  let payload := JSON_stringify_strings updated in
  let! signature := signData payload cookieSecret in
  let! encoded := btoa payload in
  Return (lit "__Host-APPROVED_CLIENTS=" ++ signature ++ lit "." ++ encoded
          ++ lit "; HttpOnly; Secure; Path=/; SameSite=Lax; Max-Age=2592000").

(** ** [getNotionAuthorizeUrl] *)

Definition isUrlencodedSafe (b : N) : bool :=
  isDigit b || ((65 <=? b) && (b <=? 90)) || ((97 <=? b) && (b <=? 122))
  || (b =? 42) || (b =? 45) || (b =? 46) || (b =? 95).

Definition upperHexDigit (v : N) : N := if v <? 10 then 48 + v else 55 + v.

(** The [application/x-www-form-urlencoded] serializer of [URLSearchParams]. *)
Definition urlencode (s : jsstring) : jsstring :=
  join (List.map
          (fun b => if isUrlencodedSafe b then [b]
                    else if b =? 32 then [43]
                    else [37; upperHexDigit (b / 16); upperHexDigit (b mod 16)])
          (TextEncoder_encode s)).

Definition getNotionAuthorizeUrl (clientId redirectUri : jsstring) (state : option jsstring)
  : jsstring :=
  lit "https://api.notion.com/v1/oauth/authorize"
    ++ lit "?client_id=" ++ urlencode clientId
    ++ lit "&redirect_uri=" ++ urlencode redirectUri
    ++ lit "&response_type=code"
    ++ lit "&owner=user"
    ++ match present state with
       | Some st => lit "&state=" ++ urlencode st
       | None => []
       end.

(** ** The consent submission handler, [app.post("/authorize")] *)

Record Env : Type := {
  COOKIE_ENCRYPTION_KEY : jsstring;
  NOTION_OAUTH_CLIENT_ID : jsstring
}.

(** Hono's [c.text(text, status)]; the handler calls it with the
    statuses 400 and 500 only, which the [Response] constructor accepts. *)
Definition c_text (text : jsstring) (st : N) : Response :=
  {| status := st;
     headers := [(lit "Content-Type", lit "text/plain; charset=UTF-8")];
     body := Some text |}.

(** Own property [name] of a parsed JSON value; [None] is [undefined]. *)
Definition getProp (v : json) (name : jsstring) : option json :=
  match v with
  | JObject members => assoc_get name (rev members)
  | _ => None
  end.

(** How [state.oauthReqInfo?.clientId] evaluates: [NoClientId] when the
    value is falsy, otherwise the two values the handler goes on with.  The
    handler tests the client id for truthiness only, so it may be any
    parsed value. *)
Inductive ClientIdView : Type :=
| NoClientId
| ClientId (oauthReqInfo clientId : json).

Section Handler.

(** Platform behaviour the handler relies on and that is left open: the
    text [JSON.stringify] writes for an arbitrary parsed value, the
    [message] of a platform exception, the entries a [Headers] object
    yields to [Object.fromEntries], and whether the Number that a number
    token of a JSON text denotes is zero. *)
Variable JSON_stringify : json -> jsstring.
Variable Error_message : Exn -> jsstring.
Variable Object_fromEntries : list (jsstring * jsstring) -> list (jsstring * jsstring).
Variable Number_isZero : jsstring -> bool.

(** [ToBoolean] of a parsed JSON value. *)
Definition truthyValue (v : json) : bool :=
  match v with
  | JNull => false
  | JBool b => b
  | JNumber lexeme => negb (Number_isZero lexeme)
  | JString s => truthy s
  | JArray _ => true
  | JObject _ => true
  end.

Definition readClientId (state : json) : result ClientIdView :=
  match state with
  | JNull => Throw TypeError
  | _ =>
      match getProp state (lit "oauthReqInfo") with
      | None => Return NoClientId
      | Some JNull => Return NoClientId
      | Some info =>
          match getProp info (lit "clientId") with
          | None => Return NoClientId
          | Some clientId =>
              Return (if truthyValue clientId then ClientId info clientId else NoClientId)
          end
      end
  end.

(** [addApprovedClient] as the handler calls it, with the parsed client
    id.  For a string this is [addApprovedClient]; a value of another type
    is equal to none of the strings of the cookie, so the [Set] keeps it as
    its last element. *)
Definition addApprovedClientValue (request : Request) (clientId : json)
    (cookieSecret : jsstring) : result jsstring :=
  match clientId with
  | JString c => addApprovedClient request c cookieSecret
  | _ =>
      let! approved := getApprovedClientsFromCookie request cookieSecret in
      let existing := default [] approved in
      let updated := List.map JString (uniqueInOrder existing) ++ [clientId] in
      let payload := JSON_stringify (JArray updated) in
      let! signature := signData payload cookieSecret in
      let! encoded := btoa payload in
      Return (lit "__Host-APPROVED_CLIENTS=" ++ signature ++ lit "." ++ encoded
              ++ lit "; HttpOnly; Secure; Path=/; SameSite=Lax; Max-Age=2592000")
  end.

Definition redirectToNotion (env : Env) (request : Request) (stateToken : jsstring)
    (extraHeaders : list (jsstring * jsstring)) : Response :=
  {| status := 302;
     headers := extraHeaders ++
       [(lit "Location",
         getNotionAuthorizeUrl (NOTION_OAUTH_CLIENT_ID env)
           (origin request ++ lit "/callback") (Some stateToken))];
     body := None |}.

(** The body of the handler's [try] block, threading the namespace.
    [form] is the outcome of [c.req.raw.formData()], [uuid] the value the
    next [crypto.randomUUID()] returns. *)
Definition postAuthorizeBody (env : Env) (uuid : jsstring) (form : result FormData)
    (request : Request) (kv : KV) : result Response * KV :=
  match form with
  | Throw e => (Throw e, kv)
  | Return formData =>
      match validateCSRFToken formData request with
      | Throw e => (Throw e, kv)
      | Return _ =>
          let encodedState :=
            match FormData_get (lit "state") formData with
            | Some (FormString t) => present (Some t)
            | _ => None
            end in
          match encodedState with
          | None => (Return (c_text (lit "Missing state") 400), kv)
          | Some encodedState =>
              match (let! decoded := atob encodedState in JSON_parse decoded) with
              | Throw _ => (Return (c_text (lit "Invalid state data") 400), kv)
              | Return state =>
                  match readClientId state with
                  | Throw e => (Throw e, kv)
                  | Return NoClientId =>
                      (Return (c_text (lit "Invalid request") 400), kv)
                  | Return (ClientId info clientId) =>
                      match addApprovedClientValue request clientId
                              (COOKIE_ENCRYPTION_KEY env) with
                      | Throw e => (Throw e, kv)
                      | Return approvedCookie =>
                          let '(stateToken, kv') :=
                            createOAuthState uuid (JSON_stringify info) kv 600 in
                          let sessionCookie := bindStateToSession stateToken in
                          let headers :=
                            [(lit "Set-Cookie", approvedCookie);
                             (lit "Set-Cookie", sessionCookie)] in
                          (Return (redirectToNotion env request stateToken
                                     (Object_fromEntries headers)), kv')
                      end
                  end
              end
          end
      end
  end.

(** The handler with its [catch] block: an [OAuthError] is answered by
    its [toResponse], whose own exception is not caught; any other
    exception by the 500 text. *)
Definition postAuthorize (env : Env) (uuid : jsstring) (form : result FormData)
    (request : Request) (kv : KV) : result Response * KV :=
  match postAuthorizeBody env uuid form request kv with
  | (Return r, kv') => (Return r, kv')
  | (Throw (OAuthError code description statusCode), kv') =>
      (toResponse code description statusCode, kv')
  | (Throw e, kv') =>
      (Return (c_text (lit "Internal server error: " ++ Error_message e) 500), kv')
  end.

End Handler.

(** ** Vocabulary of the statements *)

(** The string value of form field [name], if the field is a string. *)
Definition formField (name : jsstring) (fd : FormData) : option jsstring :=
  match FormData_get name fd with
  | Some (FormString t) => Some t
  | _ => None
  end.

(** The value of cookie [name] as the functions above read it from the
    [Cookie] header: the first [;]-separated, trimmed entry that starts
    with [name=], without that prefix. *)
Definition requestCookie (name : jsstring) (request : Request) : option jsstring :=
  match find (fun c => startsWith c (name ++ lit "="))
             (cookiesOf (default [] (cookieHeader request))) with
  | Some c => Some (substring c (length name + 1))
  | None => None
  end.

(** The five errors [validateOAuthState] raises, by the names the
    specification gives them. *)
Definition MissingState : Exn :=
  OAuthError (lit "invalid_request") (lit "Missing state parameter") 400.
Definition InvalidOrExpiredState : Exn :=
  OAuthError (lit "invalid_request") (lit "Invalid or expired state") 400.
Definition MissingBinding : Exn :=
  OAuthError (lit "invalid_request")
    (lit "Missing session binding cookie - authorization flow must be restarted") 400.
Definition BindingMismatch : Exn :=
  OAuthError (lit "invalid_request")
    (lit "State token does not match session - possible CSRF attack detected") 400.
Definition InvalidStateData : Exn :=
  OAuthError (lit "server_error") (lit "Invalid state data") 500.

Definition clearConsentedState : jsstring :=
  lit "__Host-CONSENTED_STATE=; HttpOnly; Secure; Path=/; SameSite=Lax; Max-Age=0".

(** The bytes [verifySignature] hands to [crypto.subtle.verify]:
    [signatureHex.match(/.{1,2}/g).map((byte) => Number.parseInt(byte, 16))]
    stored in a [Uint8Array]. *)
Definition signatureBytes (signatureHex : jsstring) : list N :=
  List.map (fun byte => toUint8 (parseInt16 byte)) (matchPairs signatureHex).

(** The HMAC tag of [data] under [secret]. *)
Definition tag (data secret : jsstring) : list N :=
  SHA256.hmac (TextEncoder_encode secret) (TextEncoder_encode data).

(** The base64 text of octets without its padding. *)
Fixpoint encodeUnpadded (l : list N) : jsstring :=
  match l with
  | a :: b :: c :: r =>
      b64char (a / 4) :: b64char (a mod 4 * 16 + b / 16)
        :: b64char (b mod 16 * 4 + c / 64) :: b64char (c mod 64) :: encodeUnpadded r
  | [a; b] => [b64char (a / 4); b64char (a mod 4 * 16 + b / 16); b64char (b mod 16 * 4)]
  | [a] => [b64char (a / 4); b64char (a mod 4 * 16)]
  | [] => []
  end.

Definition isBase64Char (c : N) : bool :=
  match b64val c with Some _ => true | None => false end.

(** A parser outcome that did not run out of fuel and, if it is a value,
    consumed some input. *)
Definition fuelOk (p : presult json) (s : jsstring) : Prop :=
  p <> PFuel /\ forall v r, p = POk v r -> (length r < length s)%nat.

(** The characters [toString(16)] writes. *)
Definition isLowerHex (c : N) : bool :=
  ((48 <=? c) && (c <=? 57)) || ((97 <=? c) && (c <=? 102)).

(** The [name=value] pair a user agent returns for a [Set-Cookie]
    directive: the text before the first [;]. *)
Definition cookiePair (setCookie : jsstring) : jsstring :=
  hd [] (split 59 setCookie).

(** A request that carries nothing but the given [Cookie] header and
    query parameters. *)
Definition requestWith (query : list (jsstring * jsstring)) (cookie : option jsstring)
  : Request :=
  {| origin := lit "https://mcp.example"; searchParams := query; cookieHeader := cookie |}.

(** ** Further functions of the sources *)

(** [s.replace(/c/g, by)] for a pattern of one literal character and a
    replacement text without [$]. *)
Definition replaceAll (c : N) (by_ : jsstring) (s : jsstring) : jsstring :=
  flat_map (fun x => if x =? c then by_ else [x]) s.

(** [sanitizeText] of [workers-oauth-utils.ts]: five replacements, one
    after the other, the ampersand first. *)
Definition sanitizeText (text : jsstring) : jsstring :=
  replaceAll 39 (lit "&#039;")
    (replaceAll 34 (lit "&quot;")
       (replaceAll 62 (lit "&gt;")
          (replaceAll 60 (lit "&lt;")
             (replaceAll 38 (lit "&amp;") text)))).

(** What [sanitizeText] writes for one code unit. *)
Definition escapeUnit (c : N) : jsstring :=
  if c =? 38 then lit "&amp;"
  else if c =? 60 then lit "&lt;"
  else if c =? 62 then lit "&gt;"
  else if c =? 34 then lit "&quot;"
  else if c =? 39 then lit "&#039;"
  else [c].

Definition isHtmlSpecial (c : N) : bool :=
  (c =? 38) || (c =? 60) || (c =? 62) || (c =? 34) || (c =? 39).

(** A piece of sanitized text: one of the five entity references or one
    character that is none of the five. *)
Definition isSanitizedPiece (t : jsstring) : Prop :=
  In t [lit "&amp;"; lit "&lt;"; lit "&gt;"; lit "&quot;"; lit "&#039;"]
  \/ exists c, t = [c] /\ isHtmlSpecial c = false.

(** The test of the loop in [sanitizeUrl]:
    [(code >= 0x00 && code <= 0x1f) || (code >= 0x7f && code <= 0x9f)]. *)
Definition isControlCode (code : N) : bool :=
  ((0 <=? code) && (code <=? 31)) || ((127 <=? code) && (code <=? 159)).

(** [s.toLowerCase()] on the ASCII letters; the protocol of a parsed URL
    holds ASCII characters only. *)
Definition toLowerCase (s : jsstring) : jsstring :=
  List.map (fun c => if (65 <=? c) && (c <=? 90) then c + 32 else c) s.

Section SanitizeUrl.

(** [new URL(s).protocol]; [None] when the constructor throws. *)
Variable URL_protocol : jsstring -> option jsstring.

(** [sanitizeUrl] of [workers-oauth-utils.ts]. *)
Definition sanitizeUrl (url : jsstring) : jsstring :=
  let normalized := trim url in
  if (length normalized =? 0)%nat then []
  else if existsb isControlCode normalized then []
  else
    match URL_protocol normalized with
    | None => []
    | Some protocol =>
        let scheme := toLowerCase (removelast protocol) in
        if includes [lit "https"; lit "http"] scheme then normalized else []
    end.

End SanitizeUrl.

(** [generateCSRFProtection]; [uuid] is the value [crypto.randomUUID()]
    returns on this call. *)
Record CSRFProtectionResult : Type := { csrf_token : jsstring; csrf_setCookie : jsstring }.

Definition generateCSRFProtection (uuid : jsstring) : CSRFProtectionResult :=
  let token := uuid in
  {| csrf_token := token;
     csrf_setCookie :=
       lit "__Host-CSRF_TOKEN=" ++ token
         ++ lit "; HttpOnly; Secure; Path=/; SameSite=Lax; Max-Age=600" |}.

(** [normalizeId] of [notion.ts].  The pattern is
    [(?:notion\.so|notion\.site)\/(?:.*[-/])?([a-f0-9]{32})]; the functions
    below follow the backtracking order of the matcher. *)

(** [[a-f0-9]{32}] at the start of [s]: the capture. *)
Definition hex32 (s : jsstring) : option jsstring :=
  if (32 <=? length s)%nat && forallb isLowerHex (firstn 32 s)
  then Some (firstn 32 s) else None.

Definition isDashOrSlash (c : N) : bool := (c =? 45) || (c =? 47).

(** [.*[-/]] followed by the capture, at the start of [u]: the greedy
    star is tried with the longest run first, so the last dash or slash of
    the line that is followed by 32 hex digits wins. *)
Fixpoint greedyGroup (u : jsstring) : option jsstring :=
  match u with
  | [] => None
  | c :: r =>
      match (if isLineTerminator c then None else greedyGroup r) with
      | Some cap => Some cap
      | None => if isDashOrSlash c then hex32 r else None
      end
  end.

(** The optional group, tried first with the group and then without. *)
Definition matchTail (u : jsstring) : option jsstring :=
  match greedyGroup u with
  | Some cap => Some cap
  | None => hex32 u
  end.

Definition matchAfterHost (t : jsstring) : option jsstring :=
  match t with
  | c :: u => if c =? 47 then matchTail u else None
  | [] => None
  end.

(** A match that starts at the first character of [s]: the first
    alternative, then the second. *)
Definition matchHere (s : jsstring) : option jsstring :=
  match (if startsWith s (lit "notion.so") then matchAfterHost (skipn 9 s) else None) with
  | Some cap => Some cap
  | None =>
      if startsWith s (lit "notion.site") then matchAfterHost (skipn 11 s) else None
  end.

(** [idOrUrl.match(...)]: the leftmost match; [None] is [null], [Some cap]
    carries [urlMatch[1]]. *)
Fixpoint urlMatch (s : jsstring) : option jsstring :=
  match s with
  | [] => None
  | _ :: r =>
      match matchHere s with
      | Some cap => Some cap
      | None => urlMatch r
      end
  end.

Definition normalizeId (idOrUrl : jsstring) : jsstring :=
  match urlMatch idOrUrl with
  | Some cap => cap
  | None => replaceAll 45 [] idOrUrl
  end.

(** The Protected Resource Metadata answer of the worker's [fetch]
    ([index.ts]); [None] stands for the request handed on to the OAuth
    provider. *)
Definition protectedResourceMetadata (origin : jsstring) : Response :=
  {| status := 200;
     headers := [(lit "Content-Type", lit "application/json");
                 (lit "Access-Control-Allow-Origin", lit "*")];
     body := Some (lit "{" ++ QuoteJSONString (lit "resource") ++ lit ":"
                   ++ QuoteJSONString (origin ++ lit "/mcp")
                   ++ lit "," ++ QuoteJSONString (lit "authorization_servers") ++ lit ":"
                   ++ JSON_stringify_strings [origin]
                   ++ lit "," ++ QuoteJSONString (lit "scopes_supported") ++ lit ":"
                   ++ JSON_stringify_strings []
                   ++ lit "}") |}.

Definition workerFetch (pathname origin : jsstring) : option Response :=
  if jsstring_eqb pathname (lit "/.well-known/oauth-protected-resource")
  then Some (protectedResourceMetadata origin)
  else None.

(* ===================================================================== *)
(** * Part II: properties                                                  *)
(* ===================================================================== *)

(** ** Strings *)

Lemma jsstring_eqb_eq (a b : jsstring) : jsstring_eqb a b = true <-> a = b.
Proof. unfold jsstring_eqb. apply bool_decide_eq_true. Qed.

Lemma jsstring_eqb_refl (a : jsstring) : jsstring_eqb a a = true.
Proof. apply jsstring_eqb_eq. reflexivity. Qed.

Lemma jsstring_eqb_neq (a b : jsstring) : jsstring_eqb a b = false <-> a <> b.
Proof. unfold jsstring_eqb. apply bool_decide_eq_false. Qed.

Lemma truthy_nonempty (s : jsstring) : truthy s = true <-> s <> [].
Proof. destruct s; simpl; split; congruence. Qed.

Lemma present_Some (o : option jsstring) (s : jsstring) :
  present o = Some s <-> o = Some s /\ s <> [].
Proof.
  destruct o as [x|]; simpl.
  - destruct x; simpl; split; intros H.
    + discriminate.
    + destruct H as [H1 H2]. congruence.
    + inversion H; subst. split; [reflexivity | discriminate].
    + destruct H as [H _]. exact H.
  - split; [discriminate | intros [H _]; discriminate].
Qed.

Lemma present_None (o : option jsstring) :
  present o = None <-> o = None \/ o = Some [].
Proof.
  destruct o as [x|]; simpl.
  - destruct x; simpl; split; intros H; auto; try discriminate.
    destruct H; discriminate.
  - split; auto.
Qed.

Lemma startsWith_nonempty (c p : jsstring) :
  p <> [] -> startsWith c p = true -> c <> [].
Proof. destruct p; [congruence |]. destruct c; simpl; [discriminate | discriminate]. Qed.

Lemma present_find_startsWith (p : jsstring) (l : list jsstring) :
  p <> [] ->
  present (find (fun c => startsWith c p) l) = find (fun c => startsWith c p) l.
Proof.
  intros Hp. destruct (find _ l) as [c|] eqn:E; [| reflexivity].
  apply find_some in E. destruct E as [_ E].
  apply (startsWith_nonempty _ _ Hp) in E. destruct c; [congruence | reflexivity].
Qed.

Lemma cookieName_eq_nonempty (name : jsstring) : name ++ lit "=" <> [].
Proof. destruct name; discriminate. Qed.

(** ** CSRF double submit *)

(** The function read through [formField] and [requestCookie]. *)
Lemma validateCSRFToken_cases (fd : FormData) (req : Request) :
  validateCSRFToken fd req =
  match present (formField (lit "csrf_token") fd) with
  | None =>
      Throw (OAuthError (lit "invalid_request") (lit "Missing CSRF token in form data") 400)
  | Some f =>
      match present (requestCookie (lit "__Host-CSRF_TOKEN") req) with
      | None =>
          Throw (OAuthError (lit "invalid_request") (lit "Missing CSRF token cookie") 400)
      | Some c =>
          if jsstring_eqb f c then
            Return {| csrf_clearCookie :=
              lit "__Host-CSRF_TOKEN=; HttpOnly; Secure; Path=/; SameSite=Lax; Max-Age=0" |}
          else Throw (OAuthError (lit "invalid_request") (lit "CSRF token mismatch") 400)
      end
  end.
Proof.
  unfold validateCSRFToken, formField, requestCookie.
  rewrite (present_find_startsWith _ _ (cookieName_eq_nonempty _)).
  destruct (FormData_get (lit "csrf_token") fd) as [[t|]|]; try reflexivity.
  destruct (present (Some t)) as [f|]; [| reflexivity].
  destruct (find _ _) as [c|]; [| reflexivity].
  destruct (present (Some (substring c _))) as [v|]; [| reflexivity].
  destruct (jsstring_eqb f v); reflexivity.
Qed.

(** C1, as stated, fails: a submission without the form token and a
    submission without the cookie are both rejected, but the response
    bodies the client receives differ, so the client can tell which half
    was missing. *)
Lemma C1_csrf_error_reveals_cause :
  let fd := [(lit "csrf_token", FormString (lit "T1"))] in
  let withCookie := requestWith [] (Some (lit "__Host-CSRF_TOKEN=T1")) in
  let withoutCookie := requestWith [] None in
  validateCSRFToken [] withCookie
    = Throw (OAuthError (lit "invalid_request") (lit "Missing CSRF token in form data") 400)
  /\ validateCSRFToken fd withoutCookie
    = Throw (OAuthError (lit "invalid_request") (lit "Missing CSRF token cookie") 400)
  /\ exists r1 r2,
       toResponse (lit "invalid_request") (lit "Missing CSRF token in form data") 400
       = Return r1
       /\ toResponse (lit "invalid_request") (lit "Missing CSRF token cookie") 400
          = Return r2
       /\ body r1 <> body r2.
Proof.
  cbv zeta. split; [vm_compute; reflexivity |].
  split; [vm_compute; reflexivity |].
  eexists. eexists. split; [vm_compute; reflexivity |].
  split; [vm_compute; reflexivity |].
  vm_compute. discriminate.
Qed.

(** With the statuses the program uses, the constructor accepts the
    response of [toResponse]. *)
Lemma toResponse_400 (code description : jsstring) :
  toResponse code description 400
  = Return {| status := 400;
              headers := [(lit "Content-Type", lit "application/json")];
              body := Some (lit "{" ++ QuoteJSONString (lit "error") ++ lit ":"
                            ++ QuoteJSONString code
                            ++ lit "," ++ QuoteJSONString (lit "error_description")
                            ++ lit ":" ++ QuoteJSONString description
                            ++ lit "}") |}.
Proof. reflexivity. Qed.

(** Every way [validateCSRFToken] fails. *)
Lemma validateCSRFToken_throws
    (fd : FormData) (req : Request) (e : Exn) :
  validateCSRFToken fd req = Throw e ->
  exists d,
    e = OAuthError (lit "invalid_request") d 400
    /\ (exists r, toResponse (lit "invalid_request") d 400 = Return r /\ status r = 400)
    /\ ((present (formField (lit "csrf_token") fd) = None
         /\ d = lit "Missing CSRF token in form data")
        \/ (present (formField (lit "csrf_token") fd) <> None
            /\ present (requestCookie (lit "__Host-CSRF_TOKEN") req) = None
            /\ d = lit "Missing CSRF token cookie")
        \/ (exists f c,
              present (formField (lit "csrf_token") fd) = Some f
              /\ present (requestCookie (lit "__Host-CSRF_TOKEN") req) = Some c
              /\ f <> c
              /\ d = lit "CSRF token mismatch")).
Proof.
  rewrite validateCSRFToken_cases.
  destruct (present (formField _ fd)) as [f|] eqn:Ef.
  - destruct (present (requestCookie _ req)) as [c|] eqn:Ec.
    + destruct (jsstring_eqb f c) eqn:E; [discriminate |].
      intros H; inversion H; subst; clear H.
      eexists; split; [reflexivity |]; split;
        [eexists; split; [apply toResponse_400 | reflexivity] |].
      right; right. exists f, c. apply jsstring_eqb_neq in E. auto.
    + intros H; inversion H; subst; clear H.
      eexists; split; [reflexivity |]; split;
        [eexists; split; [apply toResponse_400 | reflexivity] |].
      right; left. split; [discriminate | auto].
  - intros H; inversion H; subst; clear H.
    eexists; split; [reflexivity |]; split;
      [eexists; split; [apply toResponse_400 | reflexivity] |].
    left; auto.
Qed.

(** C1 (amended): every failure of [validateCSRFToken] is an [OAuthError]
    with the one code [invalid_request] and the one status 400; only the
    description varies, and it names the cause. *)
Theorem C1_csrf_failure_uniform_code_and_status
    (fd : FormData) (req : Request) (e : Exn) :
  validateCSRFToken fd req = Throw e ->
  exists d,
    e = OAuthError (lit "invalid_request") d 400
    /\ (exists r, toResponse (lit "invalid_request") d 400 = Return r /\ status r = 400)
    /\ ((present (formField (lit "csrf_token") fd) = None
         /\ d = lit "Missing CSRF token in form data")
        \/ (present (formField (lit "csrf_token") fd) <> None
            /\ present (requestCookie (lit "__Host-CSRF_TOKEN") req) = None
            /\ d = lit "Missing CSRF token cookie")
        \/ (exists f c,
              present (formField (lit "csrf_token") fd) = Some f
              /\ present (requestCookie (lit "__Host-CSRF_TOKEN") req) = Some c
              /\ f <> c
              /\ d = lit "CSRF token mismatch")).
Proof. apply validateCSRFToken_throws. Qed.

Lemma C1_csrf_failure_witness :
  exists d,
    OAuthError (lit "invalid_request") (lit "CSRF token mismatch") 400
      = OAuthError (lit "invalid_request") d 400.
Proof.
  destruct (C1_csrf_failure_uniform_code_and_status
              [(lit "csrf_token", FormString (lit "T1"))]
              (requestWith [] (Some (lit "__Host-CSRF_TOKEN=T2")))
              (OAuthError (lit "invalid_request") (lit "CSRF token mismatch") 400))
    as [d [H _]].
  - vm_compute. reflexivity.
  - exists d. exact H.
Defined.

(** C7, as stated, fails at the empty token: the form field is present
    as a string, the cookie is present, the two are byte-equal, and the
    validation is refused. *)
Lemma C7_csrf_empty_token_refused :
  let fd := [(lit "csrf_token", FormString [])] in
  let req := requestWith [] (Some (lit "__Host-CSRF_TOKEN=")) in
  formField (lit "csrf_token") fd = Some []
  /\ requestCookie (lit "__Host-CSRF_TOKEN") req = Some []
  /\ validateCSRFToken fd req
     = Throw (OAuthError (lit "invalid_request") (lit "Missing CSRF token in form data") 400).
Proof. cbv zeta. split; [| split]; vm_compute; reflexivity. Qed.

(** C7 (amended): [validateCSRFToken] succeeds exactly when the form field
    is a non-empty string and the cookie value is byte-equal to it; it
    fails when the cookie is absent, fails when the two differ, and a
    success carries the directive that expires the cookie. *)
Theorem C7_csrf_success_iff (fd : FormData) (req : Request) :
  ((exists r, validateCSRFToken fd req = Return r) <->
   (exists t, t <> []
      /\ formField (lit "csrf_token") fd = Some t
      /\ requestCookie (lit "__Host-CSRF_TOKEN") req = Some t))
  /\ (forall t, formField (lit "csrf_token") fd = Some t ->
        requestCookie (lit "__Host-CSRF_TOKEN") req = None ->
        exists e, validateCSRFToken fd req = Throw e)
  /\ (forall t c, formField (lit "csrf_token") fd = Some t ->
        requestCookie (lit "__Host-CSRF_TOKEN") req = Some c ->
        t <> c ->
        exists e, validateCSRFToken fd req = Throw e)
  /\ (forall r, validateCSRFToken fd req = Return r ->
        csrf_clearCookie r
        = lit "__Host-CSRF_TOKEN=; HttpOnly; Secure; Path=/; SameSite=Lax; Max-Age=0").
Proof.
  rewrite validateCSRFToken_cases.
  repeat split.
  - intros [r H].
    destruct (present (formField _ fd)) as [f|] eqn:Ef; [| discriminate].
    destruct (present (requestCookie _ req)) as [c|] eqn:Ec; [| discriminate].
    destruct (jsstring_eqb f c) eqn:E; [| discriminate].
    apply jsstring_eqb_eq in E. subst c.
    apply present_Some in Ef. apply present_Some in Ec.
    exists f. tauto.
  - intros [t [Ht [Hf Hc]]].
    rewrite (proj2 (present_Some _ t) (conj Hf Ht)).
    rewrite (proj2 (present_Some _ t) (conj Hc Ht)).
    rewrite jsstring_eqb_refl. eexists; reflexivity.
  - intros t Hf Hc. rewrite Hc. simpl.
    destruct (present (formField _ fd)); eexists; reflexivity.
  - intros t c Hf Hc Hne. rewrite Hf, Hc.
    destruct (present (Some t)) as [f|] eqn:Ef; [| eexists; reflexivity].
    destruct (present (Some c)) as [v|] eqn:Ev; [| eexists; reflexivity].
    apply present_Some in Ef. apply present_Some in Ev.
    destruct Ef as [Ef _]. destruct Ev as [Ev _].
    inversion Ef; inversion Ev; subst.
    destruct (jsstring_eqb f v) eqn:E; [| eexists; reflexivity].
    apply jsstring_eqb_eq in E. contradiction.
  - intros r H.
    destruct (present (formField _ fd)) as [f|]; [| discriminate].
    destruct (present (requestCookie _ req)) as [c|]; [| discriminate].
    destruct (jsstring_eqb f c); [| discriminate].
    inversion H; subst. reflexivity.
Qed.

Lemma C7_csrf_success_witness :
  exists r,
    validateCSRFToken [(lit "csrf_token", FormString (lit "T1"))]
      (requestWith [] (Some (lit "theme=dark; __Host-CSRF_TOKEN=T1"))) = Return r.
Proof.
  destruct (C7_csrf_success_iff [(lit "csrf_token", FormString (lit "T1"))]
              (requestWith [] (Some (lit "theme=dark; __Host-CSRF_TOKEN=T1"))))
    as [[_ H] _].
  apply H. exists (lit "T1").
  split; [vm_compute; discriminate |].
  split; vm_compute; reflexivity.
Defined.

(** ** Digests and their hex text *)

Lemma be32_length (w : N) : length (SHA256.be32 w) = 4%nat.
Proof. reflexivity. Qed.

Lemma be32_bytes (w : N) : Forall (fun b => b < 256) (SHA256.be32 w).
Proof. unfold SHA256.be32. repeat constructor; apply N.mod_lt; discriminate. Qed.

Lemma digest_length (m : list N) : length (SHA256.digest m) = 32%nat.
Proof.
  unfold SHA256.digest.
  destruct (fold_left _ _ _) as [[[[[[[a b] c] d] e] f] g] h].
  rewrite !length_app, !be32_length. reflexivity.
Qed.

Lemma digest_bytes (m : list N) : Forall (fun b => b < 256) (SHA256.digest m).
Proof.
  unfold SHA256.digest.
  destruct (fold_left _ _ _) as [[[[[[[a b] c] d] e] f] g] h].
  repeat (apply Forall_app; split); apply be32_bytes.
Qed.

Lemma hmac_length (k m : list N) : length (SHA256.hmac k m) = 32%nat.
Proof. unfold SHA256.hmac. apply digest_length. Qed.

Lemma hmac_bytes (k m : list N) : Forall (fun b => b < 256) (SHA256.hmac k m).
Proof. unfold SHA256.hmac. apply digest_bytes. Qed.

(** The 256 byte values, for facts settled by enumeration. *)
Lemma byte_enum (P : N -> bool) :
  forallb P (List.map N.of_nat (seq 0 256)) = true ->
  forall b, b < 256 -> P b = true.
Proof.
  intros H b Hb. rewrite forallb_forall in H. apply H.
  apply in_map_iff. exists (N.to_nat b). split; [lia |].
  apply in_seq. lia.
Qed.

Lemma hexPair_eq (b : N) :
  b < 256 -> padStart2 (toString16 b) = [hexDigit (b / 16); hexDigit (b mod 16)].
Proof.
  intros Hb.
  apply (byte_enum (fun x =>
    bool_decide (padStart2 (toString16 x) = [hexDigit (x / 16); hexDigit (x mod 16)])))
    in Hb; [| vm_compute; reflexivity].
  apply bool_decide_eq_true in Hb. exact Hb.
Qed.

Lemma hexPair_lower (b : N) :
  b < 256 -> isLowerHex (hexDigit (b / 16)) = true /\ isLowerHex (hexDigit (b mod 16)) = true.
Proof.
  intros Hb.
  apply (byte_enum (fun x =>
    isLowerHex (hexDigit (x / 16)) && isLowerHex (hexDigit (x mod 16)))) in Hb;
    [| vm_compute; reflexivity].
  apply andb_true_iff in Hb. exact Hb.
Qed.

Lemma hexOfBytes_cons (b : N) (bs : list N) :
  b < 256 ->
  hexOfBytes (b :: bs) = hexDigit (b / 16) :: hexDigit (b mod 16) :: hexOfBytes bs.
Proof.
  intros Hb. unfold hexOfBytes, join. simpl. rewrite (hexPair_eq b Hb). reflexivity.
Qed.

Lemma hexOfBytes_lower (bs : list N) :
  Forall (fun b => b < 256) bs -> Forall (fun c => isLowerHex c = true) (hexOfBytes bs).
Proof.
  induction 1 as [| b bs Hb _ IH]; [constructor |].
  rewrite (hexOfBytes_cons b bs Hb).
  destruct (hexPair_lower b Hb). repeat constructor; assumption.
Qed.

Lemma hexOfBytes_nonempty (bs : list N) :
  Forall (fun b => b < 256) bs -> bs <> [] -> hexOfBytes bs <> [].
Proof.
  intros H Hne. destruct H as [| b bs Hb _]; [congruence |].
  rewrite (hexOfBytes_cons b bs Hb). discriminate.
Qed.

Lemma sha256Hex_lower (s : jsstring) : Forall (fun c => isLowerHex c = true) (sha256Hex s).
Proof. apply hexOfBytes_lower, digest_bytes. Qed.

Lemma sha256Hex_nonempty (s : jsstring) : sha256Hex s <> [].
Proof.
  apply hexOfBytes_nonempty; [apply digest_bytes |].
  intros E. pose proof (digest_length (TextEncoder_encode s)) as L.
  rewrite E in L. discriminate.
Qed.

Lemma isLowerHex_range (c : N) :
  isLowerHex c = true <-> (48 <= c <= 57 \/ 97 <= c <= 102).
Proof.
  unfold isLowerHex. rewrite orb_true_iff, !andb_true_iff, !N.leb_le. tauto.
Qed.

Ltac eqb_false :=
  repeat match goal with
         | |- context [?a =? ?b] => rewrite (proj2 (N.eqb_neq a b)) by lia
         | |- context [?a <=? ?b] => rewrite (proj2 (N.leb_gt a b)) by lia
         | |- context [?a <? ?b] => rewrite (proj2 (N.ltb_ge a b)) by lia
         end.

Lemma isLowerHex_facts (c : N) :
  isLowerHex c = true ->
  isWhiteSpace c = false /\ isLineTerminator c = false
  /\ (c =? 59) = false /\ (c =? 46) = false /\ (c =? 45) = false /\ (c =? 43) = false.
Proof.
  intros H. apply isLowerHex_range in H.
  unfold isWhiteSpace, isLineTerminator.
  repeat split; eqb_false; reflexivity.
Qed.

(** ** Splitting and trimming *)

Lemma split_no_sep (sep : N) (s : jsstring) :
  Forall (fun c => (c =? sep) = false) s -> split sep s = [s].
Proof.
  induction 1 as [| c s Hc _ IH]; [reflexivity |].
  simpl. rewrite Hc, IH. reflexivity.
Qed.

Lemma split_app_sep (sep : N) (a b : jsstring) :
  Forall (fun c => (c =? sep) = false) a ->
  split sep (a ++ sep :: b) = a :: split sep b.
Proof.
  induction 1 as [| c a Hc _ IH]; simpl.
  - rewrite N.eqb_refl. reflexivity.
  - rewrite Hc, IH. reflexivity.
Qed.

Lemma trimStart_id (s : jsstring) :
  Forall (fun c => isWhiteSpace c = false) s -> trimStart s = s.
Proof. destruct 1 as [| c s Hc _]; [reflexivity |]. simpl. rewrite Hc. reflexivity. Qed.

Lemma trim_id (s : jsstring) :
  Forall (fun c => isWhiteSpace c = false) s -> trim s = s.
Proof.
  intros H. unfold trim, trimEnd. rewrite (trimStart_id s H).
  rewrite trimStart_id; [apply rev_involutive |].
  apply List.Forall_rev. exact H.
Qed.

Lemma cookiesOf_single (s : jsstring) :
  Forall (fun c => isWhiteSpace c = false) s ->
  Forall (fun c => (c =? 59) = false) s ->
  cookiesOf s = [s].
Proof.
  intros Hw Hs. unfold cookiesOf. rewrite (split_no_sep 59 s Hs). simpl.
  rewrite (trim_id s Hw). reflexivity.
Qed.

Lemma startsWith_app (p r : jsstring) : startsWith (p ++ r) p = true.
Proof. induction p as [| a p IH]; [reflexivity |]. simpl. rewrite N.eqb_refl. exact IH. Qed.

Lemma skipn_prefix (p r : jsstring) : skipn (length p) (p ++ r) = r.
Proof. induction p as [| a p IH]; [reflexivity | exact IH]. Qed.

Lemma cookiePair_app (a b : jsstring) :
  Forall (fun c => (c =? 59) = false) a -> cookiePair (a ++ 59 :: b) = a.
Proof. intros H. unfold cookiePair. rewrite (split_app_sep 59 a b H). reflexivity. Qed.

Lemma requestCookie_single (name value : jsstring) (q : list (jsstring * jsstring)) :
  Forall (fun c => isWhiteSpace c = false) (name ++ lit "=" ++ value) ->
  Forall (fun c => (c =? 59) = false) (name ++ lit "=" ++ value) ->
  requestCookie name (requestWith q (Some (name ++ lit "=" ++ value))) = Some value.
Proof.
  intros Hw Hs. unfold requestCookie, requestWith. cbn [cookieHeader default from_option id].
  rewrite (cookiesOf_single _ Hw Hs). cbn [find].
  rewrite app_assoc, startsWith_app. f_equal. unfold substring.
  replace (length name + 1)%nat with (length (name ++ lit "=")).
  - apply skipn_prefix.
  - rewrite length_app. reflexivity.
Qed.

(** ** One-time state: the function read through [requestCookie] *)

Lemma validateOAuthState_cases (req : Request) (kv : KV) :
  validateOAuthState req kv =
  match present (searchParams_get (lit "state") req) with
  | None => (Throw MissingState, kv)
  | Some t =>
      match present (KV_get kv (stateKey t)) with
      | None => (Throw InvalidOrExpiredState, kv)
      | Some stored =>
          match present (requestCookie (lit "__Host-CONSENTED_STATE") req) with
          | None => (Throw MissingBinding, kv)
          | Some h =>
              if jsstring_eqb (sha256Hex t) h then
                match JSON_parse stored with
                | Throw _ => (Throw InvalidStateData, kv)
                | Return v =>
                    (Return {| oauthReqInfo := v; state_clearCookie := clearConsentedState |},
                     KV_delete kv (stateKey t))
                end
              else (Throw BindingMismatch, kv)
          end
      end
  end.
Proof.
  unfold validateOAuthState, requestCookie.
  rewrite (present_find_startsWith _ _ (cookieName_eq_nonempty _)).
  destruct (present (searchParams_get _ req)) as [t|]; [| reflexivity].
  destruct (present (KV_get kv _)) as [stored|]; [| reflexivity].
  destruct (find _ _) as [c|]; [| reflexivity].
  destruct (present (Some (substring c _))) as [h|]; [| reflexivity].
  destruct (jsstring_eqb (sha256Hex t) h); [| reflexivity].
  destruct (JSON_parse stored); reflexivity.
Qed.

Lemma KV_get_delete (kv : KV) (key : jsstring) : KV_get (KV_delete kv key) key = None.
Proof. unfold KV_get, KV_delete. rewrite lookup_delete_eq. reflexivity. Qed.

Lemma stateKey_inj (t u : jsstring) : stateKey t = stateKey u -> t = u.
Proof. unfold stateKey. apply app_inv_head. Qed.

(** Creating the state of another token leaves the record of [t] as it
    is, present or absent. *)
Lemma createOAuthState_other (uuid serialized t : jsstring) (kv : KV) (ttl : N) :
  uuid <> t ->
  snd (createOAuthState uuid serialized kv ttl) !! stateKey t = kv !! stateKey t.
Proof.
  intros Hne. unfold createOAuthState, KV_put. cbn [snd].
  apply lookup_insert_ne. intros E. apply stateKey_inj in E. contradiction.
Qed.

Lemma validateOAuthState_absent (t : jsstring) (req : Request) (kv : KV) :
  searchParams_get (lit "state") req = Some t ->
  t <> [] ->
  kv !! stateKey t = None ->
  validateOAuthState req kv = (Throw InvalidOrExpiredState, kv).
Proof.
  intros Ht Hne Hk. rewrite validateOAuthState_cases, Ht.
  rewrite (proj2 (present_Some _ t) (conj eq_refl Hne)).
  unfold KV_get. rewrite Hk. reflexivity.
Qed.

(** C3: a successful [validateOAuthState] for token [t] returns the
    parse of the stored record and a namespace from which the record
    [oauth:state:t] has been deleted; every later call with the same token
    against that namespace, or against any namespace in which the record
    has not been created anew, fails with [invalid_request] (Invalid or
    expired state) and changes nothing. *)
Theorem C3_consumed_state_never_validates_again
    (t : jsstring) (req : Request) (kv kv' : KV) (r : ValidateStateResult) :
  searchParams_get (lit "state") req = Some t ->
  validateOAuthState req kv = (Return r, kv') ->
  (exists stored, KV_get kv (stateKey t) = Some stored
                  /\ JSON_parse stored = Return (oauthReqInfo r))
  /\ kv' = KV_delete kv (stateKey t)
  /\ kv' !! stateKey t = None
  /\ (forall req2,
        searchParams_get (lit "state") req2 = Some t ->
        validateOAuthState req2 kv'
        = (Throw (OAuthError (lit "invalid_request") (lit "Invalid or expired state") 400),
           kv'))
  /\ (forall (later : KV) req2,
        later !! stateKey t = None ->
        searchParams_get (lit "state") req2 = Some t ->
        validateOAuthState req2 later
        = (Throw (OAuthError (lit "invalid_request") (lit "Invalid or expired state") 400),
           later)).
Proof.
  intros Ht H. rewrite validateOAuthState_cases, Ht in H.
  destruct (present (Some t)) as [t0|] eqn:Et; [| discriminate].
  apply present_Some in Et. destruct Et as [Et Hne]. inversion Et; subst t0; clear Et.
  destruct (present (KV_get kv (stateKey t))) as [stored|] eqn:Es; [| discriminate].
  apply present_Some in Es. destruct Es as [Es _].
  destruct (present (requestCookie _ req)) as [h|]; [| discriminate].
  destruct (jsstring_eqb (sha256Hex t) h); [| discriminate].
  destruct (JSON_parse stored) as [v|] eqn:Ev; [| discriminate].
  inversion H; subst; clear H. cbn [oauthReqInfo].
  split; [exists stored; auto |].
  split; [reflexivity |].
  split; [apply lookup_delete_eq |].
  split.
  - intros req2 Ht2. apply (validateOAuthState_absent t req2 _ Ht2 Hne).
    apply lookup_delete_eq.
  - intros later req2 Hl Ht2. apply (validateOAuthState_absent t req2 _ Ht2 Hne Hl).
Qed.

Lemma C3_consumed_state_witness :
  let kv : KV := KV_put ∅ (stateKey (lit "S1")) (lit "{}") 600 in
  let req :=
    requestWith [(lit "code", lit "c0"); (lit "state", lit "S1")]
      (Some (cookiePair (bindStateToSession (lit "S1")))) in
  validateOAuthState req kv
    = (Return {| oauthReqInfo := JObject []; state_clearCookie := clearConsentedState |},
       KV_delete kv (stateKey (lit "S1")))
  /\ validateOAuthState req (KV_delete kv (stateKey (lit "S1")))
    = (Throw (OAuthError (lit "invalid_request") (lit "Invalid or expired state") 400),
       KV_delete kv (stateKey (lit "S1"))).
Proof.
  intros kv req.
  assert (H1 : searchParams_get (lit "state") req = Some (lit "S1"))
    by (vm_compute; reflexivity).
  assert (H2 : validateOAuthState req kv
    = (Return {| oauthReqInfo := JObject []; state_clearCookie := clearConsentedState |},
       KV_delete kv (stateKey (lit "S1"))))
    by (vm_compute; reflexivity).
  split; [exact H2 |].
  exact (proj1 (proj2 (proj2 (proj2
    (C3_consumed_state_never_validates_again (lit "S1") req kv _ _ H1 H2)))) req H1).
Defined.

(** C10: a failing [validateOAuthState] returns the namespace it was
    given (no record is deleted) and no result (hence no clear-cookie
    directive), and the failure is one of the five errors of the function;
    only a success deletes the record and carries the directive.  A stored
    payload that does not parse, reached with a valid token and binding,
    gives [server_error] with status 500 and the record is still stored. *)
Theorem C10_failure_mutates_nothing (req : Request) (kv : KV) :
  (forall e kv', validateOAuthState req kv = (Throw e, kv') ->
     kv' = kv
     /\ (e = MissingState \/ e = InvalidOrExpiredState \/ e = MissingBinding
         \/ e = BindingMismatch \/ e = InvalidStateData))
  /\ (forall r kv', validateOAuthState req kv = (Return r, kv') ->
        exists t, present (searchParams_get (lit "state") req) = Some t
                  /\ kv' = KV_delete kv (stateKey t)
                  /\ state_clearCookie r = clearConsentedState)
  /\ (forall t stored e,
        present (searchParams_get (lit "state") req) = Some t ->
        present (KV_get kv (stateKey t)) = Some stored ->
        requestCookie (lit "__Host-CONSENTED_STATE") req = Some (sha256Hex t) ->
        JSON_parse stored = Throw e ->
        validateOAuthState req kv
          = (Throw (OAuthError (lit "server_error") (lit "Invalid state data") 500), kv)
        /\ KV_get kv (stateKey t) = Some stored).
Proof.
  rewrite validateOAuthState_cases.
  split; [| split].
  - intros e kv' H.
    destruct (present (searchParams_get _ req)) as [t|];
      [| inversion H; subst; auto].
    destruct (present (KV_get kv _)) as [stored|];
      [| inversion H; subst; auto].
    destruct (present (requestCookie _ req)) as [h|];
      [| inversion H; subst; auto].
    destruct (jsstring_eqb (sha256Hex t) h);
      [| inversion H; subst; auto 6].
    destruct (JSON_parse stored); [discriminate |].
    inversion H; subst; auto 6.
  - intros r kv' H.
    destruct (present (searchParams_get _ req)) as [t|]; [| discriminate].
    destruct (present (KV_get kv _)) as [stored|]; [| discriminate].
    destruct (present (requestCookie _ req)) as [h|]; [| discriminate].
    destruct (jsstring_eqb (sha256Hex t) h); [| discriminate].
    destruct (JSON_parse stored); [| discriminate].
    inversion H; subst. exists t. auto.
  - intros t stored e Ht Hs Hc Hp. rewrite Ht, Hs, Hc.
    rewrite (proj2 (present_Some _ (sha256Hex t)) (conj eq_refl (sha256Hex_nonempty t))).
    rewrite jsstring_eqb_refl, Hp.
    split; [reflexivity |]. apply present_Some in Hs. tauto.
Qed.

Lemma C10_failure_witness :
  let kv : KV := KV_put ∅ (stateKey (lit "S1")) (lit "{not json") 600 in
  let req := requestWith [(lit "state", lit "S1")]
               (Some (cookiePair (bindStateToSession (lit "S1")))) in
  validateOAuthState req kv
    = (Throw (OAuthError (lit "server_error") (lit "Invalid state data") 500), kv)
  /\ KV_get kv (stateKey (lit "S1")) = Some (lit "{not json").
Proof.
  intros kv req.
  refine (proj2 (proj2 (C10_failure_mutates_nothing req kv))
            (lit "S1") (lit "{not json") SyntaxError _ _ _ _);
    vm_compute; reflexivity.
Defined.

(** ** Session binding *)

Lemma Forall_lower_nonws (s : jsstring) :
  Forall (fun c => isLowerHex c = true) s -> Forall (fun c => isWhiteSpace c = false) s.
Proof. apply List.Forall_impl. intros c H. apply isLowerHex_facts in H. tauto. Qed.

Lemma Forall_lower_nonsemi (s : jsstring) :
  Forall (fun c => isLowerHex c = true) s -> Forall (fun c => (c =? 59) = false) s.
Proof. apply List.Forall_impl. intros c H. apply isLowerHex_facts in H. tauto. Qed.

Lemma Forall_lower_nondot (s : jsstring) :
  Forall (fun c => isLowerHex c = true) s -> Forall (fun c => (c =? 46) = false) s.
Proof. apply List.Forall_impl. intros c H. apply isLowerHex_facts in H. tauto. Qed.

Lemma Forall_of_forallb (f : N -> bool) (s : jsstring) :
  forallb f s = true -> Forall (fun c => f c = true) s.
Proof. intros H. apply List.Forall_forall. apply forallb_forall. exact H. Qed.

Lemma Forall_negb (f : N -> bool) (s : jsstring) :
  forallb (fun c => negb (f c)) s = true -> Forall (fun c => f c = false) s.
Proof.
  intros H. apply Forall_of_forallb in H. revert H. apply List.Forall_impl.
  intros c. apply negb_true_iff.
Qed.

(** The pair a user agent keeps from the directive of [bindStateToSession]. *)
Lemma cookiePair_bindStateToSession (t : jsstring) :
  cookiePair (bindStateToSession t)
  = lit "__Host-CONSENTED_STATE" ++ lit "=" ++ sha256Hex t.
Proof.
  unfold bindStateToSession.
  change (lit "; HttpOnly; Secure; Path=/; SameSite=Lax; Max-Age=600")
    with (59 :: lit " HttpOnly; Secure; Path=/; SameSite=Lax; Max-Age=600").
  change (lit "__Host-CONSENTED_STATE=") with (lit "__Host-CONSENTED_STATE" ++ lit "=").
  rewrite <- (app_assoc (lit "__Host-CONSENTED_STATE") (lit "=")).
  rewrite !app_assoc.
  rewrite cookiePair_app; [reflexivity |].
  apply Forall_app. split.
  - apply Forall_negb. vm_compute. reflexivity.
  - apply Forall_lower_nonsemi, sha256Hex_lower.
Qed.

Lemma requestCookie_bound (t : jsstring) (q : list (jsstring * jsstring)) :
  requestCookie (lit "__Host-CONSENTED_STATE")
    (requestWith q (Some (cookiePair (bindStateToSession t))))
  = Some (sha256Hex t).
Proof.
  rewrite cookiePair_bindStateToSession.
  apply requestCookie_single; rewrite app_assoc; apply Forall_app; split.
  - apply Forall_negb. vm_compute. reflexivity.
  - apply Forall_lower_nonws, sha256Hex_lower.
  - apply Forall_negb. vm_compute. reflexivity.
  - apply Forall_lower_nonsemi, sha256Hex_lower.
Qed.

Lemma requestCookie_ext (name : jsstring) (r1 r2 : Request) :
  cookieHeader r1 = cookieHeader r2 -> requestCookie name r1 = requestCookie name r2.
Proof. intros H. unfold requestCookie. rewrite H. reflexivity. Qed.

(** The binding check in terms of the cookie value the request carries,
    whatever else its [Cookie] header holds. *)
Lemma session_binding_by_value (t stored : jsstring) (req : Request) (kv : KV) :
  present (searchParams_get (lit "state") req) = Some t ->
  present (KV_get kv (stateKey t)) = Some stored ->
  (requestCookie (lit "__Host-CONSENTED_STATE") req = Some (sha256Hex t) ->
     validateOAuthState req kv =
     match JSON_parse stored with
     | Throw _ => (Throw InvalidStateData, kv)
     | Return v =>
         (Return {| oauthReqInfo := v; state_clearCookie := clearConsentedState |},
          KV_delete kv (stateKey t))
     end)
  /\ (forall h, h <> sha256Hex t ->
        present (requestCookie (lit "__Host-CONSENTED_STATE") req) = Some h ->
        validateOAuthState req kv = (Throw BindingMismatch, kv))
  /\ (present (requestCookie (lit "__Host-CONSENTED_STATE") req) = None ->
        validateOAuthState req kv = (Throw MissingBinding, kv)).
Proof.
  intros Ht Hs. rewrite validateOAuthState_cases, Ht, Hs.
  split; [| split].
  - intros Hc. rewrite Hc.
    rewrite (proj2 (present_Some _ (sha256Hex t)) (conj eq_refl (sha256Hex_nonempty t))).
    rewrite jsstring_eqb_refl. reflexivity.
  - intros h Hne Hc. rewrite Hc.
    destruct (jsstring_eqb (sha256Hex t) h) eqn:E; [| reflexivity].
    apply jsstring_eqb_eq in E. congruence.
  - intros Hc. rewrite Hc. reflexivity.
Qed.







(** ** Signing and verification *)

Lemma TextEncoder_encode_nonempty (s : jsstring) : s <> [] -> TextEncoder_encode s <> [].
Proof.
  destruct s as [| c r]; [congruence |]. intros _. simpl.
  destruct (c <? 128); [discriminate |].
  destruct (c <? 2048); [discriminate |].
  destruct (isHighSurrogate c).
  - destruct r as [| d r']; [discriminate |]. destruct (isLowSurrogate d); discriminate.
  - destruct (isLowSurrogate c); discriminate.
Qed.

Lemma importKey_nonempty (secret : jsstring) :
  secret <> [] -> importKey secret = Return (TextEncoder_encode secret).
Proof.
  intros H. apply TextEncoder_encode_nonempty in H. unfold importKey.
  destruct (TextEncoder_encode secret); [congruence | reflexivity].
Qed.

Lemma signData_nonempty (data secret : jsstring) :
  secret <> [] -> signData data secret = Return (hexOfBytes (tag data secret)).
Proof. intros H. unfold signData. rewrite (importKey_nonempty _ H). reflexivity. Qed.

Lemma tag_nonempty (data secret : jsstring) : tag data secret <> [].
Proof.
  intros E. pose proof (hmac_length (TextEncoder_encode secret) (TextEncoder_encode data)) as L.
  unfold tag in E. rewrite E in L. discriminate.
Qed.

(** With a key that imports, the verdict is the comparison of the tag
    with the bytes read from the signature text. *)
Lemma verifySignature_nonempty (signatureHex data secret : jsstring) :
  secret <> [] ->
  verifySignature signatureHex data secret
  = Return (bool_decide (tag data secret = signatureBytes signatureHex)).
Proof.
  intros H. unfold verifySignature, signatureBytes. rewrite (importKey_nonempty _ H).
  cbn [bind]. destruct (matchPairs signatureHex) as [| m ms] eqn:E.
  - cbn [catch bind List.map]. f_equal. symmetry. apply bool_decide_eq_false.
    apply tag_nonempty.
  - cbn [catch bind]. reflexivity.
Qed.

Lemma hexPair_value (b : N) :
  b < 256 -> toUint8 (parseInt16 [hexDigit (b / 16); hexDigit (b mod 16)]) = b.
Proof.
  intros Hb.
  apply (byte_enum (fun x =>
    toUint8 (parseInt16 [hexDigit (x / 16); hexDigit (x mod 16)]) =? x)) in Hb;
    [| vm_compute; reflexivity].
  apply N.eqb_eq in Hb. exact Hb.
Qed.

Lemma matchPairs_pair (a b : N) (r : jsstring) :
  isLineTerminator a = false -> isLineTerminator b = false ->
  matchPairs (a :: b :: r) = [a; b] :: matchPairs r.
Proof. intros Ha Hb. simpl. rewrite Ha, Hb. reflexivity. Qed.

(** Reading back the hex text of bytes gives the bytes. *)
Lemma signatureBytes_hexOfBytes (bs : list N) :
  Forall (fun b => b < 256) bs -> signatureBytes (hexOfBytes bs) = bs.
Proof.
  induction 1 as [| b bs Hb _ IH]; [reflexivity |].
  rewrite (hexOfBytes_cons b bs Hb).
  destruct (hexPair_lower b Hb) as [H1 H2].
  apply isLowerHex_facts in H1. apply isLowerHex_facts in H2.
  unfold signatureBytes in *.
  rewrite matchPairs_pair by tauto.
  cbn [List.map]. rewrite (hexPair_value b Hb), IH. reflexivity.
Qed.

(** C5, as stated, fails: the signature text with its first letter in
    upper case differs from the signed one in a byte and verifies. *)
Lemma C5_altered_signature_verifies :
  let d := JSON_stringify_strings [lit "abc123"] in
  let k := lit "cookie-secret" in
  signData d k
    = Return (lit "f8e5e52c1f8c7cc6aa603479ae587838979034f80822679b0639dac71f8fd7c2")
  /\ lit "F8e5e52c1f8c7cc6aa603479ae587838979034f80822679b0639dac71f8fd7c2"
     <> lit "f8e5e52c1f8c7cc6aa603479ae587838979034f80822679b0639dac71f8fd7c2"
  /\ verifySignature
       (lit "F8e5e52c1f8c7cc6aa603479ae587838979034f80822679b0639dac71f8fd7c2") d k
     = Return true.
Proof.
  cbv zeta. split; [vm_compute; reflexivity |].
  split; [vm_compute; discriminate |].
  vm_compute. reflexivity.
Qed.

(** C5 (amended): for a non-empty secret, signing succeeds and the
    signature verifies against the signed data; a signature text verifies
    exactly when the bytes read from it are the tag, so it is refused
    whenever those bytes differ from the tag, and altered data is refused
    whenever its tag differs; signing is a function of data and secret. *)
Theorem C5_sign_verify (d k : jsstring) :
  k <> [] ->
  (exists sig, signData d k = Return sig /\ verifySignature sig d k = Return true)
  /\ (forall sig, verifySignature sig d k = Return true <-> signatureBytes sig = tag d k)
  /\ (forall sig, signatureBytes sig <> tag d k -> verifySignature sig d k = Return false)
  /\ (forall sig d', signData d k = Return sig -> tag d' k <> tag d k ->
        verifySignature sig d' k = Return false)
  /\ (forall s1 s2, signData d k = Return s1 -> signData d k = Return s2 -> s1 = s2).
Proof.
  intros Hk.
  assert (Hrt : signatureBytes (hexOfBytes (tag d k)) = tag d k)
    by (apply signatureBytes_hexOfBytes, hmac_bytes).
  repeat split.
  - exists (hexOfBytes (tag d k)). split; [apply (signData_nonempty _ _ Hk) |].
    rewrite (verifySignature_nonempty _ _ _ Hk), Hrt.
    f_equal. apply bool_decide_eq_true. reflexivity.
  - rewrite (verifySignature_nonempty _ _ _ Hk). intros H. inversion H as [E].
    apply bool_decide_eq_true in E. congruence.
  - intros H. rewrite (verifySignature_nonempty _ _ _ Hk). f_equal.
    apply bool_decide_eq_true. congruence.
  - intros sig H. rewrite (verifySignature_nonempty _ _ _ Hk). f_equal.
    apply bool_decide_eq_false. congruence.
  - intros sig d' Hs Hne. rewrite (signData_nonempty _ _ Hk) in Hs.
    inversion Hs; subst sig.
    rewrite (verifySignature_nonempty _ _ _ Hk), Hrt. f_equal.
    apply bool_decide_eq_false. exact Hne.
  - intros s1 s2 H1 H2. congruence.
Qed.

Lemma C5_sign_verify_witness :
  exists sig,
    signData (lit "hello") (lit "secret") = Return sig
    /\ verifySignature sig (lit "hello") (lit "secret") = Return true.
Proof.
  refine (proj1 (C5_sign_verify (lit "hello") (lit "secret") _)).
  vm_compute. discriminate.
Defined.

(** C9, as stated, fails: an odd-length text and a text with a character
    that is no hex digit are both accepted as the signature of the data. *)
Lemma C9_malformed_signature_accepted :
  let d := lit "hello" in
  let k := lit "secret" in
  signData d k
    = Return (lit "88aab3ede8d3adf94d26ab90d3bafd4a2083070c3bcce9c014ee04a443847c0b")
  /\ length (lit "88aab3ede8d3adf94d26ab90d3bafd4a2083070c3bcce9c014ee04a443847cb") = 63%nat
  /\ verifySignature
       (lit "88aab3ede8d3adf94d26ab90d3bafd4a2083070c3bcce9c014ee04a443847cb") d k
     = Return true
  /\ verifySignature
       (lit "88aab3ede8d3adf94d26ab90d3bafd4a2083070c3bcce9c014ee04a443847cbz") d k
     = Return true.
Proof. cbv zeta. split; [| split; [| split]]; vm_compute; reflexivity. Qed.

(** C9 (amended): with a secret that imports, [verifySignature] returns
    a boolean for every signature text, malformed or not, and no
    exception escapes; the empty text gives [false]; any text gives
    [false] unless the bytes read from it are exactly the tag. *)
Theorem C9_verify_never_throws (sig d k : jsstring) :
  k <> [] ->
  (exists b, verifySignature sig d k = Return b)
  /\ (sig = [] -> verifySignature sig d k = Return false)
  /\ (signatureBytes sig <> tag d k -> verifySignature sig d k = Return false).
Proof.
  intros Hk. rewrite (verifySignature_nonempty _ _ _ Hk).
  split; [eexists; reflexivity |].
  split.
  - intros ->. f_equal. apply bool_decide_eq_false.
    intros E. apply (tag_nonempty d k). exact E.
  - intros H. f_equal. apply bool_decide_eq_false. congruence.
Qed.

Lemma C9_verify_never_throws_witness :
  verifySignature (lit "xyz") (lit "hello") (lit "secret") = Return false.
Proof.
  refine (proj2 (proj2 (C9_verify_never_throws (lit "xyz") (lit "hello") (lit "secret") _)) _).
  - vm_compute. discriminate.
  - vm_compute. discriminate.
Defined.

(** ** Base64 *)

Lemma list_ind3 (P : list N -> Prop) :
  P [] -> (forall a, P [a]) -> (forall a b, P [a; b]) ->
  (forall a b c r, P r -> P (a :: b :: c :: r)) ->
  forall l, P l.
Proof.
  intros H0 H1 H2 H3.
  assert (H : forall l, P l /\ (forall a, P (a :: l)) /\ (forall a b, P (a :: b :: l))).
  { induction l as [| x l [IH0 [IH1 IH2]]]; [auto |].
    split; [apply IH1 |]. split; [intros a; apply IH2 |]. intros a b. apply H3, IH0. }
  intros l. apply H.
Qed.

Lemma mod4_add4 (n : nat) : ((4 + n) mod 4 = n mod 4)%nat.
Proof. rewrite Nat.add_comm. apply (Nat.Div0.mod_add n 1 4). Qed.

Lemma b64char_isBase64Char (v : N) : isBase64Char (b64char v) = true.
Proof.
  unfold isBase64Char, b64val, b64char.
  destruct (N.ltb_spec v 26); [| destruct (N.ltb_spec v 52);
    [| destruct (N.ltb_spec v 62); [| destruct (N.eqb_spec v 62)]]];
  repeat match goal with
         | |- context [(?a <=? ?b) && (?c <=? ?d)] =>
             first [ rewrite (proj2 (N.leb_le a b)), (proj2 (N.leb_le c d)) by lia; cbn [andb]
                   | rewrite (proj2 (N.leb_gt a b)) by lia; cbn [andb]
                   | rewrite (proj2 (N.leb_gt c d)) by lia; rewrite andb_false_r ]
         end;
  try reflexivity.
Qed.

Lemma b64val_b64char (v : N) : v < 64 -> b64val (b64char v) = Some v.
Proof.
  intros Hv. assert (Hb : v < 256) by lia.
  apply (byte_enum (fun x =>
    if x <? 64 then bool_decide (b64val (b64char x) = Some x) else true)) in Hb;
    [| vm_compute; reflexivity].
  rewrite (proj2 (N.ltb_lt v 64) Hv) in Hb. apply bool_decide_eq_true in Hb. exact Hb.
Qed.

Lemma isBase64Char_facts (c : N) :
  isBase64Char c = true ->
  isWhiteSpace c = false /\ isAsciiWhitespace c = false
  /\ (c =? 59) = false /\ (c =? 46) = false /\ (c =? 61) = false.
Proof.
  unfold isBase64Char, b64val. intros H.
  assert (R : 65 <= c <= 90 \/ 97 <= c <= 122 \/ 48 <= c <= 57 \/ c = 43 \/ c = 47).
  { destruct (N.leb_spec 65 c), (N.leb_spec c 90); cbn [andb] in H; try lia;
    destruct (N.leb_spec 97 c), (N.leb_spec c 122); cbn [andb] in H; try lia;
    destruct (N.leb_spec 48 c), (N.leb_spec c 57); cbn [andb] in H; try lia;
    destruct (N.eqb_spec c 43); try lia; destruct (N.eqb_spec c 47); try lia;
    discriminate. }
  unfold isWhiteSpace, isAsciiWhitespace.
  repeat split; eqb_false; reflexivity.
Qed.

Lemma encodeUnpadded_chars (l : list N) :
  Forall (fun c => isBase64Char c = true) (encodeUnpadded l).
Proof.
  induction l as [| a | a b | a b c r IH] using list_ind3; cbn [encodeUnpadded];
    repeat constructor; try apply b64char_isBase64Char. exact IH.
Qed.

(** The padded text is the unpadded one followed by zero, one or two [=]. *)
Lemma encodeOctets_padding (l : list N) :
  exists pad, encodeOctets l = encodeUnpadded l ++ pad
              /\ (pad = [] \/ pad = [61] \/ pad = [61; 61])
              /\ (length (encodeOctets l) mod 4 = 0)%nat
              /\ (length (encodeUnpadded l) mod 4 <> 1)%nat
              /\ (pad <> [] -> encodeUnpadded l <> []).
Proof.
  induction l as [| a | a b | a b c r IH] using list_ind3.
  - exists []. cbn. repeat split; auto.
  - exists [61; 61]. cbn. repeat split; auto; discriminate.
  - exists [61]. cbn. repeat split; auto; discriminate.
  - destruct IH as [pad [E [Hp [L4 [L1 Hne]]]]].
    exists pad. cbn [encodeOctets encodeUnpadded]. rewrite E at 1.
    split; [reflexivity |]. split; [exact Hp |].
    cbn [length].
    split; [| split; [| discriminate]].
    + change (S (S (S (S (length (encodeOctets r))))))
        with (4 + length (encodeOctets r))%nat.
      rewrite mod4_add4. exact L4.
    + change (S (S (S (S (length (encodeUnpadded r))))))
        with (4 + length (encodeUnpadded r))%nat.
      rewrite mod4_add4. exact L1.
Qed.

Lemma rev_last_char (x : jsstring) :
  x <> [] -> Forall (fun c => (c =? 61) = false) x ->
  exists b r, rev x = b :: r /\ (b =? 61) = false.
Proof.
  intros Hne H. apply List.Forall_rev in H.
  destruct (rev x) as [| b r] eqn:E.
  - apply (f_equal (@rev N)) in E. rewrite rev_involutive in E. contradiction.
  - exists b, r. split; [reflexivity |]. inversion H; assumption.
Qed.

Lemma stripPadding_encodeOctets (l : list N) :
  stripPadding (encodeOctets l) = encodeUnpadded l.
Proof.
  destruct (encodeOctets_padding l) as [pad [E [Hp [L4 [_ Hne]]]]].
  unfold stripPadding. rewrite L4. cbn [Nat.eqb]. rewrite E.
  assert (Hc : Forall (fun c => (c =? 61) = false) (encodeUnpadded l)).
  { eapply List.Forall_impl; [| apply encodeUnpadded_chars].
    intros c H. apply isBase64Char_facts in H. tauto. }
  destruct Hp as [-> | [-> | ->]].
  - rewrite app_nil_r.
    destruct (rev (encodeUnpadded l)) as [| a r] eqn:Er; [reflexivity |].
    apply List.Forall_rev in Hc. rewrite Er in Hc. inversion Hc as [| ? ? Ha _]; subst.
    rewrite Ha. reflexivity.
  - destruct (rev_last_char _ (Hne ltac:(discriminate)) Hc) as [b [r [Er Hb]]].
    rewrite rev_app_distr. cbn [rev app]. rewrite N.eqb_refl, Er, Hb.
    rewrite <- Er. apply rev_involutive.
  - destruct (rev_last_char _ (Hne ltac:(discriminate)) Hc) as [b [r [Er Hb]]].
    rewrite rev_app_distr. cbn [rev app]. rewrite !N.eqb_refl.
    apply rev_involutive.
Qed.

Lemma sextet_div (x y k : N) : k <> 0 -> y < k -> (x * k + y) / k = x.
Proof. intros Hk Hy. rewrite N.div_add_l by exact Hk. rewrite (N.div_small y k Hy). lia. Qed.

Lemma sextet_mod (x y k : N) : k <> 0 -> y < k -> (x * k + y) mod k = y.
Proof.
  intros Hk Hy. rewrite N.add_comm, N.Div0.mod_add. apply N.mod_small. exact Hy.
Qed.

Lemma decode_encodeUnpadded (l : list N) :
  Forall (fun b => b < 256) l ->
  sextets (encodeUnpadded l) <> None
  /\ forall vs, sextets (encodeUnpadded l) = Some vs -> decodeSextets vs = l.
Proof.
  induction l as [| a | a b | a b c r IH] using list_ind3; intros H.
  - cbn. split; [discriminate |]. intros vs E. inversion E. reflexivity.
  - inversion H as [| ? ? Ha _]; subst.
    cbn [encodeUnpadded sextets].
    assert (a / 4 < 64) by (apply N.Div0.div_lt_upper_bound; lia).
    assert (a mod 4 < 4) by (apply N.mod_lt; lia).
    rewrite !b64val_b64char by lia.
    split; [discriminate |]. intros vs E. inversion E; subst. cbn [decodeSextets].
    replace (a mod 4 * 16) with (a mod 4 * 16 + 0) by lia.
    rewrite sextet_div by lia. f_equal. pose proof (N.div_mod a 4). lia.
  - inversion H as [| ? ? Ha H']; subst. inversion H' as [| ? ? Hb _]; subst.
    cbn [encodeUnpadded sextets].
    assert (a / 4 < 64) by (apply N.Div0.div_lt_upper_bound; lia).
    assert (a mod 4 < 4) by (apply N.mod_lt; lia).
    assert (b mod 16 < 16) by (apply N.mod_lt; lia).
    assert (b / 16 < 16) by (apply N.Div0.div_lt_upper_bound; lia).
    rewrite !b64val_b64char by lia.
    split; [discriminate |]. intros vs E. inversion E; subst. cbn [decodeSextets].
    rewrite sextet_div, sextet_mod by lia.
    replace (b mod 16 * 4) with (b mod 16 * 4 + 0) by lia.
    rewrite sextet_div by lia.
    pose proof (N.div_mod a 4). pose proof (N.div_mod b 16).
    f_equal; [lia |]. f_equal. lia.
  - inversion H as [| ? ? Ha H']; subst. inversion H' as [| ? ? Hb H'']; subst.
    inversion H'' as [| ? ? Hc Hr]; subst.
    destruct (IH Hr) as [IHn IHd].
    cbn [encodeUnpadded sextets].
    assert (a / 4 < 64) by (apply N.Div0.div_lt_upper_bound; lia).
    assert (a mod 4 < 4) by (apply N.mod_lt; lia).
    assert (b mod 16 < 16) by (apply N.mod_lt; lia).
    assert (b / 16 < 16) by (apply N.Div0.div_lt_upper_bound; lia).
    assert (c mod 64 < 64) by (apply N.mod_lt; lia).
    assert (c / 64 < 4) by (apply N.Div0.div_lt_upper_bound; lia).
    rewrite !b64val_b64char by lia.
    destruct (sextets (encodeUnpadded r)) as [ws|]; [| congruence].
    split; [discriminate |]. intros vs E. inversion E; subst. cbn [decodeSextets].
    rewrite !sextet_div, !sextet_mod by lia.
    rewrite (IHd ws eq_refl).
    pose proof (N.div_mod a 4). pose proof (N.div_mod b 16). pose proof (N.div_mod c 64).
    f_equal; [lia |]. f_equal; [lia |]. f_equal. lia.
Qed.

Lemma filter_id (f : N -> bool) (s : jsstring) :
  Forall (fun c => f c = true) s -> List.filter f s = s.
Proof. induction 1 as [| c s Hc _ IH]; [reflexivity |]. simpl. rewrite Hc, IH. reflexivity. Qed.

Lemma encodeOctets_chars (l : list N) :
  Forall (fun c => isBase64Char c = true \/ c = 61) (encodeOctets l).
Proof.
  destruct (encodeOctets_padding l) as [pad [E [Hp _]]]. rewrite E.
  apply Forall_app. split.
  - eapply List.Forall_impl; [| apply encodeUnpadded_chars]. auto.
  - destruct Hp as [-> | [-> | ->]];
      repeat (apply List.Forall_cons; [right; reflexivity |]); apply List.Forall_nil.
Qed.

(** [atob] undoes [btoa]. *)
Lemma atob_btoa (s encoded : jsstring) : btoa s = Return encoded -> atob encoded = Return s.
Proof.
  unfold btoa. destruct (forallb _ s) eqn:F; [| discriminate].
  intros E. inversion E; subst encoded; clear E.
  assert (Hs : Forall (fun b => b < 256) s).
  { apply Forall_of_forallb in F. revert F. apply List.Forall_impl.
    intros c. apply N.ltb_lt. }
  unfold atob. rewrite filter_id.
  - rewrite stripPadding_encodeOctets.
    destruct (encodeOctets_padding s) as [pad [_ [_ [_ [L1 _]]]]].
    destruct (Nat.eqb_spec (length (encodeUnpadded s) mod 4) 1); [contradiction |].
    destruct (decode_encodeUnpadded s Hs) as [Hn Hd].
    destruct (sextets (encodeUnpadded s)) as [vs|]; [| congruence].
    rewrite (Hd vs eq_refl). reflexivity.
  - eapply List.Forall_impl; [| apply encodeOctets_chars].
    intros c [H | ->]; [| reflexivity].
    apply isBase64Char_facts in H. destruct H as [_ [H _]]. rewrite H. reflexivity.
Qed.

(** ** The JSON parser never runs out of fuel *)

Lemma skipWs_length (s : jsstring) : (length (skipWs s) <= length s)%nat.
Proof.
  induction s as [| c r IH]; [reflexivity |].
  cbn [skipWs]. destruct (isJsonWs c); cbn [length]; lia.
Qed.

Lemma skipWs_cons_length (s r : jsstring) (c : N) :
  skipWs s = c :: r -> (length r < length s)%nat.
Proof. intros H. pose proof (skipWs_length s) as L. rewrite H in L. cbn in L. lia. Qed.

Lemma consTo_length (c : N) (p : option (jsstring * jsstring)) (str r : jsstring) :
  consTo c p = Some (str, r) -> exists str', p = Some (str', r).
Proof.
  destruct p as [[str' r']|]; [| discriminate]. cbn. intros H. inversion H; subst.
  eexists; reflexivity.
Qed.

Lemma parseChars_length (n : nat) :
  forall s str r, (length s <= n)%nat -> parseChars s = Some (str, r) ->
                  (length r < length s)%nat.
Proof.
  induction n as [| n IH]; intros s str r Hn H.
  - destruct s; [discriminate | cbn in Hn; lia].
  - destruct s as [| c t]; [discriminate |].
    cbn [parseChars] in H. cbn [length] in *.
    destruct (c =? 34); [inversion H; subst; lia |].
    destruct (c =? 92).
    + destruct t as [| e r1]; [discriminate |]. cbn [length] in *.
      destruct (e =? 117).
      * destruct r1 as [| h1 [| h2 [| h3 [| h4 r2]]]]; try discriminate.
        destruct (hexVal h1), (hexVal h2), (hexVal h3), (hexVal h4); try discriminate.
        apply consTo_length in H. destruct H as [str' H].
        apply IH in H; cbn [length] in *; lia.
      * destruct (simpleEscape e); [| discriminate].
        apply consTo_length in H. destruct H as [str' H].
        apply IH in H; lia.
    + destruct (c <? 32); [discriminate |].
      apply consTo_length in H. destruct H as [str' H].
      apply IH in H; lia.
Qed.

Lemma spanDigits_length (s ds r : jsstring) :
  spanDigits s = (ds, r) -> length s = (length ds + length r)%nat.
Proof.
  revert ds r. induction s as [| c t IH]; intros ds r H.
  - inversion H. reflexivity.
  - cbn [spanDigits] in H. destruct (isDigit c).
    + destruct (spanDigits t) as [ds' r'] eqn:E. inversion H; subst.
      cbn [length]. rewrite (IH ds' r eq_refl). reflexivity.
    + inversion H; subst. reflexivity.
Qed.

Lemma parseNumber_length (s lx r : jsstring) :
  parseNumber s = Some (lx, r) -> (length r < length s)%nat.
Proof.
  unfold parseNumber.
  set (p := match s with
            | [] => ([], s)
            | c :: r0 => if c =? 45 then ([45], r0) else ([], s)
            end).
  assert (Hp : (length (snd p) <= length s)%nat).
  { unfold p. destruct s as [| c r0]; [reflexivity |].
    destruct (c =? 45); cbn; lia. }
  destruct p as [sign s1]. cbn [snd] in Hp.
  set (int := match s1 with
              | [] => None
              | c :: r0 =>
                  if c =? 48 then Some ([48], r0)
                  else if isDigit c then Some (spanDigits s1) else None
              end).
  assert (Hi : forall ip s2, int = Some (ip, s2) -> (length s2 < length s1)%nat).
  { unfold int. intros ip s2 H. destruct s1 as [| c r0]; [discriminate |].
    destruct (c =? 48); [inversion H; subst; cbn; lia |].
    destruct (isDigit c) eqn:D; [| discriminate].
    assert (E : spanDigits (c :: r0) = (ip, s2)) by congruence.
    pose proof (spanDigits_length _ _ _ E) as L.
    cbn [spanDigits] in E. rewrite D in E.
    destruct (spanDigits r0) as [ds' r']. inversion E; subst. cbn [length] in *. lia. }
  destruct int as [[ip s2]|]; [| discriminate].
  specialize (Hi ip s2 eq_refl).
  set (frac := match s2 with
               | [] => Some ([], s2)
               | c :: r0 =>
                   if c =? 46 then
                     match spanDigits r0 with
                     | ([], _) => None
                     | (ds, r') => Some (46 :: ds, r')
                     end
                   else Some ([], s2)
               end).
  assert (Hf : forall fp s3, frac = Some (fp, s3) -> (length s3 <= length s2)%nat).
  { unfold frac. intros fp s3 H. destruct s2 as [| c r0]; [inversion H; subst; lia |].
    destruct (c =? 46); [| inversion H; subst; lia].
    destruct (spanDigits r0) as [ds r'] eqn:E.
    apply spanDigits_length in E.
    destruct ds; [discriminate |]. inversion H; subst. cbn [length] in *. lia. }
  destruct frac as [[fp s3]|]; [| discriminate].
  specialize (Hf fp s3 eq_refl).
  set (ex := match s3 with
             | [] => Some ([], s3)
             | c :: r0 =>
                 if (c =? 101) || (c =? 69) then
                   let '(sg, r1) :=
                     match r0 with
                     | [] => ([], r0)
                     | x :: r' => if (x =? 43) || (x =? 45) then ([x], r') else ([], r0)
                     end in
                   match spanDigits r1 with
                   | ([], _) => None
                   | (ds, r') => Some (c :: sg ++ ds, r')
                   end
                 else Some ([], s3)
             end).
  assert (He : forall ep s4, ex = Some (ep, s4) -> (length s4 <= length s3)%nat).
  { unfold ex. intros ep s4 H. destruct s3 as [| c r0]; [inversion H; subst; lia |].
    destruct ((c =? 101) || (c =? 69)); [| inversion H; subst; lia].
    set (q := match r0 with
              | [] => ([], r0)
              | x :: r' => if (x =? 43) || (x =? 45) then ([x], r') else ([], r0)
              end) in H.
    assert (Hq : (length (snd q) <= length r0)%nat).
    { unfold q. destruct r0 as [| x r']; [reflexivity |].
      destruct ((x =? 43) || (x =? 45)); cbn; lia. }
    destruct q as [sg r1]. cbn [snd] in Hq.
    destruct (spanDigits r1) as [ds r'] eqn:E.
    apply spanDigits_length in E.
    destruct ds; [discriminate |]. inversion H; subst. cbn [length] in *. lia. }
  destruct ex as [[ep s4]|]; [| discriminate].
  specialize (He ep s4 eq_refl).
  intros H. inversion H; subst. lia.
Qed.

Lemma startsWith_length (p s : jsstring) :
  startsWith s p = true -> (length p <= length s)%nat.
Proof.
  revert s. induction p as [| a p IH]; intros s Hs; [cbn; lia |].
  destruct s as [| b s]; [discriminate |]. cbn in Hs.
  apply andb_true_iff in Hs. destruct Hs as [_ Hs]. apply IH in Hs. cbn. lia.
Qed.

Lemma parseLiteral_length (s : jsstring) (v : json) (r : jsstring) :
  parseLiteral s = Some (v, r) -> (length r < length s)%nat.
Proof.
  unfold parseLiteral. intros H.
  destruct (startsWith s (lit "true")) eqn:E1.
  { inversion H; subst. apply startsWith_length in E1.
    change (length (lit "true")) with 4%nat in E1. rewrite length_skipn. lia. }
  destruct (startsWith s (lit "false")) eqn:E2.
  { inversion H; subst. apply startsWith_length in E2.
    change (length (lit "false")) with 5%nat in E2. rewrite length_skipn. lia. }
  destruct (startsWith s (lit "null")) eqn:E3; [| discriminate].
  inversion H; subst. apply startsWith_length in E3.
  change (length (lit "null")) with 4%nat in E3. rewrite length_skipn. lia.
Qed.

Lemma parse_fuel_enough (fuel : nat) :
  (forall s, (2 * length s + 2 <= fuel)%nat -> fuelOk (parseValue fuel s) s)
  /\ (forall s acc, (2 * length s + 3 <= fuel)%nat -> fuelOk (parseElements fuel s acc) s)
  /\ (forall s acc, (2 * length s + 3 <= fuel)%nat -> fuelOk (parseMembers fuel s acc) s).
Proof.
  induction fuel as [| f [IHv [IHe IHm]]].
  - repeat split; intros; lia.
  - split; [| split].
    + intros s Hs. cbn [parseValue].
      destruct (skipWs s) as [| c r] eqn:Ew; [split; [discriminate | discriminate] |].
      apply skipWs_cons_length in Ew.
      destruct (c =? 34).
      { destruct (parseChars r) as [[str r']|] eqn:Ec; [| split; discriminate].
        apply (parseChars_length _ _ _ _ (le_n _)) in Ec.
        split; [discriminate |]. intros v r0 H. inversion H; subst. lia. }
      destruct (c =? 91).
      { destruct (skipWs r) as [| c1 r1] eqn:Ew1; [split; discriminate |].
        apply skipWs_cons_length in Ew1.
        destruct (c1 =? 93).
        - split; [discriminate |]. intros v r0 H. inversion H; subst. lia.
        - destruct (IHe r [] ltac:(lia)) as [H1 H2].
          split; [exact H1 |]. intros v r0 H. apply H2 in H. lia. }
      destruct (c =? 123).
      { destruct (skipWs r) as [| c1 r1] eqn:Ew1; [split; discriminate |].
        apply skipWs_cons_length in Ew1.
        destruct (c1 =? 125).
        - split; [discriminate |]. intros v r0 H. inversion H; subst. lia.
        - destruct (IHm r [] ltac:(lia)) as [H1 H2].
          split; [exact H1 |]. intros v r0 H. apply H2 in H. lia. }
      destruct ((c =? 45) || isDigit c).
      { destruct (parseNumber (c :: r)) as [[lx r']|] eqn:En; [| split; discriminate].
        apply parseNumber_length in En. cbn [length] in En.
        split; [discriminate |]. intros v r0 H. inversion H; subst. lia. }
      destruct (parseLiteral (c :: r)) as [[v' r']|] eqn:El; [| split; discriminate].
      apply parseLiteral_length in El. cbn [length] in El.
      split; [discriminate |]. intros v r0 H. inversion H; subst. lia.
    + intros s acc Hs. cbn [parseElements].
      destruct (IHv s ltac:(lia)) as [H1 H2].
      destruct (parseValue f s) as [v r1| |]; [| split; discriminate | congruence].
      specialize (H2 v r1 eq_refl).
      destruct (skipWs r1) as [| c r2] eqn:Ew; [split; discriminate |].
      apply skipWs_cons_length in Ew.
      destruct (c =? 44).
      { destruct (IHe r2 (v :: acc) ltac:(lia)) as [H3 H4].
        split; [exact H3 |]. intros v0 r0 H. apply H4 in H. lia. }
      destruct (c =? 93); [| split; discriminate].
      split; [discriminate |]. intros v0 r0 H. inversion H; subst. lia.
    + intros s acc Hs. cbn [parseMembers].
      destruct (skipWs s) as [| q r0] eqn:Ew; [split; discriminate |].
      apply skipWs_cons_length in Ew.
      destruct (q =? 34); [| split; discriminate].
      destruct (parseChars r0) as [[key r1]|] eqn:Ec; [| split; discriminate].
      apply (parseChars_length _ _ _ _ (le_n _)) in Ec.
      destruct (skipWs r1) as [| c r2] eqn:Ew1; [split; discriminate |].
      apply skipWs_cons_length in Ew1.
      destruct (c =? 58); [| split; discriminate].
      destruct (IHv r2 ltac:(lia)) as [H1 H2].
      destruct (parseValue f r2) as [v r3| |]; [| split; discriminate | congruence].
      specialize (H2 v r3 eq_refl).
      destruct (skipWs r3) as [| c' r4] eqn:Ew3; [split; discriminate |].
      apply skipWs_cons_length in Ew3.
      destruct (c' =? 44).
      { destruct (IHm r4 ((key, v) :: acc) ltac:(lia)) as [H3 H4].
        split; [exact H3 |]. intros v0 r H. apply H4 in H. lia. }
      destruct (c' =? 125); [| split; discriminate].
      split; [discriminate |]. intros v0 r H. inversion H; subst. lia.
Qed.

(** The fuel [JSON_parse] gives the parser is always enough: a
    [SyntaxError] is a syntax error of the text. *)
Lemma JSON_parse_fuel (s : jsstring) : parseValue (parseFuel s) s <> PFuel.
Proof.
  destruct (parse_fuel_enough (parseFuel s)) as [H _].
  apply (H s). unfold parseFuel. lia.
Qed.

(** ** JSON text of string arrays *)

Lemma list_ind2 (P : list N -> Prop) :
  P [] -> (forall a, P [a]) ->
  (forall a b r, P r -> P (b :: r) -> P (a :: b :: r)) ->
  forall l, P l.
Proof.
  intros H0 H1 H2.
  assert (H : forall l, P l /\ forall a, P (a :: l)).
  { induction l as [| x l [IH0 IH1]]; [auto |].
    split; [apply IH1 |]. intros a. apply H2; [exact IH0 | apply IH1]. }
  intros l. apply H.
Qed.

Lemma hexVal_hexDigit (v : N) : v < 16 -> hexVal (hexDigit v) = Some v.
Proof.
  intros Hv. assert (Hb : v < 256) by lia.
  apply (byte_enum (fun x =>
    if x <? 16 then bool_decide (hexVal (hexDigit x) = Some x) else true)) in Hb;
    [| vm_compute; reflexivity].
  rewrite (proj2 (N.ltb_lt v 16) Hv) in Hb. apply bool_decide_eq_true in Hb. exact Hb.
Qed.

Lemma hex4_value (c : N) :
  c < 65536 ->
  4096 * (c / 4096 mod 16) + 256 * (c / 256 mod 16) + 16 * (c / 16 mod 16) + c mod 16 = c.
Proof.
  intros Hc.
  assert (E1 : c / 256 = c / 16 / 16) by (rewrite N.Div0.div_div; reflexivity).
  assert (E2 : c / 4096 = c / 16 / 16 / 16) by (rewrite !N.Div0.div_div; reflexivity).
  rewrite E2, E1.
  pose proof (N.div_mod c 16 ltac:(lia)) as D1.
  pose proof (N.div_mod (c / 16) 16 ltac:(lia)) as D2.
  pose proof (N.div_mod (c / 16 / 16) 16 ltac:(lia)) as D3.
  assert (B : c / 16 / 16 / 16 < 16).
  { rewrite !N.Div0.div_div. apply N.Div0.div_lt_upper_bound. exact Hc. }
  rewrite (N.mod_small _ _ B). lia.
Qed.

Lemma parseChars_plain (c : N) (t : jsstring) :
  (c =? 34) = false -> (c =? 92) = false -> (c <? 32) = false ->
  parseChars (c :: t) = consTo c (parseChars t).
Proof. intros H1 H2 H3. cbn [parseChars]. rewrite H1, H2, H3. reflexivity. Qed.

Lemma parseChars_unicodeEscape (c : N) (t : jsstring) :
  c < 65536 -> parseChars (unicodeEscape c ++ t) = consTo c (parseChars t).
Proof.
  intros Hc. unfold unicodeEscape. cbn [app parseChars].
  change (92 =? 34) with false. change (92 =? 92) with true.
  change (117 =? 117) with true. cbv iota.
  rewrite !hexVal_hexDigit by (apply N.mod_lt; discriminate).
  rewrite (hex4_value c Hc). reflexivity.
Qed.

Lemma parseChars_quoteUnit (c : N) (t : jsstring) :
  isHighSurrogate c = false -> isLowSurrogate c = false ->
  parseChars (quoteUnit c ++ t) = consTo c (parseChars t).
Proof.
  intros _ _. unfold quoteUnit.
  destruct (N.eqb_spec c 8); [subst; reflexivity |].
  destruct (N.eqb_spec c 9); [subst; reflexivity |].
  destruct (N.eqb_spec c 10); [subst; reflexivity |].
  destruct (N.eqb_spec c 12); [subst; reflexivity |].
  destruct (N.eqb_spec c 13); [subst; reflexivity |].
  destruct (N.eqb_spec c 34); [subst; reflexivity |].
  destruct (N.eqb_spec c 92); [subst; reflexivity |].
  destruct (N.ltb_spec c 32).
  - apply parseChars_unicodeEscape. lia.
  - cbn [app]. apply parseChars_plain.
    + apply N.eqb_neq. assumption.
    + apply N.eqb_neq. assumption.
    + apply N.ltb_ge. assumption.
Qed.

Lemma surrogate_plain (c : N) :
  isHighSurrogate c = true \/ isLowSurrogate c = true ->
  (c =? 34) = false /\ (c =? 92) = false /\ (c <? 32) = false /\ c < 65536.
Proof.
  unfold isHighSurrogate, isLowSurrogate.
  rewrite !andb_true_iff, !N.leb_le, !N.ltb_lt. intros H.
  repeat split; try (apply N.eqb_neq; lia); try (apply N.ltb_ge; lia). lia.
Qed.

(** Reading a quoted string gives the string back, for every list of
    code units. *)
Lemma parseChars_quoteUnits (s rest : jsstring) :
  parseChars (quoteUnits s ++ 34 :: rest) = Some (s, rest).
Proof.
  induction s as [| a | a b r IHr IHbr] using list_ind2.
  - reflexivity.
  - cbn [quoteUnits].
    destruct (isHighSurrogate a) eqn:Ha.
    + rewrite parseChars_unicodeEscape by (apply surrogate_plain; auto). reflexivity.
    + destruct (isLowSurrogate a) eqn:La.
      * rewrite <- app_assoc, parseChars_unicodeEscape by (apply surrogate_plain; auto).
        reflexivity.
      * rewrite <- app_assoc, parseChars_quoteUnit by assumption. reflexivity.
  - change (quoteUnits (a :: b :: r)) with
      (if isHighSurrogate a then
         if isLowSurrogate b then a :: b :: quoteUnits r
         else unicodeEscape a ++ quoteUnits (b :: r)
       else if isLowSurrogate a then unicodeEscape a ++ quoteUnits (b :: r)
       else quoteUnit a ++ quoteUnits (b :: r)).
    destruct (isHighSurrogate a) eqn:Ha.
    + destruct (isLowSurrogate b) eqn:Lb.
      * destruct (surrogate_plain a (or_introl Ha)) as [A1 [A2 [A3 _]]].
        destruct (surrogate_plain b (or_intror Lb)) as [B1 [B2 [B3 _]]].
        cbn [app]. rewrite (parseChars_plain a _ A1 A2 A3), (parseChars_plain b _ B1 B2 B3).
        rewrite IHr. reflexivity.
      * rewrite <- app_assoc, parseChars_unicodeEscape by (apply surrogate_plain; auto).
        rewrite IHbr. reflexivity.
    + destruct (isLowSurrogate a) eqn:La.
      * rewrite <- app_assoc, parseChars_unicodeEscape by (apply surrogate_plain; auto).
        rewrite IHbr. reflexivity.
      * rewrite <- app_assoc, parseChars_quoteUnit by assumption.
        rewrite IHbr. reflexivity.
Qed.

Lemma parseValue_string (fuel : nat) (s rest : jsstring) :
  (1 <= fuel)%nat ->
  parseValue fuel (QuoteJSONString s ++ rest) = POk (JString s) rest.
Proof.
  intros Hf. destruct fuel as [| f]; [lia |].
  unfold QuoteJSONString. rewrite <- !app_assoc. cbn [app parseValue skipWs].
  change (isJsonWs 34) with false. cbv iota.
  change (34 =? 34) with true. cbv iota.
  rewrite parseChars_quoteUnits. reflexivity.
Qed.

Lemma parseElements_strings (l : list jsstring) :
  forall (x : jsstring) (acc : list json) (rest : jsstring) (fuel : nat),
    (length l + 2 <= fuel)%nat ->
    parseElements fuel (joinComma (List.map QuoteJSONString (x :: l)) ++ 93 :: rest) acc
    = POk (JArray (rev acc ++ List.map JString (x :: l))) rest.
Proof.
  induction l as [| y l IH]; intros x acc rest fuel Hf.
  - destruct fuel as [| f]; [cbn in Hf; lia |].
    cbn [List.map joinComma parseElements].
    rewrite parseValue_string by (cbn in Hf; lia). cbn [skipWs].
    change (isJsonWs 93) with false. cbv iota.
    change (93 =? 44) with false. change (93 =? 93) with true. cbv iota.
    cbn [rev]. reflexivity.
  - destruct fuel as [| f]; [cbn in Hf; lia |].
    change (joinComma (List.map QuoteJSONString (x :: y :: l)))
      with (QuoteJSONString x ++ [44] ++ joinComma (List.map QuoteJSONString (y :: l))).
    rewrite <- !app_assoc. cbn [parseElements].
    rewrite parseValue_string by (cbn in Hf; lia). cbn [app skipWs].
    change (isJsonWs 44) with false. cbv iota.
    change (44 =? 44) with true. cbv iota.
    rewrite IH by (cbn in Hf |- *; lia).
    cbn [rev List.map]. rewrite <- app_assoc. reflexivity.
Qed.

Lemma joinComma_length (l : list jsstring) :
  (length l <= length (joinComma (List.map QuoteJSONString l)))%nat.
Proof.
  induction l as [| x l IH]; [cbn; lia |].
  destruct l as [| y l].
  - cbn [List.map joinComma]. unfold QuoteJSONString. rewrite !length_app. cbn. lia.
  - change (joinComma (List.map QuoteJSONString (x :: y :: l)))
      with (QuoteJSONString x ++ [44] ++ joinComma (List.map QuoteJSONString (y :: l))).
    rewrite !length_app. cbn [length] in *. lia.
Qed.

Lemma parseValue_strings (x : jsstring) (l : list jsstring) (rest : jsstring) (fuel : nat) :
  (length l + 3 <= fuel)%nat ->
  parseValue fuel (91 :: joinComma (List.map QuoteJSONString (x :: l)) ++ 93 :: rest)
  = POk (JArray (List.map JString (x :: l))) rest.
Proof.
  intros Hf. destruct fuel as [| f]; [lia |].
  assert (Hb : exists t, joinComma (List.map QuoteJSONString (x :: l)) = 34 :: t).
  { destruct l; cbn [List.map joinComma]; unfold QuoteJSONString; eexists; reflexivity. }
  destruct Hb as [t Hb].
  cbn [parseValue skipWs]. change (isJsonWs 91) with false. cbv iota.
  change (91 =? 34) with false. change (91 =? 91) with true. cbv iota.
  rewrite Hb at 1. cbn [app skipWs]. change (isJsonWs 34) with false. cbv iota.
  change (34 =? 93) with false. cbv iota.
  apply (parseElements_strings l x [] rest f). lia.
Qed.

(** [JSON.parse] undoes [JSON.stringify] on arrays of strings. *)
Lemma JSON_parse_stringify_strings (l : list jsstring) :
  JSON_parse (JSON_stringify_strings l) = Return (JArray (List.map JString l)).
Proof.
  unfold JSON_parse, JSON_stringify_strings, parseFuel.
  destruct l as [| x l]; [reflexivity |].
  pose proof (joinComma_length (x :: l)) as L.
  cbn [app]. rewrite parseValue_strings; [reflexivity |].
  cbn [length] in *. rewrite length_app. cbn [length]. lia.
Qed.

(** ** The approved-clients cookie *)

(** C2: the code at a request whose approved-clients cookie has a payload
    that is not base64.  [atob] raises [InvalidCharacterError], nothing
    catches it, and [isClientApproved] throws instead of returning
    [false]. *)
Theorem C2_isClientApproved_throws_on_bad_base64 :
  isClientApproved (requestWith [] (Some (lit "__Host-APPROVED_CLIENTS=00.!")))
    (lit "abc123") (lit "cookie-secret")
  = Throw InvalidCharacterError.
Proof. vm_compute. reflexivity. Qed.

(** Apart from that exception (and a secret that does not import), the
    lookup fails closed: it returns a boolean. *)
Lemma getApprovedClientsFromCookie_outcomes (req : Request) (k : jsstring) :
  k <> [] ->
  (exists o, getApprovedClientsFromCookie req k = Return o)
  \/ getApprovedClientsFromCookie req k = Throw InvalidCharacterError.
Proof.
  intros Hk. unfold getApprovedClientsFromCookie.
  destruct (present (cookieHeader req)) as [h|]; [| left; eexists; reflexivity].
  destruct (present (find _ _)) as [c|]; [| left; eexists; reflexivity].
  destruct (split 46 _) as [| sg [| pl [| x l]]]; try (left; eexists; reflexivity).
  unfold atob.
  destruct (_ =? 1)%nat; [right; reflexivity |].
  destruct (sextets _) as [vs|]; [| right; reflexivity].
  cbn [bind]. rewrite (verifySignature_nonempty _ _ _ Hk). cbn [bind].
  destruct (bool_decide _); cbn [negb]; [| left; eexists; reflexivity].
  destruct (JSON_parse _) as [v|]; cbn [bind catch]; [| left; eexists; reflexivity].
  destruct v; left; eexists; reflexivity.
Qed.

Lemma isClientApproved_outcomes (req : Request) (clientId k : jsstring) :
  k <> [] ->
  (exists b, isClientApproved req clientId k = Return b)
  \/ isClientApproved req clientId k = Throw InvalidCharacterError.
Proof.
  intros Hk. unfold isClientApproved.
  destruct (getApprovedClientsFromCookie_outcomes req k Hk) as [[o H] | H]; rewrite H.
  - left. eexists. reflexivity.
  - right. reflexivity.
Qed.

Lemma isClientApproved_no_cookie (req : Request) (clientId k : jsstring) :
  present (cookieHeader req) = None -> isClientApproved req clientId k = Return false.
Proof.
  intros H. unfold isClientApproved, getApprovedClientsFromCookie. rewrite H. reflexivity.
Qed.

Lemma includes_In (l : list jsstring) (x : jsstring) : includes l x = true <-> In x l.
Proof.
  unfold includes. rewrite existsb_exists. split.
  - intros [y [Hy E]]. apply jsstring_eqb_eq in E. subst. exact Hy.
  - intros H. exists x. split; [exact H | apply jsstring_eqb_refl].
Qed.

Lemma stringItems_Some (items : list json) (l : list jsstring) :
  stringItems items = Some l -> items = List.map JString l.
Proof.
  revert l. induction items as [| v items IH]; intros l H.
  - inversion H. reflexivity.
  - destruct v; try discriminate. simpl in H.
    destruct (stringItems items) as [l'|]; [| discriminate].
    inversion H; subst. simpl. f_equal. apply IH. reflexivity.
Qed.

(** Fail closed: the answer is [true] only for a cookie of the form
    [signature.payload] whose payload decodes, whose signature bytes are
    the tag of the decoded payload, and whose payload parses to an array
    of strings that holds the client. *)
Lemma isClientApproved_true_only_if (req : Request) (clientId k : jsstring) :
  k <> [] ->
  isClientApproved req clientId k = Return true ->
  exists value sig b64 payload l,
    requestCookie (lit "__Host-APPROVED_CLIENTS") req = Some value
    /\ split 46 value = [sig; b64]
    /\ atob b64 = Return payload
    /\ signatureBytes sig = tag payload k
    /\ JSON_parse payload = Return (JArray (List.map JString l))
    /\ In clientId l.
Proof.
  intros Hk. unfold isClientApproved, getApprovedClientsFromCookie, requestCookie.
  change (lit "__Host-APPROVED_CLIENTS" ++ lit "=") with (lit "__Host-APPROVED_CLIENTS=").
  change (length (lit "__Host-APPROVED_CLIENTS") + 1)%nat
    with (length (lit "__Host-APPROVED_CLIENTS=")).
  destruct (present (cookieHeader req)) as [h|] eqn:Eh; [| discriminate].
  apply present_Some in Eh. destruct Eh as [Eh _]. rewrite Eh. cbn [default from_option id].
  rewrite present_find_startsWith by discriminate.
  destruct (find _ _) as [c|]; [| discriminate].
  destruct (split 46 _) as [| sig [| b64 [| x r]]] eqn:Es; try discriminate.
  destruct (atob b64) as [payload|] eqn:Ea; [| discriminate]. cbn [bind].
  rewrite (verifySignature_nonempty _ _ _ Hk). cbn [bind].
  destruct (bool_decide _) eqn:Ev; cbn [negb]; [| discriminate].
  apply bool_decide_eq_true in Ev.
  destruct (JSON_parse payload) as [v|] eqn:Ep; cbn [bind catch]; [| discriminate].
  destruct v as [| | | | items |]; try discriminate.
  destruct (stringItems items) as [l|] eqn:Ei; [| discriminate].
  intros H. inversion H as [Hin]. apply includes_In in Hin.
  apply stringItems_Some in Ei. subst items.
  exists (substring c (length (lit "__Host-APPROVED_CLIENTS="))), sig, b64, payload, l.
  auto 10.
Qed.

(** C8: the code at the same request as for C2.  The invalid cookie is
    not treated as the empty approved set: [addApprovedClient] throws and
    emits no cookie. *)
Theorem C8_addApprovedClient_throws_on_bad_base64 :
  addApprovedClient (requestWith [] (Some (lit "__Host-APPROVED_CLIENTS=00.!")))
    (lit "abc123") (lit "cookie-secret")
  = Throw InvalidCharacterError.
Proof. vm_compute. reflexivity. Qed.

(** *** Approving twice *)

Lemma uniqueInOrder_snoc (l : list jsstring) (x : jsstring) :
  uniqueInOrder (l ++ [x]) = addOnce (uniqueInOrder l) x.
Proof. unfold uniqueInOrder. rewrite fold_left_app. reflexivity. Qed.

Lemma addOnce_NoDup (acc : list jsstring) (x : jsstring) :
  List.NoDup acc -> List.NoDup (addOnce acc x).
Proof.
  intros H. unfold addOnce. destruct (includes acc x) eqn:E; [exact H |].
  apply List.NoDup_app; [exact H | repeat constructor; simpl; tauto |].
  intros y Hy [-> | []]. apply includes_In in Hy. congruence.
Qed.

Lemma fold_addOnce_NoDup (l acc : list jsstring) :
  List.NoDup acc -> List.NoDup (fold_left addOnce l acc).
Proof.
  revert acc. induction l as [| x l IH]; intros acc H; [exact H |].
  simpl. apply IH, addOnce_NoDup, H.
Qed.

Lemma uniqueInOrder_NoDup (l : list jsstring) : List.NoDup (uniqueInOrder l).
Proof. apply (fold_addOnce_NoDup l []). constructor. Qed.

Lemma addOnce_In (acc : list jsstring) (x : jsstring) : In x (addOnce acc x).
Proof.
  unfold addOnce. destruct (includes acc x) eqn:E.
  - apply includes_In. exact E.
  - apply in_or_app. right. left. reflexivity.
Qed.

Lemma addOnce_present (acc : list jsstring) (x : jsstring) : In x acc -> addOnce acc x = acc.
Proof. intros H. unfold addOnce. rewrite (proj2 (includes_In acc x) H). reflexivity. Qed.

Lemma fold_addOnce_fresh (l acc : list jsstring) :
  List.NoDup (acc ++ l) -> fold_left addOnce l acc = acc ++ l.
Proof.
  revert acc. induction l as [| x l IH]; intros acc H; [symmetry; apply app_nil_r |].
  simpl. unfold addOnce at 2.
  destruct (includes acc x) eqn:E.
  - apply includes_In in E. apply List.NoDup_remove_2 in H.
    exfalso. apply H. apply in_or_app. left. exact E.
  - rewrite IH; rewrite <- app_assoc; [reflexivity | exact H].
Qed.

Lemma uniqueInOrder_fixed (l : list jsstring) : List.NoDup l -> uniqueInOrder l = l.
Proof. intros H. apply (fold_addOnce_fresh l []). exact H. Qed.

Lemma stringItems_strings (l : list jsstring) : stringItems (List.map JString l) = Some l.
Proof. induction l as [| x l IH]; [reflexivity |]. simpl. rewrite IH. reflexivity. Qed.

Lemma signData_Return (d k sig : jsstring) :
  signData d k = Return sig -> k <> [] /\ sig = hexOfBytes (tag d k).
Proof.
  intros H. assert (Hk : k <> []).
  { intros ->. discriminate H. }
  split; [exact Hk |]. rewrite (signData_nonempty d k Hk) in H. congruence.
Qed.

Lemma encoded_chars (s enc : jsstring) :
  btoa s = Return enc ->
  Forall (fun c => isWhiteSpace c = false) enc
  /\ Forall (fun c => (c =? 59) = false) enc
  /\ Forall (fun c => (c =? 46) = false) enc.
Proof.
  unfold btoa. destruct (forallb _ s); [| discriminate]. intros E. inversion E; subst.
  pose proof (encodeOctets_chars s) as H.
  repeat split; (eapply List.Forall_impl; [| exact H]);
    intros c [Hc | ->]; try reflexivity; apply isBase64Char_facts in Hc; tauto.
Qed.

(** The cookie [addApprovedClient] emits for the list [l], read back. *)
Lemma getApprovedClientsFromCookie_emitted
    (l : list jsstring) (k enc : jsstring) (q : list (jsstring * jsstring)) :
  k <> [] ->
  btoa (JSON_stringify_strings l) = Return enc ->
  getApprovedClientsFromCookie
    (requestWith q
       (Some (lit "__Host-APPROVED_CLIENTS=" ++ hexOfBytes (tag (JSON_stringify_strings l) k)
              ++ lit "." ++ enc))) k
  = Return (Some l).
Proof.
  intros Hk Henc.
  set (payload := JSON_stringify_strings l) in *.
  set (sig := hexOfBytes (tag payload k)).
  destruct (encoded_chars _ _ Henc) as [Ew [Es Ed]].
  assert (Sl : Forall (fun c => isLowerHex c = true) sig)
    by (apply hexOfBytes_lower, hmac_bytes).
  set (header := lit "__Host-APPROVED_CLIENTS=" ++ sig ++ lit "." ++ enc).
  assert (Hw : Forall (fun c => isWhiteSpace c = false) header).
  { unfold header. repeat (apply Forall_app; split); auto using Forall_lower_nonws;
      apply Forall_negb; vm_compute; reflexivity. }
  assert (Hs : Forall (fun c => (c =? 59) = false) header).
  { unfold header. repeat (apply Forall_app; split); auto using Forall_lower_nonsemi;
      apply Forall_negb; vm_compute; reflexivity. }
  unfold getApprovedClientsFromCookie, requestWith. cbn [cookieHeader].
  assert (Hp : forall o : option jsstring, o = Some header -> present o = Some header).
  { intros o ->. apply present_Some. split; [reflexivity |]. unfold header. discriminate. }
  rewrite Hp by reflexivity. rewrite (cookiesOf_single header Hw Hs). cbn [find].
  unfold header at 1. rewrite startsWith_app. rewrite Hp by reflexivity.
  unfold header, substring. rewrite skipn_prefix.
  change (lit ".") with [46]. cbn [app].
  rewrite (split_app_sep 46 sig enc (Forall_lower_nondot _ Sl)).
  rewrite (split_no_sep 46 enc Ed).
  rewrite (atob_btoa _ _ Henc). cbn [bind].
  rewrite (verifySignature_nonempty _ _ _ Hk). cbn [bind].
  unfold sig. rewrite signatureBytes_hexOfBytes by apply hmac_bytes.
  rewrite (bool_decide_eq_true_2 _ eq_refl). cbn [negb].
  unfold payload. rewrite JSON_parse_stringify_strings. cbn [bind catch].
  rewrite stringItems_strings. reflexivity.
Qed.

Lemma addApprovedClient_Return (req : Request) (c k cookie : jsstring) :
  addApprovedClient req c k = Return cookie ->
  exists approved enc,
    getApprovedClientsFromCookie req k = Return approved
    /\ k <> []
    /\ btoa (JSON_stringify_strings (uniqueInOrder (default [] approved ++ [c]))) = Return enc
    /\ cookie = lit "__Host-APPROVED_CLIENTS="
                ++ hexOfBytes (tag (JSON_stringify_strings
                                      (uniqueInOrder (default [] approved ++ [c]))) k)
                ++ lit "." ++ enc
                ++ lit "; HttpOnly; Secure; Path=/; SameSite=Lax; Max-Age=2592000".
Proof.
  unfold addApprovedClient. intros H.
  destruct (getApprovedClientsFromCookie req k) as [approved|]; [| discriminate].
  cbn [bind] in H.
  destruct (signData _ k) as [sig|] eqn:Es; [| discriminate].
  cbn [bind] in H.
  destruct (btoa _) as [enc|] eqn:Eb; [| discriminate].
  cbn [bind] in H. inversion H; subst; clear H.
  apply signData_Return in Es. destruct Es as [Hk ->].
  exists approved, enc. auto.
Qed.

Lemma cookiePair_emitted (sig enc : jsstring) :
  Forall (fun c => isLowerHex c = true) sig ->
  Forall (fun c => (c =? 59) = false) enc ->
  cookiePair (lit "__Host-APPROVED_CLIENTS=" ++ sig ++ lit "." ++ enc
              ++ lit "; HttpOnly; Secure; Path=/; SameSite=Lax; Max-Age=2592000")
  = lit "__Host-APPROVED_CLIENTS=" ++ sig ++ lit "." ++ enc.
Proof.
  intros Hs He.
  change (lit "; HttpOnly; Secure; Path=/; SameSite=Lax; Max-Age=2592000")
    with (59 :: lit " HttpOnly; Secure; Path=/; SameSite=Lax; Max-Age=2592000").
  rewrite !app_assoc. rewrite cookiePair_app; [reflexivity |].
  repeat (apply Forall_app; split); auto using Forall_lower_nonsemi;
    apply Forall_negb; vm_compute; reflexivity.
Qed.

(** Idempotence with set semantics: whenever a first approval returns a
    cookie, a second approval of the same client on a request that sends
    that cookie back reads a list that holds the client exactly once and
    emits the same cookie again. *)
Lemma addApprovedClient_idempotent
    (req : Request) (c k cookie : jsstring) (q : list (jsstring * jsstring)) :
  addApprovedClient req c k = Return cookie ->
  exists l,
    getApprovedClientsFromCookie (requestWith q (Some (cookiePair cookie))) k
      = Return (Some l)
    /\ count_occ (List.list_eq_dec N.eq_dec) l c = 1%nat
    /\ addApprovedClient (requestWith q (Some (cookiePair cookie))) c k = Return cookie.
Proof.
  intros H.
  destruct (addApprovedClient_Return _ _ _ _ H) as [approved [enc [_ [Hk [Hb ->]]]]].
  set (l := uniqueInOrder (default [] approved ++ [c])) in *.
  assert (Hnd : List.NoDup l) by apply uniqueInOrder_NoDup.
  assert (Hin : In c l).
  { unfold l. rewrite uniqueInOrder_snoc. apply addOnce_In. }
  destruct (encoded_chars _ _ Hb) as [_ [Es _]].
  rewrite cookiePair_emitted by (auto; apply hexOfBytes_lower, hmac_bytes).
  pose proof (getApprovedClientsFromCookie_emitted l k enc q Hk Hb) as Hg.
  exists l. split; [exact Hg |]. split.
  - apply List.NoDup_count_occ'; assumption.
  - unfold addApprovedClient.
    match goal with
    | |- context [getApprovedClientsFromCookie ?r k] =>
        replace (getApprovedClientsFromCookie r k) with (Return (Some l))
          by (symmetry; exact Hg)
    end.
    cbn [bind default from_option id].
    rewrite uniqueInOrder_snoc, (uniqueInOrder_fixed l Hnd), (addOnce_present l c Hin).
    fold l. rewrite (signData_nonempty _ _ Hk), Hb. reflexivity.
Qed.

(** A client identifier with a code unit above 255 (here U+2603) makes
    [btoa] throw on the serialized list. *)
Example addApprovedClient_non_latin1 :
  addApprovedClient (requestWith [] None) [9731] (lit "cookie-secret")
  = Throw InvalidCharacterError.
Proof. vm_compute. reflexivity. Qed.

(** ** The consent submission handler *)

(** C6: when [validateCSRFToken] throws, the handler answers with the
    error's JSON response, whose only header is the content type (no
    cookie is issued), and returns the namespace it was given (no state
    record is written); and a redirect (status 302), the only response
    that records an approval, is produced only after the validation has
    succeeded. *)
Theorem C6_csrf_failure_applies_no_side_effect
    (JSON_stringify : json -> jsstring) (Error_message : Exn -> jsstring)
    (Object_fromEntries : list (jsstring * jsstring) -> list (jsstring * jsstring))
    (Number_isZero : jsstring -> bool)
    (env : Env) (uuid : jsstring) (formData : FormData) (req : Request) (kv : KV) :
  (forall e, validateCSRFToken formData req = Throw e ->
     exists code description statusCode r,
       e = OAuthError code description statusCode
       /\ toResponse code description statusCode = Return r
       /\ postAuthorize JSON_stringify Error_message Object_fromEntries Number_isZero
            env uuid (Return formData) req kv
          = (Return r, kv)
       /\ headers r = [(lit "Content-Type", lit "application/json")])
  /\ (forall resp kv',
        postAuthorize JSON_stringify Error_message Object_fromEntries Number_isZero
          env uuid (Return formData) req kv = (Return resp, kv') ->
        status resp = 302 \/ kv' <> kv ->
        exists r, validateCSRFToken formData req = Return r).
Proof.
  split.
  - intros e H.
    destruct (validateCSRFToken_throws formData req e H) as [d [He _]].
    subst e. exists (lit "invalid_request"), d, 400. eexists.
    split; [reflexivity |]. split; [apply toResponse_400 |]. split; [| reflexivity].
    unfold postAuthorize, postAuthorizeBody. rewrite H. apply f_equal2; [| reflexivity].
    apply toResponse_400.
  - intros resp kv' H Hside.
    destruct (validateCSRFToken formData req) as [r|e] eqn:E; [eexists; reflexivity |].
    exfalso.
    destruct (validateCSRFToken_throws formData req e E) as [d [He _]].
    subst e. unfold postAuthorize, postAuthorizeBody in H. rewrite E in H.
    rewrite toResponse_400 in H.
    inversion H; subst. destruct Hside as [Hs | Hk]; [discriminate Hs | congruence].
Qed.

Lemma C6_csrf_failure_witness :
  exists r,
    toResponse (lit "invalid_request") (lit "CSRF token mismatch") 400 = Return r
    /\ postAuthorize (fun _ => []) (fun _ => []) (fun l => l) (fun _ => false)
         {| COOKIE_ENCRYPTION_KEY := lit "cookie-secret";
            NOTION_OAUTH_CLIENT_ID := lit "notion-client" |}
         (lit "S1")
         (Return [(lit "csrf_token", FormString (lit "T1"));
                  (lit "state", FormString (lit "e30="))])
         (requestWith [] (Some (lit "__Host-CSRF_TOKEN=T2"))) ∅
       = (Return r, ∅).
Proof.
  destruct (proj1 (C6_csrf_failure_applies_no_side_effect
              (fun _ => []) (fun _ => []) (fun l => l) (fun _ => false)
              {| COOKIE_ENCRYPTION_KEY := lit "cookie-secret";
                 NOTION_OAUTH_CLIENT_ID := lit "notion-client" |}
              (lit "S1")
              [(lit "csrf_token", FormString (lit "T1")); (lit "state", FormString (lit "e30="))]
              (requestWith [] (Some (lit "__Host-CSRF_TOKEN=T2"))) ∅)
            (OAuthError (lit "invalid_request") (lit "CSRF token mismatch") 400))
    as [code [description [statusCode [r [He [Hr [Hp _]]]]]]].
  - vm_compute. reflexivity.
  - inversion He; subst. exists r. split; [exact Hr | exact Hp].
Defined.

(** ** [sanitizeText] *)

Lemma sanitizeText_app (a b : jsstring) :
  sanitizeText (a ++ b) = sanitizeText a ++ sanitizeText b.
Proof. unfold sanitizeText, replaceAll. rewrite !flat_map_app. reflexivity. Qed.

Ltac split_unit c :=
  destruct (N.eqb_spec c 38) as [-> | ?];
  [| destruct (N.eqb_spec c 60) as [-> | ?];
     [| destruct (N.eqb_spec c 62) as [-> | ?];
        [| destruct (N.eqb_spec c 34) as [-> | ?];
           [| destruct (N.eqb_spec c 39) as [-> | ?]]]]].

Lemma sanitizeText_unit (c : N) : sanitizeText [c] = escapeUnit c.
Proof.
  unfold sanitizeText, replaceAll, escapeUnit. cbn [flat_map].
  split_unit c; try (vm_compute; reflexivity).
  cbn [flat_map app].
  repeat match goal with
         | H : ?a <> ?b |- context [?a =? ?b] =>
             rewrite (proj2 (N.eqb_neq a b) H); cbn [flat_map app]
         end.
  reflexivity.
Qed.

(** The five replacements in a row amount to one pass that rewrites each
    character on its own. *)
Lemma sanitizeText_units (s : jsstring) : sanitizeText s = flat_map escapeUnit s.
Proof.
  induction s as [| c s IH]; [reflexivity |].
  change (c :: s) with ([c] ++ s). rewrite sanitizeText_app, sanitizeText_unit, IH.
  reflexivity.
Qed.

Lemma escapeUnit_piece (c : N) : isSanitizedPiece (escapeUnit c).
Proof.
  unfold isSanitizedPiece, escapeUnit.
  split_unit c; cbn [N.eqb Pos.eqb]; try (left; simpl; tauto).
  repeat match goal with
         | H : ?a <> ?b |- context [?a =? ?b] => rewrite (proj2 (N.eqb_neq a b) H)
         end.
  right. exists c. split; [reflexivity |]. unfold isHtmlSpecial.
  repeat match goal with
         | H : ?a <> ?b |- context [?a =? ?b] => rewrite (proj2 (N.eqb_neq a b) H)
         end.
  reflexivity.
Qed.

Lemma no_markup_of_bool (l : jsstring) :
  forallb (fun x => negb ((x =? 60) || (x =? 62) || (x =? 34) || (x =? 39))) l = true ->
  Forall (fun x => x <> 60 /\ x <> 62 /\ x <> 34 /\ x <> 39) l.
Proof.
  intros H. apply Forall_of_forallb in H. revert H. apply List.Forall_impl.
  intros x Hx. apply negb_true_iff in Hx.
  repeat (apply orb_false_iff in Hx; destruct Hx as [Hx ?]).
  repeat split; apply N.eqb_neq; assumption.
Qed.

Lemma escapeUnit_no_markup (c : N) :
  Forall (fun x => x <> 60 /\ x <> 62 /\ x <> 34 /\ x <> 39) (escapeUnit c).
Proof.
  unfold escapeUnit.
  split_unit c; cbn [N.eqb Pos.eqb];
    try (apply no_markup_of_bool; vm_compute; reflexivity).
  repeat match goal with
         | H : ?a <> ?b |- context [?a =? ?b] => rewrite (proj2 (N.eqb_neq a b) H)
         end.
  repeat constructor; assumption.
Qed.

(** X1: the text [sanitizeText] returns holds none of [<], [>], the double
    quote and the apostrophe, and it is a sequence of pieces, each one of
    the five entity references or a single character that is none of the
    five special ones: every ampersand in it starts an entity. *)
Theorem X1_sanitizeText_output_is_inert (text : jsstring) :
  Forall (fun x => x <> 60 /\ x <> 62 /\ x <> 34 /\ x <> 39) (sanitizeText text)
  /\ exists pieces,
       sanitizeText text = concat pieces /\ Forall isSanitizedPiece pieces.
Proof.
  rewrite sanitizeText_units. split.
  - induction text as [| c s IH]; [constructor |].
    cbn [flat_map]. apply Forall_app. split; [apply escapeUnit_no_markup | exact IH].
  - exists (List.map escapeUnit text). split; [apply flat_map_concat_map |].
    induction text as [| c s IH]; constructor; [apply escapeUnit_piece | exact IH].
Qed.

Lemma escapeUnit_prefix (x y : N) (r1 r2 : jsstring) :
  escapeUnit x ++ r1 = escapeUnit y ++ r2 -> x = y /\ r1 = r2.
Proof.
  unfold escapeUnit.
  split_unit x; split_unit y; cbn [N.eqb Pos.eqb];
    repeat match goal with
           | H : ?a <> ?b |- context [?a =? ?b] => rewrite (proj2 (N.eqb_neq a b) H)
           end;
    intros H; vm_compute in H; inversion H; subst; auto; congruence.
Qed.

Lemma escapeUnit_nonempty (x : N) (r : jsstring) : escapeUnit x ++ r <> [].
Proof.
  unfold escapeUnit.
  destruct (x =? 38); [discriminate |]. destruct (x =? 60); [discriminate |].
  destruct (x =? 62); [discriminate |]. destruct (x =? 34); [discriminate |].
  destruct (x =? 39); discriminate.
Qed.

(** X2: [sanitizeText] is injective: two texts with the same sanitized
    form are the same text, so escaping loses nothing. *)
Theorem X2_sanitizeText_injective (a b : jsstring) :
  sanitizeText a = sanitizeText b -> a = b.
Proof.
  rewrite !sanitizeText_units. revert b.
  induction a as [| x a IH]; intros [| y b] H.
  - reflexivity.
  - cbn [flat_map] in H. symmetry in H. apply escapeUnit_nonempty in H. contradiction.
  - cbn [flat_map] in H. apply escapeUnit_nonempty in H. contradiction.
  - cbn [flat_map] in H. apply escapeUnit_prefix in H. destruct H as [-> H].
    f_equal. apply IH. exact H.
Qed.

Lemma X2_sanitizeText_injective_witness : lit "a<b" = lit "a<b".
Proof.
  apply (X2_sanitizeText_injective (lit "a<b") (lit "a<b")).
  vm_compute. reflexivity.
Defined.

Lemma escapeUnit_length (c : N) :
  (1 <= length (escapeUnit c))%nat
  /\ (length (escapeUnit c) = 1%nat -> isHtmlSpecial c = false).
Proof.
  unfold escapeUnit, isHtmlSpecial.
  split_unit c; cbn [N.eqb Pos.eqb orb];
    try (split; [cbn; lia | cbn; intros; discriminate]).
  repeat match goal with
         | H : ?a <> ?b |- context [?a =? ?b] => rewrite (proj2 (N.eqb_neq a b) H)
         end.
  split; [cbn; lia | reflexivity].
Qed.

Lemma escapeUnit_plain (c : N) : isHtmlSpecial c = false -> escapeUnit c = [c].
Proof.
  unfold isHtmlSpecial, escapeUnit. intros H.
  repeat (apply orb_false_iff in H; destruct H as [H ?]).
  repeat match goal with
         | H : (?a =? ?b) = false |- _ => rewrite H; clear H
         end.
  reflexivity.
Qed.

Lemma sanitized_length (s : jsstring) : (length s <= length (flat_map escapeUnit s))%nat.
Proof.
  induction s as [| c s IH]; [reflexivity |].
  cbn [flat_map length]. rewrite length_app.
  destruct (escapeUnit_length c) as [H _]. lia.
Qed.

(** X3: [sanitizeText] never shortens a text, and it returns the text
    unchanged exactly when the text holds none of the five special
    characters; it distributes over concatenation. *)
Theorem X3_sanitizeText_fixed_points (a b : jsstring) :
  (length a <= length (sanitizeText a))%nat
  /\ (sanitizeText a = a <-> Forall (fun c => isHtmlSpecial c = false) a)
  /\ sanitizeText (a ++ b) = sanitizeText a ++ sanitizeText b.
Proof.
  split; [rewrite sanitizeText_units; apply sanitized_length |].
  split; [| apply sanitizeText_app].
  rewrite sanitizeText_units. split.
  - intros H. apply (f_equal (@length N)) in H.
    induction a as [| c s IH]; [constructor |].
    cbn [flat_map length] in H. rewrite length_app in H.
    destruct (escapeUnit_length c) as [H1 H2].
    pose proof (sanitized_length s) as L.
    constructor; [apply H2; lia | apply IH; lia].
  - induction 1 as [| c s Hc _ IH]; [reflexivity |].
    cbn [flat_map]. rewrite (escapeUnit_plain c Hc), IH. reflexivity.
Qed.

(** ** [sanitizeUrl] *)

Lemma trimStart_head (s : jsstring) :
  trimStart s = [] \/ exists c r, trimStart s = c :: r /\ isWhiteSpace c = false.
Proof.
  induction s as [| c s IH]; [left; reflexivity |].
  cbn [trimStart]. destruct (isWhiteSpace c) eqn:E; [exact IH |].
  right. exists c, s. auto.
Qed.

Lemma trimStart_fixed (s : jsstring) :
  (s = [] \/ exists c r, s = c :: r /\ isWhiteSpace c = false) -> trimStart s = s.
Proof.
  intros [-> | [c [r [-> H]]]]; [reflexivity |]. cbn [trimStart]. rewrite H. reflexivity.
Qed.

Lemma trimStart_suffix (s : jsstring) : exists p, s = p ++ trimStart s.
Proof.
  induction s as [| c s [p IH]]; [exists []; reflexivity |].
  cbn [trimStart]. destruct (isWhiteSpace c).
  - exists (c :: p). cbn. f_equal. exact IH.
  - exists []. reflexivity.
Qed.

(** A trimmed text is empty or starts and ends with a character that is
    no white space. *)
Lemma trim_ends (s : jsstring) :
  trimStart (trim s) = trim s /\ trimStart (rev (trim s)) = rev (trim s).
Proof.
  unfold trim, trimEnd.
  set (x := trimStart s). set (y := trimStart (rev x)).
  split.
  - apply trimStart_fixed.
    destruct (rev y) as [| c r] eqn:E; [left; reflexivity |]. right.
    exists c, r. split; [reflexivity |].
    destruct (trimStart_suffix (rev x)) as [p Hp]. fold y in Hp.
    apply (f_equal (@rev N)) in Hp. rewrite rev_involutive, rev_app_distr, E in Hp.
    destruct (trimStart_head s) as [H0 | [c0 [r0 [H0 Hc]]]]; fold x in H0.
    + rewrite H0 in Hp. discriminate.
    + rewrite H0 in Hp. cbn in Hp. inversion Hp; subst. exact Hc.
  - rewrite rev_involutive. apply trimStart_fixed. apply trimStart_head.
Qed.

Lemma trim_idempotent (s : jsstring) : trim (trim s) = trim s.
Proof.
  destruct (trim_ends s) as [H1 H2].
  unfold trim at 1. unfold trimEnd. rewrite H1, H2. apply rev_involutive.
Qed.

Lemma sanitizeUrl_cases (URL_protocol : jsstring -> option jsstring) (url : jsstring) :
  sanitizeUrl URL_protocol url = []
  \/ (sanitizeUrl URL_protocol url = trim url
      /\ trim url <> []
      /\ existsb isControlCode (trim url) = false
      /\ exists protocol,
           URL_protocol (trim url) = Some protocol
           /\ includes [lit "https"; lit "http"] (toLowerCase (removelast protocol)) = true).
Proof.
  unfold sanitizeUrl.
  destruct (trim url) as [| c r] eqn:E; [left; reflexivity |].
  cbn [length Nat.eqb].
  destruct (existsb isControlCode (c :: r)) eqn:Ec; [left; reflexivity |].
  destruct (URL_protocol (c :: r)) as [protocol|] eqn:Ep; [| left; reflexivity].
  destruct (includes _ _) eqn:Ei; [| left; reflexivity].
  right. split; [reflexivity |]. split; [discriminate |]. split; [reflexivity |].
  exists protocol. auto.
Qed.

(** X4: for every input, what [sanitizeUrl] returns has no leading or
    trailing white space and no control character (C0, DEL, C1), and it is
    either the empty text or the trimmed input, which the URL parser then
    accepts with the protocol [http:] or [https:] (in any letter case). *)
Theorem X4_sanitizeUrl_output (URL_protocol : jsstring -> option jsstring) (url : jsstring) :
  trim (sanitizeUrl URL_protocol url) = sanitizeUrl URL_protocol url
  /\ Forall (fun c => isControlCode c = false) (sanitizeUrl URL_protocol url)
  /\ (sanitizeUrl URL_protocol url = []
      \/ (sanitizeUrl URL_protocol url = trim url
          /\ exists protocol,
               URL_protocol (trim url) = Some protocol
               /\ (toLowerCase (removelast protocol) = lit "https"
                   \/ toLowerCase (removelast protocol) = lit "http"))).
Proof.
  destruct (sanitizeUrl_cases URL_protocol url) as [-> | [-> [Hne [Hc [protocol [Hp Hi]]]]]].
  - split; [reflexivity |]. split; [constructor | left; reflexivity].
  - split; [apply trim_idempotent |]. split.
    + apply List.Forall_forall. intros c Hin.
      destruct (isControlCode c) eqn:E; [| reflexivity].
      assert (existsb isControlCode (trim url) = true)
        by (apply existsb_exists; exists c; auto).
      congruence.
    + right. split; [reflexivity |]. exists protocol. split; [exact Hp |].
      apply includes_In in Hi. destruct Hi as [<- | [<- | []]]; auto.
Qed.

(** X5: [sanitizeUrl] is idempotent: sanitizing a sanitized URL changes
    nothing. *)
Theorem X5_sanitizeUrl_idempotent (URL_protocol : jsstring -> option jsstring) (url : jsstring) :
  sanitizeUrl URL_protocol (sanitizeUrl URL_protocol url) = sanitizeUrl URL_protocol url.
Proof.
  destruct (sanitizeUrl_cases URL_protocol url) as [-> | [-> [Hne [Hc [protocol [Hp Hi]]]]]].
  - reflexivity.
  - unfold sanitizeUrl. rewrite trim_idempotent.
    destruct (trim url) as [| c r]; [congruence |].
    cbn [length Nat.eqb]. rewrite Hc, Hp, Hi. reflexivity.
Qed.

(** ** Issuing and validating: round trips *)

Lemma cookiePair_generateCSRFProtection (uuid : jsstring) :
  Forall (fun c => (c =? 59) = false) uuid ->
  cookiePair (csrf_setCookie (generateCSRFProtection uuid))
  = lit "__Host-CSRF_TOKEN" ++ lit "=" ++ uuid.
Proof.
  intros H. unfold generateCSRFProtection. cbn [csrf_setCookie].
  change (lit "; HttpOnly; Secure; Path=/; SameSite=Lax; Max-Age=600")
    with (59 :: lit " HttpOnly; Secure; Path=/; SameSite=Lax; Max-Age=600").
  change (lit "__Host-CSRF_TOKEN=") with (lit "__Host-CSRF_TOKEN" ++ lit "=").
  rewrite <- (app_assoc (lit "__Host-CSRF_TOKEN") (lit "=")).
  rewrite !app_assoc.
  rewrite cookiePair_app; [reflexivity |].
  apply Forall_app. split; [| exact H].
  apply Forall_negb. vm_compute. reflexivity.
Qed.

Lemma requestCookie_csrf (uuid : jsstring) (q : list (jsstring * jsstring)) :
  Forall (fun c => isWhiteSpace c = false) uuid ->
  Forall (fun c => (c =? 59) = false) uuid ->
  requestCookie (lit "__Host-CSRF_TOKEN")
    (requestWith q (Some (cookiePair (csrf_setCookie (generateCSRFProtection uuid)))))
  = Some uuid.
Proof.
  intros Hw Hs. rewrite (cookiePair_generateCSRFProtection uuid Hs).
  apply requestCookie_single; rewrite app_assoc; apply Forall_app; split; auto;
    apply Forall_negb; vm_compute; reflexivity.
Qed.

(** X6: the token and cookie that [generateCSRFProtection] issues
    validate together: for a generated token without white space and
    semicolon (a UUID has neither), a form that submits the token with a
    request that sends the issued cookie back passes [validateCSRFToken],
    and a form that submits any other token is refused. *)
Theorem X6_csrf_issue_validate_round_trip
    (uuid : jsstring) (fd : FormData) (q : list (jsstring * jsstring)) :
  uuid <> [] ->
  Forall (fun c => isWhiteSpace c = false) uuid ->
  Forall (fun c => (c =? 59) = false) uuid ->
  (formField (lit "csrf_token") fd = Some (csrf_token (generateCSRFProtection uuid)) ->
   validateCSRFToken fd
     (requestWith q (Some (cookiePair (csrf_setCookie (generateCSRFProtection uuid)))))
   = Return {| csrf_clearCookie :=
       lit "__Host-CSRF_TOKEN=; HttpOnly; Secure; Path=/; SameSite=Lax; Max-Age=0" |})
  /\ (forall submitted,
        formField (lit "csrf_token") fd = Some submitted ->
        submitted <> uuid ->
        exists e,
          validateCSRFToken fd
            (requestWith q (Some (cookiePair (csrf_setCookie (generateCSRFProtection uuid)))))
          = Throw e).
Proof.
  intros Hne Hw Hs.
  pose proof (requestCookie_csrf uuid q Hw Hs) as Hc.
  split.
  - cbn [generateCSRFProtection csrf_token]. intros Hf.
    rewrite validateCSRFToken_cases, Hf, Hc.
    rewrite (proj2 (present_Some _ uuid) (conj eq_refl Hne)).
    rewrite jsstring_eqb_refl. reflexivity.
  - intros submitted Hf Hd. rewrite validateCSRFToken_cases, Hf, Hc.
    rewrite (proj2 (present_Some (Some uuid) uuid) (conj eq_refl Hne)).
    destruct (present (Some submitted)) as [f|] eqn:Ef; [| eexists; reflexivity].
    apply present_Some in Ef. destruct Ef as [Ef _]. inversion Ef; subst f.
    destruct (jsstring_eqb submitted uuid) eqn:E; [| eexists; reflexivity].
    apply jsstring_eqb_eq in E. contradiction.
Qed.

Lemma X6_csrf_round_trip_witness :
  validateCSRFToken
    [(lit "state", FormString (lit "e30="));
     (lit "csrf_token", FormString (lit "3f2b8c1e-7a4d-4e9b-9c3a-5d6e7f8a9b0c"))]
    (requestWith []
       (Some (cookiePair (csrf_setCookie
                (generateCSRFProtection (lit "3f2b8c1e-7a4d-4e9b-9c3a-5d6e7f8a9b0c"))))))
  = Return {| csrf_clearCookie :=
      lit "__Host-CSRF_TOKEN=; HttpOnly; Secure; Path=/; SameSite=Lax; Max-Age=0" |}.
Proof.
  refine (proj1 (X6_csrf_issue_validate_round_trip
                   (lit "3f2b8c1e-7a4d-4e9b-9c3a-5d6e7f8a9b0c") _ [] _ _ _) _).
  - vm_compute. discriminate.
  - apply Forall_negb. vm_compute. reflexivity.
  - apply Forall_negb. vm_compute. reflexivity.
  - vm_compute. reflexivity.
Defined.

Lemma KV_get_put (kv : KV) (key value : jsstring) (ttl : N) :
  KV_get (KV_put kv key value ttl) key = Some value.
Proof. unfold KV_get, KV_put. rewrite lookup_insert_eq. reflexivity. Qed.

Lemma KV_get_put_ne (kv : KV) (key key' value : jsstring) (ttl : N) :
  key <> key' -> KV_get (KV_put kv key value ttl) key' = KV_get kv key'.
Proof. intros H. unfold KV_get, KV_put. rewrite lookup_insert_ne by exact H. reflexivity. Qed.

(** X7: a state created by [createOAuthState] and bound by
    [bindStateToSession] is accepted once by [validateOAuthState]: the
    callback that carries the token and the binding cookie gets back the
    parse of the stored text, and the namespace is left without the
    record; if no record was stored under the token before, the namespace is
    again what it was before the creation. *)
Theorem X7_state_create_validate_round_trip
    (uuid serialized : jsstring) (v : json) (ttl : N) (kv : KV) (req : Request) :
  uuid <> [] ->
  serialized <> [] ->
  JSON_parse serialized = Return v ->
  searchParams_get (lit "state") req = Some (fst (createOAuthState uuid serialized kv ttl)) ->
  cookieHeader req
    = Some (cookiePair (bindStateToSession (fst (createOAuthState uuid serialized kv ttl)))) ->
  validateOAuthState req (snd (createOAuthState uuid serialized kv ttl))
    = (Return {| oauthReqInfo := v; state_clearCookie := clearConsentedState |},
       KV_delete kv (stateKey uuid))
  /\ (kv !! stateKey uuid = None -> KV_delete kv (stateKey uuid) = kv).
Proof.
  cbn [createOAuthState fst snd]. intros Hu Hs Hp Hq Hc.
  split; [| apply delete_id].
  destruct (session_binding_by_value uuid serialized req
              (KV_put kv (stateKey uuid) serialized ttl)) as [Hok _].
  - apply present_Some. auto.
  - rewrite KV_get_put. apply present_Some. auto.
  - rewrite Hok, Hp.
    + f_equal. unfold KV_delete, KV_put. apply delete_insert_eq.
    + rewrite (requestCookie_ext _ req (requestWith [] (cookieHeader req)) eq_refl), Hc.
      apply requestCookie_bound.
Qed.

Lemma X7_state_round_trip_witness :
  validateOAuthState
    (requestWith [(lit "code", lit "c0"); (lit "state", lit "S1")]
       (Some (cookiePair (bindStateToSession (lit "S1")))))
    (snd (createOAuthState (lit "S1") (lit "{}") ∅ 600))
  = (Return {| oauthReqInfo := JObject []; state_clearCookie := clearConsentedState |},
     KV_delete ∅ (stateKey (lit "S1"))).
Proof.
  refine (proj1 (X7_state_create_validate_round_trip (lit "S1") (lit "{}") (JObject []) 600 ∅
                   (requestWith [(lit "code", lit "c0"); (lit "state", lit "S1")]
                      (Some (cookiePair (bindStateToSession (lit "S1")))))
                   _ _ _ _ _)).
  - vm_compute. discriminate.
  - vm_compute. discriminate.
  - vm_compute. reflexivity.
  - vm_compute. reflexivity.
  - vm_compute. reflexivity.
Defined.

(** X8: flows do not interfere.  Creating the state of a token [u]
    changes neither the outcome of a callback for another token (or for no
    token), nor what that callback does to the namespace: validating after
    the creation gives the same result as validating before it, and the
    record of [u] is still as created. *)
Theorem X8_other_flow_is_untouched
    (u serialized : jsstring) (ttl : N) (req : Request) (kv : KV) :
  present (searchParams_get (lit "state") req) <> Some u ->
  validateOAuthState req (snd (createOAuthState u serialized kv ttl))
  = (fst (validateOAuthState req kv),
     snd (createOAuthState u serialized (snd (validateOAuthState req kv)) ttl)).
Proof.
  intros Hne. cbn [createOAuthState snd]. rewrite !validateOAuthState_cases.
  destruct (present (searchParams_get (lit "state") req)) as [t|]; [| reflexivity].
  assert (Hk : stateKey u <> stateKey t).
  { intros E. apply stateKey_inj in E. congruence. }
  rewrite (KV_get_put_ne kv _ _ serialized ttl Hk).
  destruct (present (KV_get kv (stateKey t))) as [stored|]; [| reflexivity].
  destruct (present (requestCookie _ req)) as [h|]; [| reflexivity].
  destruct (jsstring_eqb (sha256Hex t) h); [| reflexivity].
  destruct (JSON_parse stored); [| reflexivity].
  cbn [fst snd]. f_equal. unfold KV_delete, KV_put.
  apply delete_insert_ne. congruence.
Qed.

Lemma X8_other_flow_witness :
  validateOAuthState
    (requestWith [(lit "state", lit "S1")] (Some (cookiePair (bindStateToSession (lit "S1")))))
    (snd (createOAuthState (lit "S2") (lit "[]")
            (snd (createOAuthState (lit "S1") (lit "{}") ∅ 600)) 600))
  = (Return {| oauthReqInfo := JObject []; state_clearCookie := clearConsentedState |},
     snd (createOAuthState (lit "S2") (lit "[]") ∅ 600)).
Proof.
  rewrite (X8_other_flow_is_untouched (lit "S2") (lit "[]") 600
             (requestWith [(lit "state", lit "S1")]
                (Some (cookiePair (bindStateToSession (lit "S1")))))
             (snd (createOAuthState (lit "S1") (lit "{}") ∅ 600))).
  - vm_compute. reflexivity.
  - vm_compute. discriminate.
Defined.

Lemma hexOfBytes_length (bs : list N) :
  Forall (fun b => b < 256) bs -> length (hexOfBytes bs) = (2 * length bs)%nat.
Proof.
  induction 1 as [| b bs Hb _ IH]; [reflexivity |].
  rewrite (hexOfBytes_cons b bs Hb). cbn [length]. rewrite IH. lia.
Qed.

(** X18: whatever the state token holds, the directive of
    [bindStateToSession] is well formed: its value is 64 lower-case hex
    digits, so the name-value pair a user agent keeps is the cookie name
    followed by those digits. *)
Theorem X18_binding_cookie_shape (stateToken : jsstring) :
  exists h,
    bindStateToSession stateToken
    = lit "__Host-CONSENTED_STATE=" ++ h
        ++ lit "; HttpOnly; Secure; Path=/; SameSite=Lax; Max-Age=600"
    /\ length h = 64%nat
    /\ Forall (fun c => isLowerHex c = true) h
    /\ cookiePair (bindStateToSession stateToken) = lit "__Host-CONSENTED_STATE=" ++ h.
Proof.
  exists (sha256Hex stateToken).
  split; [reflexivity |]. split.
  - unfold sha256Hex. rewrite hexOfBytes_length by apply digest_bytes.
    rewrite digest_length. reflexivity.
  - split; [apply sha256Hex_lower |]. apply cookiePair_bindStateToSession.
Qed.

(** ** Approving and asking again *)

Lemma fold_addOnce_In (x : jsstring) (l acc : list jsstring) :
  In x (fold_left addOnce l acc) <-> In x acc \/ In x l.
Proof.
  revert acc. induction l as [| y l IH]; intros acc; [simpl; tauto |].
  cbn [fold_left]. rewrite IH. unfold addOnce.
  destruct (includes acc y) eqn:E.
  - apply includes_In in E. simpl. split; [tauto |].
    intros [H | [<- | H]]; auto.
  - rewrite in_app_iff. simpl. tauto.
Qed.

Lemma uniqueInOrder_In (x : jsstring) (l : list jsstring) :
  In x (uniqueInOrder l) <-> In x l.
Proof. unfold uniqueInOrder. rewrite fold_addOnce_In. simpl. tauto. Qed.

Lemma getApprovedClientsFromCookie_after_approval
    (req : Request) (c k cookie : jsstring) (q : list (jsstring * jsstring)) :
  addApprovedClient req c k = Return cookie ->
  exists approved,
    getApprovedClientsFromCookie req k = Return approved
    /\ getApprovedClientsFromCookie (requestWith q (Some (cookiePair cookie))) k
       = Return (Some (uniqueInOrder (default [] approved ++ [c]))).
Proof.
  intros H.
  destruct (addApprovedClient_Return _ _ _ _ H) as [approved [enc [Ha [Hk [Hb ->]]]]].
  exists approved. split; [exact Ha |].
  destruct (encoded_chars _ _ Hb) as [_ [Es _]].
  rewrite cookiePair_emitted by (auto; apply hexOfBytes_lower, hmac_bytes).
  apply (getApprovedClientsFromCookie_emitted _ k enc q Hk Hb).
Qed.

(** X9: an approval is remembered.  When [addApprovedClient] returns a
    cookie, [isClientApproved] on a request that sends that cookie back
    answers [true] for the approved client and for every client the input
    cookie already approved, and [false] for every other client. *)
Theorem X9_approval_is_remembered
    (req : Request) (c k cookie c' : jsstring) (q : list (jsstring * jsstring)) :
  addApprovedClient req c k = Return cookie ->
  isClientApproved (requestWith q (Some (cookiePair cookie))) c' k
  = Return (jsstring_eqb c' c
            || match getApprovedClientsFromCookie req k with
               | Return (Some l) => includes l c'
               | _ => false
               end).
Proof.
  intros H.
  destruct (getApprovedClientsFromCookie_after_approval req c k cookie q H)
    as [approved [Ha Hg]].
  unfold isClientApproved.
  match goal with
  | |- context [getApprovedClientsFromCookie (requestWith q ?h) k] =>
      replace (getApprovedClientsFromCookie (requestWith q h) k)
        with (Return (Some (uniqueInOrder (default [] approved ++ [c]))))
        by (symmetry; exact Hg)
  end.
  rewrite Ha. cbn [bind]. f_equal.
  apply Bool.eq_iff_eq_true.
  rewrite includes_In, uniqueInOrder_In, in_app_iff, orb_true_iff, jsstring_eqb_eq.
  destruct approved as [l|]; cbn [default from_option id].
  - rewrite includes_In. simpl. split; [intros [? | [-> | []]]; auto | intros [-> | ?]; auto].
  - simpl. split; [intros [[] | [-> | []]]; auto | intros [-> | ?]; [auto | discriminate]].
Qed.

Lemma X9_approval_witness :
  isClientApproved
    (requestWith []
       (Some (cookiePair
          (lit "__Host-APPROVED_CLIENTS=f8e5e52c1f8c7cc6aa603479ae587838979034f80822679b0639dac71f8fd7c2.WyJhYmMxMjMiXQ==; HttpOnly; Secure; Path=/; SameSite=Lax; Max-Age=2592000"))))
    (lit "abc123") (lit "cookie-secret")
  = Return (jsstring_eqb (lit "abc123") (lit "abc123")
            || match getApprovedClientsFromCookie (requestWith [] None) (lit "cookie-secret") with
               | Return (Some l) => includes l (lit "abc123")
               | _ => false
               end).
Proof.
  apply (X9_approval_is_remembered (requestWith [] None) (lit "abc123") (lit "cookie-secret")).
  vm_compute. reflexivity.
Defined.

(** X10: [isClientApproved] fails closed.  With a secret that imports,
    it answers [true] only when the request carries an approved-clients
    cookie of the form [signature.payload] whose payload decodes from
    base64, whose signature bytes are the HMAC tag of the decoded payload
    under the secret, and whose payload parses to an array of strings that
    holds the client. *)
Theorem X10_approved_only_if_signed (req : Request) (clientId k : jsstring) :
  k <> [] ->
  isClientApproved req clientId k = Return true ->
  exists value sig b64 payload l,
    requestCookie (lit "__Host-APPROVED_CLIENTS") req = Some value
    /\ split 46 value = [sig; b64]
    /\ atob b64 = Return payload
    /\ signatureBytes sig = tag payload k
    /\ JSON_parse payload = Return (JArray (List.map JString l))
    /\ In clientId l.
Proof. apply isClientApproved_true_only_if. Qed.

Lemma X10_approved_only_if_signed_witness :
  exists value sig b64 payload l,
    requestCookie (lit "__Host-APPROVED_CLIENTS")
      (requestWith []
         (Some (lit "__Host-APPROVED_CLIENTS=f8e5e52c1f8c7cc6aa603479ae587838979034f80822679b0639dac71f8fd7c2.WyJhYmMxMjMiXQ==")))
    = Some value
    /\ split 46 value = [sig; b64]
    /\ atob b64 = Return payload
    /\ signatureBytes sig = tag payload (lit "cookie-secret")
    /\ JSON_parse payload = Return (JArray (List.map JString l))
    /\ In (lit "abc123") l.
Proof.
  apply (X10_approved_only_if_signed _ (lit "abc123")).
  - vm_compute. discriminate.
  - vm_compute. reflexivity.
Defined.

(** ** JSON answers *)

Lemma parseValue_object (f : nat) (key r : jsstring) :
  parseValue (S f) (123 :: QuoteJSONString key ++ r)
  = parseMembers f (QuoteJSONString key ++ r) [].
Proof.
  unfold QuoteJSONString. rewrite <- !app_assoc. cbn [app parseValue skipWs].
  change (isJsonWs 123) with false. cbv iota.
  change (123 =? 34) with false. change (123 =? 91) with false.
  change (123 =? 123) with true. cbv iota.
  change (isJsonWs 34) with false. cbv iota.
  change (34 =? 125) with false. cbv iota. reflexivity.
Qed.

Lemma parseMembers_member (f : nat) (key text : jsstring) (v : json) (c : N)
    (more : jsstring) (acc : list (jsstring * json)) :
  isJsonWs c = false ->
  parseValue f text = POk v (c :: more) ->
  parseMembers (S f) (QuoteJSONString key ++ 58 :: text) acc
  = if c =? 44 then parseMembers f more ((key, v) :: acc)
    else if c =? 125 then POk (JObject (rev ((key, v) :: acc))) more
    else PSyntax.
Proof.
  intros Hc Hv. unfold QuoteJSONString. rewrite <- !app_assoc.
  cbn [app parseMembers skipWs].
  change (isJsonWs 34) with false. cbv iota.
  change (34 =? 34) with true. cbv iota.
  rewrite parseChars_quoteUnits. cbn [skipWs].
  change (isJsonWs 58) with false. cbv iota.
  change (58 =? 58) with true. cbv iota.
  rewrite Hv. cbn [skipWs]. rewrite Hc. reflexivity.
Qed.

Lemma parse_error_object (code description rest : jsstring) (fuel : nat) :
  (4 <= fuel)%nat ->
  parseValue fuel
    (123 :: QuoteJSONString (lit "error") ++ 58 :: QuoteJSONString code
       ++ 44 :: QuoteJSONString (lit "error_description") ++ 58
       :: QuoteJSONString description ++ 125 :: rest)
  = POk (JObject [(lit "error", JString code);
                  (lit "error_description", JString description)]) rest.
Proof.
  intros Hf. destruct fuel as [| [| [| f]]]; try lia.
  rewrite parseValue_object.
  rewrite (parseMembers_member (S f) _ _ (JString code) 44
             (QuoteJSONString (lit "error_description") ++ 58
                :: QuoteJSONString description ++ 125 :: rest));
    [| reflexivity | apply parseValue_string; lia].
  change (44 =? 44) with true. cbv iota.
  rewrite (parseMembers_member f _ _ (JString description) 125 rest);
    [| reflexivity | apply parseValue_string; lia].
  reflexivity.
Qed.

Lemma Response_new_accepts
    (bodyInit : option jsstring) (st : N) (headersInit : list (jsstring * jsstring)) :
  200 <= st <= 599 ->
  isNullBodyStatus st = false ->
  Response_new bodyInit st headersInit
  = Return {| status := st; headers := headersInit; body := bodyInit |}.
Proof.
  intros Hr Hn. unfold Response_new. cbv zeta.
  rewrite (N.mod_small st 65536) by lia.
  rewrite (proj2 (N.leb_le 200 st)) by lia.
  rewrite (proj2 (N.leb_le st 599)) by lia.
  cbn [andb negb]. rewrite Hn. destruct bodyInit; reflexivity.
Qed.

(** X11: for every status the [Response] constructor accepts with a
    body (200 to 599, none of the null-body statuses 204, 205 and 304),
    [OAuthError.toResponse] returns a response with that status whose body
    is well-formed JSON for every code and description, whatever characters
    they hold: parsing it gives back an object with exactly the two members
    [error] and [error_description], carrying the code and the description
    unchanged. *)
Theorem X11_toResponse_body_parses (code description : jsstring) (statusCode : N) :
  200 <= statusCode <= 599 ->
  isNullBodyStatus statusCode = false ->
  exists r text,
    toResponse code description statusCode = Return r
    /\ status r = statusCode
    /\ headers r = [(lit "Content-Type", lit "application/json")]
    /\ body r = Some text
    /\ JSON_parse text
       = Return (JObject [(lit "error", JString code);
                          (lit "error_description", JString description)]).
Proof.
  intros Hr Hn. unfold toResponse.
  rewrite (Response_new_accepts _ statusCode _ Hr Hn).
  eexists. eexists. split; [reflexivity |].
  split; [reflexivity |]. split; [reflexivity |]. split; [reflexivity |].
  unfold JSON_parse, parseFuel.
  change (lit "{") with [123]. change (lit ":") with [58].
  change (lit ",") with [44]. change (lit "}") with [125].
  rewrite <- ?app_assoc. cbn [app].
  rewrite (parse_error_object code description []); [reflexivity |].
  cbn [length]. lia.
Qed.

Lemma X11_toResponse_body_parses_witness :
  exists r text,
    toResponse (lit "server_error") (lit "Invalid state data") 500 = Return r
    /\ status r = 500
    /\ headers r = [(lit "Content-Type", lit "application/json")]
    /\ body r = Some text
    /\ JSON_parse text
       = Return (JObject [(lit "error", JString (lit "server_error"));
                          (lit "error_description", JString (lit "Invalid state data"))]).
Proof.
  apply (X11_toResponse_body_parses (lit "server_error") (lit "Invalid state data") 500).
  - lia.
  - reflexivity.
Defined.

Lemma parse_metadata_object (origin rest : jsstring) (fuel : nat) :
  (6 <= fuel)%nat ->
  parseValue fuel
    (123 :: QuoteJSONString (lit "resource") ++ 58 :: QuoteJSONString (origin ++ lit "/mcp")
       ++ 44 :: QuoteJSONString (lit "authorization_servers") ++ 58
       :: 91 :: QuoteJSONString origin
       ++ 93 :: 44 :: QuoteJSONString (lit "scopes_supported") ++ 58
       :: 91 :: 93 :: 125 :: rest)
  = POk (JObject [(lit "resource", JString (origin ++ lit "/mcp"));
                  (lit "authorization_servers", JArray [JString origin]);
                  (lit "scopes_supported", JArray [])]) rest.
Proof.
  intros Hf. destruct fuel as [| [| [| [| [| f]]]]]; try lia.
  rewrite parseValue_object.
  rewrite (parseMembers_member _ _ _ (JString (origin ++ lit "/mcp")) 44
             (QuoteJSONString (lit "authorization_servers") ++ 58
                :: 91 :: QuoteJSONString origin
                ++ 93 :: 44 :: QuoteJSONString (lit "scopes_supported") ++ 58
                :: 91 :: 93 :: 125 :: rest));
    [| reflexivity | apply parseValue_string; lia].
  change (44 =? 44) with true. cbv iota.
  pose proof (parseValue_strings origin []
                (44 :: QuoteJSONString (lit "scopes_supported") ++ 58
                   :: 91 :: 93 :: 125 :: rest) (S (S f))) as Harr.
  cbn [List.map joinComma length] in Harr.
  rewrite (parseMembers_member _ _ _ (JArray [JString origin]) 44
             (QuoteJSONString (lit "scopes_supported") ++ 58
                :: 91 :: 93 :: 125 :: rest));
    [| reflexivity | apply Harr; lia].
  change (44 =? 44) with true. cbv iota.
  rewrite (parseMembers_member _ _ _ (JArray []) 125 rest);
    [reflexivity | reflexivity |].
  reflexivity.
Qed.

Lemma JSON_parse_complete (text : jsstring) (v : json) :
  parseValue (parseFuel text) text = POk v [] -> JSON_parse text = Return v.
Proof. unfold JSON_parse. intros ->. reflexivity. Qed.

Lemma QuoteJSONString_length (s : jsstring) : (2 <= length (QuoteJSONString s))%nat.
Proof.
  unfold QuoteJSONString. rewrite !List.length_app. cbn [length]. lia.
Qed.

Lemma protectedResourceMetadata_body (origin : jsstring) :
  body (protectedResourceMetadata origin)
  = Some (123 :: QuoteJSONString (lit "resource") ++ 58 :: QuoteJSONString (origin ++ lit "/mcp")
       ++ 44 :: QuoteJSONString (lit "authorization_servers") ++ 58
       :: 91 :: QuoteJSONString origin
       ++ 93 :: 44 :: QuoteJSONString (lit "scopes_supported") ++ 58
       :: 91 :: 93 :: 125 :: []).
Proof.
  unfold protectedResourceMetadata, JSON_stringify_strings.
  cbn [body List.map joinComma]. f_equal.
  change (lit "{") with [123]. change (lit ":") with [58].
  change (lit ",") with [44]. change (lit "}") with [125].
  rewrite <- ?app_assoc. reflexivity.
Qed.

Lemma metadata_text_parses (origin : jsstring) :
  JSON_parse
    (123 :: QuoteJSONString (lit "resource") ++ 58 :: QuoteJSONString (origin ++ lit "/mcp")
       ++ 44 :: QuoteJSONString (lit "authorization_servers") ++ 58
       :: 91 :: QuoteJSONString origin
       ++ 93 :: 44 :: QuoteJSONString (lit "scopes_supported") ++ 58
       :: 91 :: 93 :: 125 :: [])
  = Return (JObject [(lit "resource", JString (origin ++ lit "/mcp"));
                     (lit "authorization_servers", JArray [JString origin]);
                     (lit "scopes_supported", JArray [])]).
Proof.
  apply JSON_parse_complete. apply parse_metadata_object.
  unfold parseFuel. rewrite List.length_cons, List.length_app.
  pose proof (QuoteJSONString_length (lit "resource")). lia.
Qed.

(** X16: the Protected Resource Metadata the worker serves is
    well-formed JSON for every origin: the answer has status 200, and
    parsing its body gives the object whose [resource] is the origin
    followed by [/mcp], whose [authorization_servers] is the one-element
    list of the origin and whose [scopes_supported] is empty. *)
Theorem X16_metadata_body_parses (origin : jsstring) :
  exists r text,
    workerFetch (lit "/.well-known/oauth-protected-resource") origin = Some r
    /\ status r = 200
    /\ body r = Some text
    /\ JSON_parse text
       = Return (JObject [(lit "resource", JString (origin ++ lit "/mcp"));
                          (lit "authorization_servers", JArray [JString origin]);
                          (lit "scopes_supported", JArray [])]).
Proof.
  exists (protectedResourceMetadata origin). eexists.
  split; [| split; [| split]].
  - unfold workerFetch. rewrite jsstring_eqb_refl. reflexivity.
  - reflexivity.
  - apply protectedResourceMetadata_body.
  - apply metadata_text_parses.
Qed.

(** ** The authorization URL *)

Lemma upperHexDigit_avoids (u v : N) :
  u < 48 \/ (57 < u /\ u < 65) -> (upperHexDigit v =? u) = false.
Proof.
  intros Hu. unfold upperHexDigit. apply N.eqb_neq.
  destruct (N.ltb_spec v 10); lia.
Qed.

Lemma urlencode_avoids (u : N) (s : jsstring) :
  isUrlencodedSafe u = false -> u <> 43 -> u <> 37 ->
  u < 48 \/ (57 < u /\ u < 65) ->
  Forall (fun c => (c =? u) = false) (urlencode s).
Proof.
  intros Hs H43 H37 Hu. unfold urlencode, join.
  induction (TextEncoder_encode s) as [| b l IH]; [constructor |].
  cbn [List.map concat]. apply List.Forall_app. split; [| exact IH].
  destruct (isUrlencodedSafe b) eqn:Eb.
  - constructor; [| constructor]. apply N.eqb_neq. intros ->. congruence.
  - destruct (b =? 32).
    + constructor; [| constructor]. apply N.eqb_neq. congruence.
    + constructor; [apply N.eqb_neq; congruence |].
      constructor; [apply upperHexDigit_avoids; exact Hu |].
      constructor; [apply upperHexDigit_avoids; exact Hu | constructor].
Qed.

Lemma urlencode_no_ampersand (s : jsstring) :
  Forall (fun c => (c =? 38) = false) (urlencode s).
Proof. apply urlencode_avoids; [reflexivity | lia | lia | lia]. Qed.

Lemma urlencode_no_equals (s : jsstring) :
  Forall (fun c => (c =? 61) = false) (urlencode s).
Proof. apply urlencode_avoids; [reflexivity | lia | lia | lia]. Qed.

Lemma split_name_value (name value : jsstring) :
  Forall (fun c => (c =? 61) = false) name ->
  Forall (fun c => (c =? 61) = false) value ->
  split 61 (name ++ 61 :: value) = [name; value].
Proof.
  intros Hn Hv. rewrite split_app_sep by exact Hn.
  rewrite split_no_sep by exact Hv. reflexivity.
Qed.

Lemma split_parameter (name value rest : jsstring) :
  Forall (fun c => (c =? 38) = false) name ->
  Forall (fun c => (c =? 38) = false) value ->
  split 38 (name ++ 61 :: value ++ 38 :: rest)
  = (name ++ 61 :: value) :: split 38 rest.
Proof.
  intros Hn Hv.
  replace (name ++ 61 :: value ++ 38 :: rest)
    with ((name ++ 61 :: value) ++ 38 :: rest)
    by (rewrite <- app_assoc; reflexivity).
  apply split_app_sep. apply List.Forall_app. split; [exact Hn |].
  constructor; [reflexivity | exact Hv].
Qed.

Lemma split_last_parameter (name value : jsstring) :
  Forall (fun c => (c =? 38) = false) name ->
  Forall (fun c => (c =? 38) = false) value ->
  split 38 (name ++ 61 :: value) = [name ++ 61 :: value].
Proof.
  intros Hn Hv. apply split_no_sep. apply List.Forall_app. split; [exact Hn |].
  constructor; [reflexivity | exact Hv].
Qed.

Lemma literal_no_unit (u : N) (s : jsstring) :
  forallb (fun c => negb (c =? u)) s = true ->
  Forall (fun c => (c =? u) = false) s.
Proof. apply (Forall_negb (fun c => c =? u)). Qed.

Lemma getNotionAuthorizeUrl_query (clientId redirectUri : jsstring) (state : option jsstring) :
  getNotionAuthorizeUrl clientId redirectUri state
  = lit "https://api.notion.com/v1/oauth/authorize?"
    ++ lit "client_id" ++ 61 :: urlencode clientId
    ++ 38 :: lit "redirect_uri" ++ 61 :: urlencode redirectUri
    ++ 38 :: lit "response_type" ++ 61 :: lit "code"
    ++ 38 :: lit "owner" ++ 61 :: lit "user"
    ++ match present state with
       | Some st => 38 :: lit "state" ++ 61 :: urlencode st
       | None => []
       end.
Proof.
  unfold getNotionAuthorizeUrl.
  change (lit "https://api.notion.com/v1/oauth/authorize?")
    with (lit "https://api.notion.com/v1/oauth/authorize" ++ [63]).
  change (lit "?client_id=") with ([63] ++ lit "client_id" ++ [61]).
  change (lit "&redirect_uri=") with ([38] ++ lit "redirect_uri" ++ [61]).
  change (lit "&response_type=code")
    with ([38] ++ lit "response_type" ++ [61] ++ lit "code").
  change (lit "&owner=user") with ([38] ++ lit "owner" ++ [61] ++ lit "user").
  change (lit "&state=") with ([38] ++ lit "state" ++ [61]).
  destruct (present state) as [st |]; rewrite <- ?app_assoc; reflexivity.
Qed.

(** X12: the parameters of the authorization URL cannot be forged
    through their values.  For every client id, redirect URI and state,
    whatever characters they hold, the URL is the Notion endpoint followed
    by a query that splits at [&] and [=] into exactly [client_id],
    [redirect_uri], [response_type=code] and [owner=user], each once and in
    this order, followed by [state] exactly when a non-empty state is given;
    the three values are the form-urlencoded texts of the arguments. *)
Theorem X12_authorize_url_parameters
    (clientId redirectUri : jsstring) (state : option jsstring) :
  exists query,
    getNotionAuthorizeUrl clientId redirectUri state
    = lit "https://api.notion.com/v1/oauth/authorize?" ++ query
    /\ List.map (split 61) (split 38 query)
       = [[lit "client_id"; urlencode clientId];
          [lit "redirect_uri"; urlencode redirectUri];
          [lit "response_type"; lit "code"];
          [lit "owner"; lit "user"]]
         ++ match state with
            | Some (c :: st) => [[lit "state"; urlencode (c :: st)]]
            | _ => []
            end.
Proof.
  eexists. split; [apply getNotionAuthorizeUrl_query |].
  pose proof urlencode_no_ampersand as Ha.
  pose proof urlencode_no_equals as He.
  rewrite split_parameter by (auto; apply literal_no_unit; reflexivity).
  rewrite split_parameter by (auto; apply literal_no_unit; reflexivity).
  rewrite split_parameter by (apply literal_no_unit; reflexivity).
  cbn [List.map].
  rewrite !split_name_value by (auto; apply literal_no_unit; reflexivity).
  do 3 f_equal.
  destruct state as [[| c st] |]; cbn [present truthy].
  - rewrite app_nil_r.
    rewrite split_last_parameter by (apply literal_no_unit; reflexivity).
    cbn [List.map app].
    rewrite split_name_value by (apply literal_no_unit; reflexivity).
    reflexivity.
  - rewrite split_parameter by (apply literal_no_unit; reflexivity).
    rewrite split_last_parameter by (auto; apply literal_no_unit; reflexivity).
    cbn [List.map app].
    rewrite !split_name_value by (auto; apply literal_no_unit; reflexivity).
    reflexivity.
  - rewrite app_nil_r.
    rewrite split_last_parameter by (apply literal_no_unit; reflexivity).
    cbn [List.map app].
    rewrite split_name_value by (apply literal_no_unit; reflexivity).
    reflexivity.
Qed.

(** ** Page and database identifiers: [normalizeId] *)

Lemma hex32_shape (s cap : jsstring) :
  hex32 s = Some cap ->
  length cap = 32%nat /\ Forall (fun c => isLowerHex c = true) cap.
Proof.
  unfold hex32. destruct (32 <=? length s)%nat eqn:El; [| discriminate].
  destruct (forallb isLowerHex (firstn 32 s)) eqn:Eh; [| discriminate].
  cbn [andb]. intros E. assert (E' : firstn 32 s = cap) by congruence. subst cap.
  apply Nat.leb_le in El. split.
  - rewrite List.length_firstn. lia.
  - apply Forall_of_forallb. exact Eh.
Qed.

Lemma greedyGroup_shape (u cap : jsstring) :
  greedyGroup u = Some cap ->
  length cap = 32%nat /\ Forall (fun c => isLowerHex c = true) cap.
Proof.
  induction u as [| c r IH]; [discriminate |]. cbn [greedyGroup].
  destruct (isLineTerminator c).
  - destruct (isDashOrSlash c); [apply hex32_shape | discriminate].
  - destruct (greedyGroup r) as [cap' |].
    + intros E. apply IH. congruence.
    + destruct (isDashOrSlash c); [apply hex32_shape | discriminate].
Qed.

Lemma matchAfterHost_shape (t cap : jsstring) :
  matchAfterHost t = Some cap ->
  length cap = 32%nat /\ Forall (fun c => isLowerHex c = true) cap.
Proof.
  destruct t as [| c u]; [discriminate |]. cbn [matchAfterHost].
  destruct (c =? 47); [| discriminate]. unfold matchTail.
  destruct (greedyGroup u) as [cap' |] eqn:Eg.
  - intros E. apply (greedyGroup_shape u). congruence.
  - apply hex32_shape.
Qed.

Lemma matchHere_shape (s cap : jsstring) :
  matchHere s = Some cap ->
  length cap = 32%nat /\ Forall (fun c => isLowerHex c = true) cap.
Proof.
  unfold matchHere.
  destruct (startsWith s (lit "notion.so")).
  - destruct (matchAfterHost (skipn 9 s)) as [cap' |] eqn:E1.
    + intros E. apply (matchAfterHost_shape (skipn 9 s)). congruence.
    + destruct (startsWith s (lit "notion.site")); [| discriminate].
      apply matchAfterHost_shape.
  - destruct (startsWith s (lit "notion.site")); [| discriminate].
    apply matchAfterHost_shape.
Qed.

Lemma urlMatch_shape (s cap : jsstring) :
  urlMatch s = Some cap ->
  length cap = 32%nat /\ Forall (fun c => isLowerHex c = true) cap.
Proof.
  induction s as [| c r IH]; [discriminate |]. cbn [urlMatch].
  destruct (matchHere (c :: r)) as [cap' |] eqn:E.
  - intros E'. apply (matchHere_shape (c :: r)). congruence.
  - exact IH.
Qed.

Lemma replaceAll_removes (c : N) (s : jsstring) :
  Forall (fun x => (x =? c) = false) (replaceAll c [] s).
Proof.
  unfold replaceAll. induction s as [| x s IH]; [constructor |].
  cbn [flat_map]. destruct (x =? c) eqn:E; [exact IH |].
  constructor; assumption.
Qed.

Lemma replaceAll_filter (c : N) (s : jsstring) :
  replaceAll c [] s = List.filter (fun x => negb (x =? c)) s.
Proof.
  unfold replaceAll. induction s as [| x s IH]; [reflexivity |].
  cbn [flat_map List.filter]. rewrite IH. destruct (x =? c); reflexivity.
Qed.

(** X13: the result of [normalizeId] never holds a dash, for any
    input; and when the URL pattern matches, the result is exactly 32
    characters, each a digit or a letter from [a] to [f]. *)
Theorem X13_normalizeId_result_shape (idOrUrl : jsstring) :
  Forall (fun c => (c =? 45) = false) (normalizeId idOrUrl)
  /\ (urlMatch idOrUrl <> None ->
      length (normalizeId idOrUrl) = 32%nat
      /\ Forall (fun c => isLowerHex c = true) (normalizeId idOrUrl)).
Proof.
  unfold normalizeId. destruct (urlMatch idOrUrl) as [cap |] eqn:E.
  - destruct (urlMatch_shape _ _ E) as [Hl Hh]. split; [| intros _; split; assumption].
    revert Hh. apply List.Forall_impl. intros c H.
    apply isLowerHex_facts in H. tauto.
  - split; [apply replaceAll_removes | congruence].
Qed.

Lemma matchAfterHost_needs_slash (t : jsstring) :
  Forall (fun c => (c =? 47) = false) t -> matchAfterHost t = None.
Proof.
  intros H. destruct H as [| c u Hc _]; [reflexivity |].
  cbn [matchAfterHost]. rewrite Hc. reflexivity.
Qed.

Lemma Forall_skipn_units (P : N -> Prop) (n : nat) (s : jsstring) :
  Forall P s -> Forall P (skipn n s).
Proof.
  revert s. induction n as [| n IH]; intros s H; [exact H |].
  destruct H as [| c u _ Hu]; [constructor |]. cbn [skipn]. apply IH. exact Hu.
Qed.

Lemma urlMatch_needs_slash (s : jsstring) :
  Forall (fun c => (c =? 47) = false) s -> urlMatch s = None.
Proof.
  induction 1 as [| c r Hc Hr IH]; [reflexivity |]. cbn [urlMatch].
  assert (Hs : Forall (fun c => (c =? 47) = false) (c :: r)) by (constructor; assumption).
  unfold matchHere.
  rewrite !matchAfterHost_needs_slash by (apply Forall_skipn_units; exact Hs).
  destruct (startsWith (c :: r) (lit "notion.so"));
    destruct (startsWith (c :: r) (lit "notion.site")); exact IH.
Qed.

(** X14: an input without a slash is never read as a URL: the result
    is the input with its dashes removed and every other character kept in
    place (so a dashed UUID becomes its 32 hex digits). *)
Theorem X14_normalizeId_plain_id (idOrUrl : jsstring) :
  Forall (fun c => (c =? 47) = false) idOrUrl ->
  normalizeId idOrUrl = List.filter (fun c => negb (c =? 45)) idOrUrl.
Proof.
  intros H. unfold normalizeId. rewrite (urlMatch_needs_slash _ H).
  apply replaceAll_filter.
Qed.

Lemma X14_normalizeId_plain_id_witness :
  normalizeId (lit "0123abcd-0123-4567-89ab-0123456789ab")
  = List.filter (fun c => negb (c =? 45)) (lit "0123abcd-0123-4567-89ab-0123456789ab").
Proof.
  apply X14_normalizeId_plain_id.
  apply (Forall_negb (fun c => c =? 47)). reflexivity.
Defined.

Lemma hex32_here (id rest : jsstring) :
  length id = 32%nat -> Forall (fun c => isLowerHex c = true) id ->
  hex32 (id ++ rest) = Some id.
Proof.
  intros Hl Hh. unfold hex32.
  assert (Hf : firstn 32 (id ++ rest) = id).
  { rewrite <- Hl. rewrite List.firstn_app, Nat.sub_diag, List.firstn_all.
    cbn [firstn]. apply app_nil_r. }
  rewrite Hf, List.length_app, Hl.
  assert (Hb : forallb isLowerHex id = true).
  { apply forallb_forall. apply List.Forall_forall. exact Hh. }
  rewrite Hb. reflexivity.
Qed.

Lemma greedyGroup_none (u : jsstring) :
  Forall (fun c => isDashOrSlash c = false) u -> greedyGroup u = None.
Proof.
  induction 1 as [| c r Hc _ IH]; [reflexivity |]. cbn [greedyGroup].
  rewrite IH, Hc. destruct (isLineTerminator c); reflexivity.
Qed.

Lemma greedyGroup_last (t0 v cap : jsstring) (c : N) :
  Forall (fun x => isLineTerminator x = false) t0 ->
  isDashOrSlash c = true ->
  greedyGroup v = None ->
  hex32 v = Some cap ->
  greedyGroup (t0 ++ c :: v) = Some cap.
Proof.
  intros Ht Hc Hv Hh. induction Ht as [| a t0 Ha _ IH].
  - cbn [app greedyGroup]. rewrite Hv, Hc, Hh.
    destruct (isLineTerminator c); reflexivity.
  - cbn [app greedyGroup]. rewrite Ha, IH. reflexivity.
Qed.

Lemma isLowerHex_not_separator (c : N) :
  isLowerHex c = true -> isDashOrSlash c = false.
Proof.
  intros H. apply isLowerHex_range in H. unfold isDashOrSlash.
  eqb_false. reflexivity.
Qed.

Lemma matchTail_title (t id rest : jsstring) :
  (t = [] \/ exists t0 c, t = t0 ++ [c] /\ isDashOrSlash c = true) ->
  Forall (fun c => isLineTerminator c = false) t ->
  length id = 32%nat -> Forall (fun c => isLowerHex c = true) id ->
  Forall (fun c => isDashOrSlash c = false) rest ->
  matchTail (t ++ id ++ rest) = Some id.
Proof.
  intros Ht Hlt Hl Hh Hr. unfold matchTail.
  assert (Hn : greedyGroup (id ++ rest) = None).
  { apply greedyGroup_none. apply List.Forall_app. split; [| exact Hr].
    revert Hh. apply List.Forall_impl. exact isLowerHex_not_separator. }
  destruct Ht as [-> | [t0 [c [-> Hc]]]].
  - cbn [app]. rewrite Hn. apply hex32_here; assumption.
  - rewrite <- app_assoc. cbn [app].
    apply List.Forall_app in Hlt. destruct Hlt as [Hlt _].
    rewrite (greedyGroup_last t0 (id ++ rest) id c Hlt Hc Hn); [reflexivity |].
    apply hex32_here; assumption.
Qed.

Lemma matchHere_not_n (c : N) (r : jsstring) :
  (c =? 110) = false -> matchHere (c :: r) = None.
Proof.
  intros Hc. unfold matchHere.
  change (lit "notion.so") with (110 :: lit "otion.so").
  change (lit "notion.site") with (110 :: lit "otion.site").
  cbn [startsWith]. rewrite (N.eqb_sym 110 c), Hc. reflexivity.
Qed.

Lemma urlMatch_skip (p s : jsstring) :
  Forall (fun c => (c =? 110) = false) p -> urlMatch (p ++ s) = urlMatch s.
Proof.
  induction 1 as [| c p Hc _ IH]; [reflexivity |].
  cbn [app urlMatch]. rewrite (matchHere_not_n c _ Hc). exact IH.
Qed.

Lemma matchHere_host (host u : jsstring) (cap : jsstring) :
  host = lit "notion.so" \/ host = lit "notion.site" ->
  matchTail u = Some cap ->
  matchHere (host ++ 47 :: u) = Some cap.
Proof.
  intros [-> | ->] Hu; unfold matchHere.
  - rewrite startsWith_app.
    change 9%nat with (length (lit "notion.so")). rewrite skipn_prefix.
    cbn [matchAfterHost]. change (47 =? 47) with true. cbv iota.
    rewrite Hu. reflexivity.
  - change (lit "notion.site") with (lit "notion.s" ++ lit "ite") at 1.
    rewrite <- app_assoc.
    change (lit "notion.so") with (lit "notion.s" ++ [111]).
    assert (Hf : forall x, startsWith (lit "notion.s" ++ lit "ite" ++ x) (lit "notion.s" ++ [111]) = false)
      by (intros x; reflexivity).
    rewrite Hf.
    change (lit "notion.s" ++ lit "ite" ++ 47 :: u) with (lit "notion.site" ++ 47 :: u).
    rewrite startsWith_app.
    change 11%nat with (length (lit "notion.site")). rewrite skipn_prefix.
    cbn [matchAfterHost]. change (47 =? 47) with true. cbv iota.
    rewrite Hu. reflexivity.
Qed.

(** X15: a page URL gives the page id.  For a prefix without the
    letter [n] (such as [https://www.]), the host [notion.so] or
    [notion.site], a slash, an optional title part on one line that ends in
    a dash or a slash, 32 lower-case hex digits and a remainder without dash
    or slash, [normalizeId] returns the 32 digits. *)
Theorem X15_normalizeId_page_url (prefix host title id rest : jsstring) :
  Forall (fun c => (c =? 110) = false) prefix ->
  host = lit "notion.so" \/ host = lit "notion.site" ->
  (title = [] \/ exists t0 c, title = t0 ++ [c] /\ isDashOrSlash c = true) ->
  Forall (fun c => isLineTerminator c = false) title ->
  length id = 32%nat ->
  Forall (fun c => isLowerHex c = true) id ->
  Forall (fun c => isDashOrSlash c = false) rest ->
  normalizeId (prefix ++ host ++ 47 :: title ++ id ++ rest) = id.
Proof.
  intros Hp Hhost Ht Hlt Hl Hh Hr. unfold normalizeId.
  rewrite (urlMatch_skip _ _ Hp).
  pose proof (matchTail_title title id rest Ht Hlt Hl Hh Hr) as Hm.
  pose proof (matchHere_host host _ id Hhost Hm) as Hhere.
  assert (Hu : urlMatch (host ++ 47 :: title ++ id ++ rest) = Some id).
  { destruct (host ++ 47 :: title ++ id ++ rest) as [| c r] eqn:E.
    - destruct Hhost as [-> | ->]; discriminate.
    - cbn [urlMatch]. rewrite Hhere. reflexivity. }
  rewrite Hu. reflexivity.
Qed.

Lemma X15_normalizeId_page_url_witness :
  normalizeId (lit "https://www." ++ lit "notion.so" ++ 47 :: lit "team/My-Page-"
               ++ lit "0123456789abcdef0123456789abcdef" ++ lit "?v=1")
  = lit "0123456789abcdef0123456789abcdef".
Proof.
  apply X15_normalizeId_page_url.
  - apply (Forall_negb (fun c => c =? 110)). reflexivity.
  - left. reflexivity.
  - right. exists (lit "team/My-Page"), 45. split; reflexivity.
  - apply (Forall_negb isLineTerminator). reflexivity.
  - reflexivity.
  - apply Forall_of_forallb. reflexivity.
  - apply (Forall_negb isDashOrSlash). reflexivity.
Defined.

(** ** What the consent handler writes *)

Lemma postAuthorizeBody_store
    (JSON_stringify : json -> jsstring)
    (Object_fromEntries : list (jsstring * jsstring) -> list (jsstring * jsstring))
    (Number_isZero : jsstring -> bool)
    (env : Env) (uuid : jsstring) (form : result FormData) (req : Request) (kv : KV) :
  snd (postAuthorizeBody JSON_stringify Object_fromEntries Number_isZero
         env uuid form req kv) = kv
  \/ exists info extra,
       postAuthorizeBody JSON_stringify Object_fromEntries Number_isZero
         env uuid form req kv
       = (Return (redirectToNotion env req uuid extra),
          KV_put kv (stateKey uuid) (JSON_stringify info) 600).
Proof.
  unfold postAuthorizeBody.
  destruct form as [formData | e]; [| left; reflexivity].
  destruct (validateCSRFToken formData req); [| left; reflexivity].
  destruct (match FormData_get (lit "state") formData with
            | Some (FormString t) => present (Some t)
            | _ => None
            end) as [encodedState |]; [| left; reflexivity].
  destruct (let! decoded := atob encodedState in JSON_parse decoded) as [state | e];
    [| left; reflexivity].
  destruct (readClientId Number_isZero state) as [[| info clientId] | e];
    try (left; reflexivity).
  destruct (addApprovedClientValue JSON_stringify req clientId (COOKIE_ENCRYPTION_KEY env))
    as [cookie | e]; [| left; reflexivity].
  right. eexists. eexists. reflexivity.
Qed.

Lemma postAuthorize_store
    (JSON_stringify : json -> jsstring) (Error_message : Exn -> jsstring)
    (Object_fromEntries : list (jsstring * jsstring) -> list (jsstring * jsstring))
    (Number_isZero : jsstring -> bool)
    (env : Env) (uuid : jsstring) (form : result FormData) (req : Request) (kv : KV) :
  snd (postAuthorize JSON_stringify Error_message Object_fromEntries Number_isZero
         env uuid form req kv)
  = kv
  \/ exists info extra,
       postAuthorize JSON_stringify Error_message Object_fromEntries Number_isZero
         env uuid form req kv
       = (Return (redirectToNotion env req uuid extra),
          KV_put kv (stateKey uuid) (JSON_stringify info) 600).
Proof.
  unfold postAuthorize.
  destruct (postAuthorizeBody_store JSON_stringify Object_fromEntries Number_isZero
              env uuid form req kv) as [H | [info [extra H]]].
  - left.
    destruct (postAuthorizeBody JSON_stringify Object_fromEntries Number_isZero
                env uuid form req kv) as [[r | e] kv'].
    + exact H.
    + destruct e; exact H.
  - right. exists info, extra. rewrite H. reflexivity.
Qed.

(** X17: what the consent handler does to the state store.  Whatever
    the submission (the decoded client id may be a value of any type),
    every record under a key other than [oauth:state:<uuid>] is left as it
    was; and when the store changes at all, the new record sits under that
    key with a time to live of 600 seconds, and the answer is the 302
    redirect whose [Location] is the Notion authorization URL carrying this
    same [uuid] as its state. *)
Theorem X17_consent_handler_store
    (JSON_stringify : json -> jsstring) (Error_message : Exn -> jsstring)
    (Object_fromEntries : list (jsstring * jsstring) -> list (jsstring * jsstring))
    (Number_isZero : jsstring -> bool)
    (env : Env) (uuid : jsstring) (form : result FormData) (req : Request) (kv : KV) :
  let out :=
    postAuthorize JSON_stringify Error_message Object_fromEntries Number_isZero
      env uuid form req kv in
  (forall key, key <> stateKey uuid -> snd out !! key = kv !! key)
  /\ (snd out <> kv ->
      exists info extra,
        snd out !! stateKey uuid
        = Some {| kv_value := JSON_stringify info; kv_expirationTtl := 600 |}
        /\ fst out
           = Return {| status := 302;
                       headers := extra ++
                         [(lit "Location",
                           getNotionAuthorizeUrl (NOTION_OAUTH_CLIENT_ID env)
                             (origin req ++ lit "/callback") (Some uuid))];
                       body := None |}).
Proof.
  cbv zeta.
  destruct (postAuthorize_store JSON_stringify Error_message Object_fromEntries
              Number_isZero env uuid form req kv) as [H | [info [extra H]]].
  - rewrite H. split; [reflexivity | congruence].
  - rewrite H. cbn [fst snd]. split.
    + intros key Hkey. unfold KV_put. apply lookup_insert_ne. congruence.
    + intros _. exists info, extra. split; [| reflexivity].
      unfold KV_put. apply lookup_insert_eq.
Qed.

(** ** The scenario of the specification, run on the model *)

(** A consent submission for client [abc123] with matching CSRF token
    and cookie: the approval cookie holds the one client, the state token
    is stored with the request, the binding cookie holds its digest, and
    the redirect carries the token. *)
Example scenario_consent_submission
    (JSON_stringify : json -> jsstring) (Error_message : Exn -> jsstring)
    (Object_fromEntries : list (jsstring * jsstring) -> list (jsstring * jsstring))
    (Number_isZero : jsstring -> bool) :
  postAuthorize JSON_stringify Error_message Object_fromEntries Number_isZero
    {| COOKIE_ENCRYPTION_KEY := lit "cookie-secret";
       NOTION_OAUTH_CLIENT_ID := lit "notion-client" |}
    (lit "S1")
    (Return [(lit "state",
              FormString (lit "eyJvYXV0aFJlcUluZm8iOnsiY2xpZW50SWQiOiJhYmMxMjMifX0="));
             (lit "csrf_token", FormString (lit "T1"))])
    (requestWith [] (Some (lit "__Host-CSRF_TOKEN=T1"))) ∅
  = (Return {| status := 302;
             headers :=
               Object_fromEntries
                 [(lit "Set-Cookie",
                   lit "__Host-APPROVED_CLIENTS=f8e5e52c1f8c7cc6aa603479ae587838979034f80822679b0639dac71f8fd7c2.WyJhYmMxMjMiXQ==; HttpOnly; Secure; Path=/; SameSite=Lax; Max-Age=2592000");
                  (lit "Set-Cookie",
                   lit "__Host-CONSENTED_STATE=3696ad59777e09d5f2daacb544022d435e7cd053d87c5781241fabd8fdf2a90d; HttpOnly; Secure; Path=/; SameSite=Lax; Max-Age=600")]
               ++ [(lit "Location",
                    lit "https://api.notion.com/v1/oauth/authorize?client_id=notion-client&redirect_uri=https%3A%2F%2Fmcp.example%2Fcallback&response_type=code&owner=user&state=S1")];
             body := None |},
     KV_put ∅ (lit "oauth:state:S1")
       (JSON_stringify (JObject [(lit "clientId", JString (lit "abc123"))])) 600).
Proof. vm_compute. reflexivity. Qed.

(** The handler tests the decoded client id for truthiness only.  A
    submission whose state holds the number 5 as client id is approved like
    any other: the approval cookie signs the text [[5]], a state record is
    written and the answer is the redirect.  With the number 0 the answer
    is the 400 text and nothing is written. *)
Example scenario_numeric_client_id
    (Error_message : Exn -> jsstring) :
  let stringify (v : json) : jsstring :=
    match v with
    | JArray _ => lit "[5]"
    | _ => lit "{" ++ QuoteJSONString (lit "clientId") ++ lit ":5}"
    end in
  let isZero (lexeme : jsstring) : bool := jsstring_eqb lexeme (lit "0") in
  let env := {| COOKIE_ENCRYPTION_KEY := lit "cookie-secret";
                NOTION_OAUTH_CLIENT_ID := lit "notion-client" |} in
  let req := requestWith [] (Some (lit "__Host-CSRF_TOKEN=T1")) in
  postAuthorize stringify Error_message (fun l => l) isZero env (lit "S1")
    (Return [(lit "state",
              FormString (lit "eyJvYXV0aFJlcUluZm8iOnsiY2xpZW50SWQiOjV9fQ=="));
             (lit "csrf_token", FormString (lit "T1"))])
    req ∅
  = (Return {| status := 302;
               headers :=
                 [(lit "Set-Cookie",
                   lit "__Host-APPROVED_CLIENTS=60c37f297998f97e7017c5c1fa1bb45b0917420f0908b90dc2012a1983c63742.WzVd; HttpOnly; Secure; Path=/; SameSite=Lax; Max-Age=2592000");
                  (lit "Set-Cookie",
                   lit "__Host-CONSENTED_STATE=3696ad59777e09d5f2daacb544022d435e7cd053d87c5781241fabd8fdf2a90d; HttpOnly; Secure; Path=/; SameSite=Lax; Max-Age=600");
                  (lit "Location",
                   lit "https://api.notion.com/v1/oauth/authorize?client_id=notion-client&redirect_uri=https%3A%2F%2Fmcp.example%2Fcallback&response_type=code&owner=user&state=S1")];
               body := None |},
     KV_put ∅ (lit "oauth:state:S1")
       (lit "{" ++ QuoteJSONString (lit "clientId") ++ lit ":5}") 600)
  /\ postAuthorize stringify Error_message (fun l => l) isZero env (lit "S1")
       (Return [(lit "state",
                 FormString (lit "eyJvYXV0aFJlcUluZm8iOnsiY2xpZW50SWQiOjB9fQ=="));
                (lit "csrf_token", FormString (lit "T1"))])
       req ∅
     = (Return (c_text (lit "Invalid request") 400), ∅).
Proof. cbv zeta. split; vm_compute; reflexivity. Qed.

(** The callback with [state=S1] and the binding cookie consumes the
    record; the same callback again is refused. *)
Example scenario_callback_twice :
  let kv : KV := KV_put ∅ (lit "oauth:state:S1") (JSON_stringify_strings [lit "abc123"]) 600 in
  let req :=
    requestWith [(lit "code", lit "c0"); (lit "state", lit "S1")]
      (Some (lit "__Host-APPROVED_CLIENTS=f8e5e52c1f8c7cc6aa603479ae587838979034f80822679b0639dac71f8fd7c2.WyJhYmMxMjMiXQ==; __Host-CONSENTED_STATE=3696ad59777e09d5f2daacb544022d435e7cd053d87c5781241fabd8fdf2a90d")) in
  validateOAuthState req kv
    = (Return {| oauthReqInfo := JArray [JString (lit "abc123")];
                 state_clearCookie := clearConsentedState |}, ∅)
  /\ validateOAuthState req ∅ = (Throw InvalidOrExpiredState, ∅)
  /\ isClientApproved req (lit "abc123") (lit "cookie-secret") = Return true
  /\ isClientApproved req (lit "other") (lit "cookie-secret") = Return false
  /\ isClientApproved req (lit "abc123") (lit "another-secret") = Return false.
Proof. cbv zeta. split; [| split; [| split; [| split]]]; vm_compute; reflexivity. Qed.

Example split_example :
  split 59 (lit "a=1; b=2;;c") = [lit "a=1"; lit " b=2"; lit ""; lit "c"].
Proof. vm_compute. reflexivity. Qed.

Example sha256_abc :
  sha256Hex (lit "abc")
  = lit "ba7816bf8f01cfea414140de5dae2223b00361a396177a9cb410ff61f20015ad".
Proof. vm_compute. reflexivity. Qed.

Example sha256_empty :
  sha256Hex (lit "")
  = lit "e3b0c44298fc1c149afbf4c8996fb92427ae41e4649b934ca495991b7852b855".
Proof. vm_compute. reflexivity. Qed.

Example sha256_two_blocks :
  sha256Hex (lit "abcdbcdecdefdefgefghfghighijhijkijkljklmklmnlmnomnopnopq")
  = lit "248d6a61d20638b8e5c026930c3e6039a33ce45964ff2167f6ecedd419db06c1".
Proof. vm_compute. reflexivity. Qed.

Example hmac_fox :
  hexOfBytes (SHA256.hmac (TextEncoder_encode (lit "key"))
     (TextEncoder_encode (lit "The quick brown fox jumps over the lazy dog")))
  = lit "f7bc83f430538424b13298e6aa6fb143ef4d59a14946175997479dbc2d1a3cd8".
Proof. vm_compute. reflexivity. Qed.

Example JSON_parse_ex1 :
  JSON_parse (lit " { 'a' : [1, 2.5e-3, true, null, 'xA\n'], 'b': {} } ")
  = Throw SyntaxError.
Proof. vm_compute. reflexivity. Qed.

Example JSON_parse_ex2 :
  JSON_parse (JSON_stringify_strings [lit "abc"; [34; 92; 10; 1; 55296; 233]; []])
  = Return (JArray [JString (lit "abc"); JString [34; 92; 10; 1; 55296; 233]; JString []]).
Proof. vm_compute. reflexivity. Qed.

Example JSON_parse_ex3 :
  JSON_parse (lit "{ " ++ QuoteJSONString (lit "a") ++ lit " : [1, -2.5e-3, true, null, [] ], "
              ++ QuoteJSONString (lit "b") ++ lit ":{}}  ")
  = Return (JObject [(lit "a", JArray [JNumber (lit "1"); JNumber (lit "-2.5e-3");
                                       JBool true; JNull; JArray []]);
                     (lit "b", JObject [])]).
Proof. vm_compute. reflexivity. Qed.

Example JSON_parse_ex4 :
  List.map JSON_parse [lit "01"; lit "1."; lit "[1,]"; lit "{"; lit ""; lit "nul"; lit "[1 2]"; lit "-"]
  = repeat (Throw SyntaxError) 8.
Proof. vm_compute. reflexivity. Qed.

Example JSON_stringify_strings_ex :
  JSON_stringify_strings [lit "abc123"; lit "x"] = lit "[" ++ [34] ++ lit "abc123" ++ [34] ++ lit ","
    ++ [34] ++ lit "x" ++ [34] ++ lit "]".
Proof. vm_compute. reflexivity. Qed.

Example TextEncoder_ex :
  TextEncoder_encode [233; 8364; 55357; 56832; 55357; 65] =
  [195; 169; 226; 130; 172; 240; 159; 152; 128; 239; 191; 189; 65].
Proof. vm_compute. reflexivity. Qed.

Example btoa_ex :
  List.map btoa [lit ""; lit "f"; lit "fo"; lit "foo"; lit "foob"; lit "fooba"; lit "foobar"; [255; 254; 253]]
  = List.map Return [lit ""; lit "Zg=="; lit "Zm8="; lit "Zm9v"; lit "Zm9vYg=="; lit "Zm9vYmE="; lit "Zm9vYmFy"; lit "//79"].
Proof. vm_compute. reflexivity. Qed.

Example atob_ex :
  List.map atob [lit ""; lit "Zg=="; lit "Zg"; lit " Z m 8 = "; lit "Zm9v"; lit "Zm9vYg"; lit "//79"; lit "Zh=="]
  = List.map Return [lit ""; lit "f"; lit "f"; lit "fo"; lit "foo"; lit "foob"; [255; 254; 253]; lit "f"].
Proof. vm_compute. reflexivity. Qed.

Example atob_fail_ex :
  List.map atob [lit "!"; lit "Z"; lit "Zg="; lit "Zm9vY"; lit "Zg==="; lit "=Zg="; lit "Zm.9"]
  = repeat (Throw InvalidCharacterError) 7.
Proof. vm_compute. reflexivity. Qed.

Example parseInt16_ex :
  List.map (fun s => toUint8 (parseInt16 s))
    [lit "ff"; lit "0a"; lit "a"; lit "ag"; lit "+a"; lit "-a"; lit " a"; lit "zz"; lit "0x"; lit "AB"; lit "g1"]
  = [255; 10; 10; 10; 10; 246; 10; 0; 0; 171; 0].
Proof. vm_compute. reflexivity. Qed.

Example matchPairs_ex :
  matchPairs (lit "abcde") = [lit "ab"; lit "cd"; lit "e"]
  /\ matchPairs [97; 10; 98; 99] = [lit "a"; lit "bc"]
  /\ matchPairs [] = [].
Proof. vm_compute. auto. Qed.

Example sanitizeText_ex :
  sanitizeText (lit "<a href='x'>Tom & Jerry</a>" ++ [34])
  = lit "&lt;a href=&#039;x&#039;&gt;Tom &amp; Jerry&lt;/a&gt;&quot;".
Proof. vm_compute. reflexivity. Qed.

Example normalizeId_ex :
  List.map normalizeId
    [lit "0123abcd-0123-4567-89ab-0123456789ab";
     lit "https://www.notion.so/team/My-Page-0123456789abcdef0123456789abcdef?v=1";
     lit "https://notion.so/0123456789abcdef0123456789abcdef";
     lit "https://x.notion.site/a-b/0123456789abcdef0123456789abcdef/0123456789abcdef0123456789abcdee";
     lit "https://www.notion.so/My-Page-0123456789ABCDEF0123456789abcdef";
     lit "notion.so/0123456789abcdef0123456789abcde-f"]
  = [lit "0123abcd0123456789ab0123456789ab";
     lit "0123456789abcdef0123456789abcdef";
     lit "0123456789abcdef0123456789abcdef";
     lit "0123456789abcdef0123456789abcdee";
     lit "https://www.notion.so/MyPage0123456789ABCDEF0123456789abcdef";
     lit "notion.so/0123456789abcdef0123456789abcdef"].
Proof. vm_compute. reflexivity. Qed.
